(** * matroska-metadata: container navigation and subtitle streaming

    A shallow embedding of [src/index.js] (class [Metadata]) and
    [src/util.js] (class [Util]).  JavaScript values are modelled by
    [jsval]; numbers are IEEE-754 binary64 values ([PrimFloat.float]),
    which is what the engine computes with.  The collaborators that live
    outside the repository (the [ebml-iterator] decoder and its [EbmlTagId]
    enumeration, [zlib], [uint8-util], the file object) are the fields of
    the class [Host].

    Promises are modelled by their settled outcome ([result]); the four
    fetches started by the constructor are run in the order in which they
    are written.  The session object [this] is threaded explicitly.
    Objects used as maps ([tagCache], the transformed index, the emitted
    [subtitle]) are finite maps from property names; properties inherited
    from [Object.prototype] are not part of the model. *)

From Stdlib Require Import ZArith List Strings.Ascii Strings.Byte PrimFloat Bool Lia.
From Stdlib Require Import FloatOps FloatAxioms SpecFloat.
From stdpp Require Import gmap strings list fin_maps.

Local Open Scope string_scope.
Local Open Scope list_scope.

(** ** JavaScript values *)

Inductive jsval : Type :=
| JUndefined
| JNull
| JBool (b : bool)
| JNum (x : float)
| JStr (s : string)
| JBytes (bs : list byte).   (* a Uint8Array *)

(** [OutOfFuel] is not an exception of the program: it marks a run of
    [readSeekHead] that has not settled within the recursion depth given. *)
Inductive error : Type :=
| TypeError
| Error (message : string)
| OutOfFuel.

Inductive result (A : Type) : Type :=
| Ok (a : A)
| Throw (e : error).
Arguments Ok {A} a.
Arguments Throw {A} e.

(** [Boolean(v)], the test of [if], [!], [||] and [&&]. *)
Definition truthy (v : jsval) : bool :=
  match v with
  | JUndefined | JNull => false
  | JBool b => b
  | JNum x => negb (PrimFloat.is_zero x || PrimFloat.is_nan x)
  | JStr s => negb (String.eqb s "")
  | JBytes _ => true
  end.

(** [a || b] *)
Definition js_or (a b : jsval) : jsval := if truthy a then a else b.

(** SameValueZero, the key comparison of [Map]; a [Uint8Array] is an
    object and is only equal to itself, which two decoded values never are. *)
Definition sameValueZero (a b : jsval) : bool :=
  match a, b with
  | JUndefined, JUndefined => true
  | JNull, JNull => true
  | JBool x, JBool y => Bool.eqb x y
  | JNum x, JNum y => PrimFloat.eqb x y || (PrimFloat.is_nan x && PrimFloat.is_nan y)
  | JStr x, JStr y => String.eqb x y
  | _, _ => false
  end.

(** ** Tags produced by the decoder *)

Variant EbmlElementType : Type :=
| ET_String
| ET_UTF8
| ET_Other (code : Z).

#[warnings="-register-all"]
Inductive EbmlTag : Type := Tag {
  id : Z;
  type : option EbmlElementType;          (* [None]: [tag.type == null] *)
  data : jsval;
  Children : option (list EbmlTag);       (* [None]: not a master tag *)
  track : jsval;                          (* Block tags *)
  value : jsval;
  payload : list byte;
  absoluteStart : jsval;
  tagHeaderLength : jsval
}.

Definition set_data (d : jsval) (t : EbmlTag) : EbmlTag :=
  Tag (id t) (type t) d (Children t) (track t) (value t) (payload t)
      (absoluteStart t) (tagHeaderLength t).

Definition set_absoluteStart (a : jsval) (t : EbmlTag) : EbmlTag :=
  Tag (id t) (type t) (data t) (Children t) (track t) (value t) (payload t)
      a (tagHeaderLength t).

(** ** External collaborators *)

Class Host : Type := {
  (* the enumeration [EbmlTagId]: [EbmlTagId.Name] and its reverse
     mapping [EbmlTagId[number]] *)
  EbmlTagId : string -> option Z;
  EbmlTagName : Z -> option string;
  (* the file: [file.slice(start).stream()[Symbol.asyncIterator]()] and
     [file[Symbol.asyncIterator]({ start })] *)
  stream : Type;
  file_slice_stream : jsval -> stream;
  file_asyncIterator : jsval -> stream;
  stream_chunks : stream -> list (list byte);
  (* [new EbmlIteratorDecoder({ stream, bufferTagIds })]: the tags it
     yields until the stream ends, and the error that ended it, if any *)
  decode : list (option Z) -> stream -> list EbmlTag * option error;
  (* [new EbmlIteratorDecoder({ bufferTagIds })] and [decoder.parseTags] *)
  decoder : Type;
  newDecoder : list (option Z) -> decoder;
  parseTags : decoder -> list byte -> list EbmlTag * option error * decoder;
  Tools_readUnsigned : jsval -> Z;
  (* zlib and uint8-util *)
  inflateSync : list byte -> result (list byte);
  arr2text : list byte -> string;
  (* coercions of the language that the model does not spell out *)
  StringToNumber : string -> float;
  NumberToString : float -> string;
  Uint8Array_toString : list byte -> string;
  EbmlTag_toPrimitive : EbmlTag -> jsval
}.

Section Coercions.
Context {H : Host}.

Definition ToString (v : jsval) : string :=
  match v with
  | JUndefined => "undefined"
  | JNull => "null"
  | JBool true => "true"
  | JBool false => "false"
  | JNum x => NumberToString x
  | JStr s => s
  | JBytes bs => Uint8Array_toString bs
  end.

Definition ToNumber (v : jsval) : float :=
  match v with
  | JUndefined => PrimFloat.nan
  | JNull => PrimFloat.zero
  | JBool true => PrimFloat.one
  | JBool false => PrimFloat.zero
  | JNum x => x
  | JStr s => StringToNumber s
  | JBytes bs => StringToNumber (Uint8Array_toString bs)
  end.

(** [a + b]: concatenation as soon as one primitive is a string. *)
Definition js_add (a b : jsval) : jsval :=
  match a, b with
  | JStr _, _ | JBytes _, _ | _, JStr _ | _, JBytes _ =>
      JStr (ToString a ++ ToString b)
  | _, _ => JNum (PrimFloat.add (ToNumber a) (ToNumber b))
  end.

Definition js_mul (a b : jsval) : jsval :=
  JNum (PrimFloat.mul (ToNumber a) (ToNumber b)).

Definition js_div (a b : jsval) : jsval :=
  JNum (PrimFloat.div (ToNumber a) (ToNumber b)).
End Coercions.

(** ** The session object *)

(** A subtitle track descriptor; [name], [header] and [_compressed] are
    only set when the entry declares them. *)
Module Track.
Record t : Type := {
  number : jsval;
  language : jsval;
  type : string;
  name : option jsval;
  header : option string;
  _compressed : bool
}.
End Track.

(** A chapter entry; [end_] is the property [end]. *)
Module Chapter.
Record t : Type := {
  start : jsval;
  end_ : jsval;
  text : jsval;
  language : jsval
}.
End Chapter.

(** An attachment; [data_] is the property [data]. *)
Module Attachment.
Record t : Type := {
  filename : jsval;
  mimetype : jsval;
  data_ : jsval
}.
End Attachment.

(** [fetched] is what [readSeekHeadTag] resolves to. *)
Variant fetched : Type :=
| FTag (t : EbmlTag)
| FNull
| FUndefined.

(** The fields of [Util] and [Metadata].  A promise-valued field holds
    [None] before the constructor assigns it and the settled outcome
    afterwards.  [opened] and [emitted] are instrumentation: the [start]
    argument of every [getFileStream] call, and every
    [emit('subtitle', subtitle, track)], oldest first. *)
Record Metadata : Type := {
  implementsSlice : bool;
  timecodeScale : jsval;
  currentClusterTimecode : jsval;
  stable : bool;
  destroyed : bool;
  subtitleTracks : list (jsval * Track.t);
  segment : option (result (option EbmlTag));
  seekHead : option (result (option (gmap string (option EbmlTag))));
  duration : option (result jsval);
  tracks : option (result (list Track.t));
  segmentStart : jsval;
  tagCache : gmap string EbmlTag;
  opened : list jsval;
  emitted : list (gmap string jsval * jsval)
}.

Definition set_timecodeScale (v : jsval) (m : Metadata) : Metadata :=
  Build_Metadata (implementsSlice m) v (currentClusterTimecode m) (stable m)
    (destroyed m) (subtitleTracks m) (segment m) (seekHead m) (duration m)
    (tracks m) (segmentStart m) (tagCache m) (opened m) (emitted m).

Definition set_currentClusterTimecode (v : jsval) (m : Metadata) : Metadata :=
  Build_Metadata (implementsSlice m) (timecodeScale m) v (stable m)
    (destroyed m) (subtitleTracks m) (segment m) (seekHead m) (duration m)
    (tracks m) (segmentStart m) (tagCache m) (opened m) (emitted m).

Definition set_stable (v : bool) (m : Metadata) : Metadata :=
  Build_Metadata (implementsSlice m) (timecodeScale m) (currentClusterTimecode m) v
    (destroyed m) (subtitleTracks m) (segment m) (seekHead m) (duration m)
    (tracks m) (segmentStart m) (tagCache m) (opened m) (emitted m).

Definition set_destroyed (v : bool) (m : Metadata) : Metadata :=
  Build_Metadata (implementsSlice m) (timecodeScale m) (currentClusterTimecode m)
    (stable m) v (subtitleTracks m) (segment m) (seekHead m) (duration m)
    (tracks m) (segmentStart m) (tagCache m) (opened m) (emitted m).

Definition set_subtitleTracks (v : list (jsval * Track.t)) (m : Metadata) : Metadata :=
  Build_Metadata (implementsSlice m) (timecodeScale m) (currentClusterTimecode m)
    (stable m) (destroyed m) v (segment m) (seekHead m) (duration m)
    (tracks m) (segmentStart m) (tagCache m) (opened m) (emitted m).

Definition set_segment (v : result (option EbmlTag)) (m : Metadata) : Metadata :=
  Build_Metadata (implementsSlice m) (timecodeScale m) (currentClusterTimecode m)
    (stable m) (destroyed m) (subtitleTracks m) (Some v) (seekHead m) (duration m)
    (tracks m) (segmentStart m) (tagCache m) (opened m) (emitted m).

Definition set_seekHead (v : result (option (gmap string (option EbmlTag))))
    (m : Metadata) : Metadata :=
  Build_Metadata (implementsSlice m) (timecodeScale m) (currentClusterTimecode m)
    (stable m) (destroyed m) (subtitleTracks m) (segment m) (Some v) (duration m)
    (tracks m) (segmentStart m) (tagCache m) (opened m) (emitted m).

Definition set_duration (v : result jsval) (m : Metadata) : Metadata :=
  Build_Metadata (implementsSlice m) (timecodeScale m) (currentClusterTimecode m)
    (stable m) (destroyed m) (subtitleTracks m) (segment m) (seekHead m) (Some v)
    (tracks m) (segmentStart m) (tagCache m) (opened m) (emitted m).

Definition set_tracks (v : result (list Track.t)) (m : Metadata) : Metadata :=
  Build_Metadata (implementsSlice m) (timecodeScale m) (currentClusterTimecode m)
    (stable m) (destroyed m) (subtitleTracks m) (segment m) (seekHead m) (duration m)
    (Some v) (segmentStart m) (tagCache m) (opened m) (emitted m).

Definition set_segmentStart (v : jsval) (m : Metadata) : Metadata :=
  Build_Metadata (implementsSlice m) (timecodeScale m) (currentClusterTimecode m)
    (stable m) (destroyed m) (subtitleTracks m) (segment m) (seekHead m) (duration m)
    (tracks m) v (tagCache m) (opened m) (emitted m).

Definition set_tagCache (v : gmap string EbmlTag) (m : Metadata) : Metadata :=
  Build_Metadata (implementsSlice m) (timecodeScale m) (currentClusterTimecode m)
    (stable m) (destroyed m) (subtitleTracks m) (segment m) (seekHead m) (duration m)
    (tracks m) (segmentStart m) v (opened m) (emitted m).

Definition set_opened (v : list jsval) (m : Metadata) : Metadata :=
  Build_Metadata (implementsSlice m) (timecodeScale m) (currentClusterTimecode m)
    (stable m) (destroyed m) (subtitleTracks m) (segment m) (seekHead m) (duration m)
    (tracks m) (segmentStart m) (tagCache m) v (emitted m).

Definition set_emitted (v : list (gmap string jsval * jsval)) (m : Metadata) : Metadata :=
  Build_Metadata (implementsSlice m) (timecodeScale m) (currentClusterTimecode m)
    (stable m) (destroyed m) (subtitleTracks m) (segment m) (seekHead m) (duration m)
    (tracks m) (segmentStart m) (tagCache m) (opened m) v.

(** The field initialisers of the two classes, before the constructor body. *)
Definition fresh (slice : bool) : Metadata :=
  {| implementsSlice := slice;
     timecodeScale := JNum 1;
     currentClusterTimecode := JNull;
     stable := false;
     destroyed := false;
     subtitleTracks := [];
     segment := None;
     seekHead := None;
     duration := None;
     tracks := None;
     segmentStart := JNum 0;
     tagCache := ∅;
     opened := [];
     emitted := [] |}.

(** ** Computations on the session: state and exceptions *)

Definition M (A : Type) : Type := Metadata -> result A * Metadata.

Definition ret {A} (a : A) : M A := fun this => (Ok a, this).
Definition throw {A} (e : error) : M A := fun this => (Throw e, this).
Definition bind {A B} (c : M A) (k : A -> M B) : M B :=
  fun this =>
    match c this with
    | (Ok a, this') => k a this'
    | (Throw e, this') => (Throw e, this')
    end.
Definition lift {A} (r : result A) : M A := fun this => (r, this).
Definition get_this : M Metadata := fun this => (Ok this, this).
Definition modify (f : Metadata -> Metadata) : M unit := fun this => (Ok tt, f this).

(** [await p] for a promise-valued field: a field that was never assigned
    awaits to [undefined], which [dflt] stands for. *)
Definition await {A} (p : option (result A)) (dflt : A) : M A :=
  match p with
  | Some r => lift r
  | None => ret dflt
  end.

Notation "'do' x <- c ; k" := (bind c (fun x => k))
  (at level 10, x name, c at level 100, k at level 200, only parsing).

(** ** [Map] as used for [subtitleTracks]: insertion ordered, keys compared
    with SameValueZero *)

Fixpoint Map_get {V} (m : list (jsval * V)) (k : jsval) : option V :=
  match m with
  | [] => None
  | (k', v) :: m' => if sameValueZero k' k then Some v else Map_get m' k
  end.

Definition Map_has {V} (m : list (jsval * V)) (k : jsval) : bool :=
  match Map_get m k with Some _ => true | None => false end.

Fixpoint Map_set {V} (m : list (jsval * V)) (k : jsval) (v : V) : list (jsval * V) :=
  match m with
  | [] => [(k, v)]
  | (k', v') :: m' =>
      if sameValueZero k' k then (k', v) :: m' else (k', v') :: Map_set m' k v
  end.

Definition Map_values {V} (m : list (jsval * V)) : list V := map snd m.

(** ** Strings *)

(** [s.split(sep)] for a one-character separator. *)
Fixpoint split (sep : ascii) (s : string) : list string :=
  match s with
  | EmptyString => [EmptyString]
  | String c s' =>
      if Ascii.eqb c sep then EmptyString :: split sep s'
      else match split sep s' with
           | h :: t => String c h :: t
           | [] => [String c EmptyString]
           end
  end.

(** [values.join(sep)] *)
Fixpoint join (sep : string) (values : list string) : string :=
  match values with
  | [] => ""
  | [v] => v
  | v :: rest => v ++ sep ++ join sep rest
  end.

Fixpoint startsWith (s prefix : string) : bool :=
  match prefix, s with
  | EmptyString, _ => true
  | String p prefix', String c s' => Ascii.eqb c p && startsWith s' prefix'
  | String _ _, EmptyString => false
  end.

(** [s.substring(n)] *)
Fixpoint substring (n : nat) (s : string) : string :=
  match n, s with
  | O, _ => s
  | S n', String _ s' => substring n' s'
  | S _, EmptyString => EmptyString
  end.

(** [s.toLowerCase()] on the letters A to Z; codec identifiers and element
    names are ASCII. *)
Definition lower (c : ascii) : ascii :=
  let n := Ascii.N_of_ascii c in
  if (65 <=? n)%N && (n <=? 90)%N then Ascii.ascii_of_N (n + 32) else c.

Fixpoint toLowerCase (s : string) : string :=
  match s with
  | EmptyString => EmptyString
  | String c s' => String (lower c) (toLowerCase s')
  end.

(** ** [index.js]: helpers *)

Definition SSA_TYPES : list string := ["ssa"; "ass"].
Definition SSA_KEYS : list string :=
  ["readOrder"; "layer"; "style"; "name"; "marginL"; "marginR"; "marginV"; "effect"; "text"].

(** [id === tag], where [tag] is a member of [EbmlTagId] ([None] when the
    enumeration has no such member). *)
Definition id_is (tag : option Z) (t : EbmlTag) : bool :=
  match tag with
  | Some n => Z.eqb (id t) n
  | None => false
  end.

(** [chunk?.Children.find(({ id }) => id === tag)]; [util.js] has the same
    function over [_children], the field behind [Children]. *)
Definition getChild (chunk : option EbmlTag) (tag : option Z) : result (option EbmlTag) :=
  match chunk with
  | None => Ok None
  | Some c =>
      match Children c with
      | None => Throw TypeError
      | Some cs => Ok (List.find (id_is tag) cs)
      end
  end.

(** [getChild(chunk, tag)?.data] *)
Definition getData (chunk : option EbmlTag) (tag : option Z) : result jsval :=
  match getChild chunk tag with
  | Ok (Some c) => Ok (data c)
  | Ok None => Ok JUndefined
  | Throw e => Throw e
  end.

(** [chunk[i] === b] for a byte [b] *)
Definition byteAt (chunk : list byte) (i : nat) (b : byte) : bool :=
  match chunk !! i with
  | Some c => Byte.eqb c b
  | None => false
  end.

Section Program.
Context {H : Host}.

(** *** [util.js] *)

Fixpoint processTags (tag : EbmlTag) : EbmlTag :=
  match tag with
  | Tag i ty d cs tr v p a h =>
      let d' :=
        if truthy d &&
           match ty with
           | Some ET_String | Some ET_UTF8 | None => true
           | Some (ET_Other _) => false
           end
        then JStr (ToString d) else d in
      Tag i ty d'
          (match cs with
           | Some l => Some (map processTags l)
           | None => None
           end) tr v p a h
  end.

(** [!tagId] *)
Definition no_tagId (tagId : option Z) : bool :=
  match tagId with
  | Some n => Z.eqb n 0
  | None => true
  end.

Definition readUntilTag (s : stream) (tagId : option Z) (bufferTag : bool)
  : result (option EbmlTag) :=
  if no_tagId tagId then Throw (Error "tagId is required")
  else
    let '(tags, err) := decode (if bufferTag then [tagId] else []) s in
    match List.find (id_is tagId) tags with
    | Some tag => Ok (Some (processTags tag))
    | None =>
        match err with
        | Some e => Throw e
        | None => Ok None
        end
    end.

(** Some file-likes do not implement [slice]; those are iterated from
    [start]. *)
Definition openStream (slice : bool) (start : jsval) : stream :=
  if slice then file_slice_stream start else file_asyncIterator start.

Definition getFileStream (start : jsval) : M stream :=
  fun this =>
    (Ok (openStream (implementsSlice this) start),
     set_opened (opened this ++ [start]) this).

(** *** [index.js]: [handleBlockGroup] *)

(** The loop [for (let i = start; i < 8; i++) subtitle[SSA_KEYS[i]] = values[i]]. *)
Definition ssa_assign (values : list string) (subtitle : gmap string jsval) (i : nat)
  : gmap string jsval :=
  <[ from_option (fun k => k) "undefined" (SSA_KEYS !! i) :=
       from_option JStr JUndefined (values !! i) ]> subtitle.

Definition ssa_fields (start : nat) (values : list string) (subtitle : gmap string jsval)
  : gmap string jsval :=
  fold_left (ssa_assign values) (seq start (8 - start)) subtitle.

Definition emit_subtitle (subtitle : gmap string jsval) (trackNumber : jsval) : M unit :=
  modify (fun this => set_emitted (emitted this ++ [(subtitle, trackNumber)]) this).

(** The object [subtitle] as it is when [handleBlockGroup] emits it: the
    literal with [text], [time] and [duration], then the fields of the
    scriptable-subtitle family. *)
Definition subtitleObject (trk : Track.t) (block : EbmlTag) (payload : list byte)
    (blockDuration timecodeScale currentClusterTimecode : jsval) : gmap string jsval :=
  let subtitle : gmap string jsval :=
    <[ "duration" := js_mul blockDuration timecodeScale ]>
    (<[ "time" := js_mul (js_add (value block) currentClusterTimecode) timecodeScale ]>
     (<[ "text" := JStr (arr2text payload) ]> ∅)) in
  if bool_decide (Track.type trk ∈ SSA_TYPES) then
    let values := split "," (arr2text payload) in
    let subtitle :=
      ssa_fields (if String.eqb (Track.type trk) "ssa" then 2 else 1) values subtitle in
    <[ "text" := JStr (join "," (drop 8 values)) ]> subtitle
  else subtitle.

Definition handleBlockGroup (chunk : EbmlTag) (timecodeScale currentClusterTimecode : jsval)
  : M unit :=
  do this0 <- get_this;
  do _ <- await (tracks this0) [];
  do block <- lift (getChild (Some chunk) (EbmlTagId "Block"));
  do this <- get_this;
  match block with
  | Some block =>
      if Map_has (subtitleTracks this) (track block) then
        do blockDuration <- lift (getData (Some chunk) (EbmlTagId "BlockDuration"));
        match Map_get (subtitleTracks this) (track block) with
        | None => ret tt
        | Some trk =>
            do payload <- lift (if Track._compressed trk then inflateSync (payload block)
                                else Ok (payload block));
            emit_subtitle
              (subtitleObject trk block payload blockDuration timecodeScale
                              currentClusterTimecode)
              (track block)
        end
      else ret tt
  | None => ret tt
  end.

(** The earlier revision of [index.js] reads the two scale factors from
    the session when the handler runs instead of receiving them. *)
Definition handleBlockGroup_fields (chunk : EbmlTag) : M unit :=
  fun this => handleBlockGroup chunk (timecodeScale this) (currentClusterTimecode this) this.

(** *** [util.js]: the index *)

(** One iteration of the loop over [seekHead.Children]. *)
Definition seek_entry (transformedHead : gmap string (option EbmlTag)) (child : EbmlTag)
  : result (gmap string (option EbmlTag)) :=
  if negb (id_is (EbmlTagId "Seek") child) then Ok transformedHead
  else
    match getChild (Some child) (EbmlTagId "SeekID") with
    | Throw e => Throw e
    | Ok None => Throw TypeError
    | Ok (Some seekID) =>
        let tagName :=
          from_option (fun n => n) "undefined"
                      (EbmlTagName (Tools_readUnsigned (data seekID))) in
        match getChild (Some child) (EbmlTagId "SeekPosition") with
        | Throw e => Throw e
        | Ok position => Ok (<[ tagName := position ]> transformedHead)
        end
    end.

Fixpoint transformHead (children : list EbmlTag)
    (transformedHead : gmap string (option EbmlTag))
  : result (gmap string (option EbmlTag)) :=
  match children with
  | [] => Ok transformedHead
  | child :: rest =>
      match seek_entry transformedHead child with
      | Ok transformedHead' => transformHead rest transformedHead'
      | Throw e => Throw e
      end
  end.

(** [{ ...secondSeekHead, ...transformedHead }]: the second operand of the
    spread overwrites the first, so the left-biased union has
    [transformedHead] on the left; spreading [null] adds nothing. *)
Definition spread (secondSeekHead : option (gmap string (option EbmlTag)))
    (transformedHead : gmap string (option EbmlTag))
  : gmap string (option EbmlTag) :=
  transformedHead ∪ from_option (fun m => m) ∅ secondSeekHead.

(** [readSeekHead] calls itself for a referenced second index; [fuel]
    bounds the depth of that chain. *)
Fixpoint readSeekHead (fuel : nat) (seekHeadStream : stream) (segmentStart : jsval)
  : M (option (gmap string (option EbmlTag))) :=
  match fuel with
  | O => throw OutOfFuel
  | S fuel' =>
      do seekHead <- lift (readUntilTag seekHeadStream (EbmlTagId "SeekHead") true);
      do this <- get_this;
      if destroyed this then ret None
      else
        match seekHead with
        | None => throw (Error "Couldn't find seek head")
        | Some seekHead =>
            match Children seekHead with
            | None => throw TypeError
            | Some children =>
                do transformedHead <- lift (transformHead children ∅);
                match transformedHead !! "SeekHead" with
                | Some (Some position) =>
                    do seekHeadStream' <-
                      getFileStream (js_add (EbmlTag_toPrimitive position) segmentStart);
                    do secondSeekHead <- readSeekHead fuel' seekHeadStream' segmentStart;
                    ret (Some (spread secondSeekHead transformedHead))
                | _ => ret (Some transformedHead)
                end
            end
        end
  end.

Definition getSegment : M (option EbmlTag) :=
  do this <- get_this;
  match segment this with
  | Some settled => lift settled
  | None =>
      do s <- getFileStream JUndefined;
      do segment <- lift (readUntilTag s (EbmlTagId "Segment") false);
      match segment with
      | None => ret None
      | Some segment =>
          do _ <- modify (set_segmentStart
                            (js_add (absoluteStart segment) (tagHeaderLength segment)));
          ret (Some segment)
      end
  end.

Definition getSeekHead (fuel : nat) : M (option (gmap string (option EbmlTag))) :=
  do this <- get_this;
  match seekHead this with
  | Some settled => lift settled
  | None =>
      do _ <- await (segment this) None;
      do seekHeadStream <- getFileStream JUndefined;
      readSeekHead fuel seekHeadStream (JNum 0)
  end.

(** [child] after [child.absoluteStart = this.segmentStart +
    (seekHead[tag]?.data || 0)], for the entry [position] of the index. *)
Definition located (this : Metadata) (position child : EbmlTag) : EbmlTag :=
  set_absoluteStart (js_add (segmentStart this) (js_or (data position) (JNum 0))) child.

Definition readSeekHeadTag (tag : string) : M fetched :=
  do this <- get_this;
  do seekHead <- await (seekHead this) None;
  let storedTag := toLowerCase tag in
  match tagCache this !! storedTag with
  | Some cached => ret (FTag cached)
  | None =>
      match seekHead with
      | None => throw TypeError
      | Some seekHead =>
          match seekHead !! tag with
          | Some (Some position) =>
              do s <- getFileStream JUndefined;
              do child <- lift (readUntilTag s (EbmlTagId tag) true);
              match child with
              | None => ret FNull
              | Some child =>
                  do this <- get_this;
                  let child := located this position child in
                  do _ <- modify (fun this =>
                                    set_tagCache (<[ storedTag := child ]> (tagCache this)) this);
                  ret (FTag child)
              end
          | _ => ret FUndefined
          end
      end
  end.

(** *** [index.js]: the getters *)

(** [l.find(p)] and [l.filter(p)] for a predicate that may throw. *)
Fixpoint find_r {A} (p : A -> result bool) (l : list A) : result (option A) :=
  match l with
  | [] => Ok None
  | x :: l' =>
      match p x with
      | Throw e => Throw e
      | Ok true => Ok (Some x)
      | Ok false => find_r p l'
      end
  end.

Fixpoint filter_r {A} (p : A -> result bool) (l : list A) : result (list A) :=
  match l with
  | [] => Ok []
  | x :: l' =>
      match p x with
      | Throw e => Throw e
      | Ok b =>
          match filter_r p l' with
          | Throw e => Throw e
          | Ok kept => Ok (if b then x :: kept else kept)
          end
      end
  end.

(** [for (const x of l) body(x)] and [l.map(f)] on the session. *)
Fixpoint for_each {A} (body : A -> M unit) (l : list A) : M unit :=
  match l with
  | [] => ret tt
  | x :: l' => do _ <- body x; for_each body l'
  end.

Fixpoint map_r {A B} (f : A -> result B) (l : list A) : result (list B) :=
  match l with
  | [] => Ok []
  | x :: l' =>
      match f x with
      | Throw e => Throw e
      | Ok y =>
          match map_r f l' with
          | Throw e => Throw e
          | Ok ys => Ok (y :: ys)
          end
      end
  end.

Definition attachment (chunk : EbmlTag) : result Attachment.t :=
  match getData (Some chunk) (EbmlTagId "FileName") with
  | Throw e => Throw e
  | Ok filename =>
      match getData (Some chunk) (EbmlTagId "FileMimeType") with
      | Throw e => Throw e
      | Ok mimetype =>
          match getData (Some chunk) (EbmlTagId "FileData") with
          | Throw e => Throw e
          | Ok d => Ok {| Attachment.filename := filename;
                          Attachment.mimetype := mimetype;
                          Attachment.data_ := d |}
          end
      end
  end.

Definition getAttachments : M (list Attachment.t) :=
  do Attachments <- readSeekHeadTag "Attachments";
  match Attachments with
  | FTag a =>
      match Children a with
      | Some children => lift (map_r attachment children)
      | None => ret []
      end
  | _ => ret []
  end.

(** [cc.id === EbmlTagId.ContentEncoding && getChild(cc, EbmlTagId.ContentCompression)] *)
Definition has_compression (cc : EbmlTag) : result bool :=
  if id_is (EbmlTagId "ContentEncoding") cc then
    match getChild (Some cc) (EbmlTagId "ContentCompression") with
    | Throw e => Throw e
    | Ok found => Ok (bool_decide (is_Some found))
    end
  else Ok false.

(** [c.id === EbmlTagId.ContentEncodings && c.Children.find(...)] *)
Definition declares_compression (c : EbmlTag) : result bool :=
  if id_is (EbmlTagId "ContentEncodings") c then
    match Children c with
    | None => Throw TypeError
    | Some ccs =>
        match find_r has_compression ccs with
        | Throw e => Throw e
        | Ok found => Ok (bool_decide (is_Some found))
        end
    end
  else Ok false.

(** [v !== 0x11] is false exactly on the number 17. *)
Definition is_subtitle_type (v : jsval) : bool :=
  match v with
  | JNum x => PrimFloat.eqb x 17
  | _ => false
  end.

(** The body of the loop over the [TrackEntry] children.  [arr2text]
    decodes a [Uint8Array]; given anything else its [TextDecoder] raises
    a [TypeError]. *)
Definition track_entry (entry : EbmlTag) : M unit :=
  do trackType <- lift (getData (Some entry) (EbmlTagId "TrackType"));
  if negb (is_subtitle_type trackType) then ret tt
  else
    do codec <- lift (getData (Some entry) (EbmlTagId "CodecID"));
    match js_or codec (JStr "") with
    | JStr codecID =>
        if startsWith codecID "S_TEXT" then
          do number <- lift (getData (Some entry) (EbmlTagId "TrackNumber"));
          do language <- lift (getData (Some entry) (EbmlTagId "Language"));
          do name <- lift (getData (Some entry) (EbmlTagId "Name"));
          do header <- lift (getData (Some entry) (EbmlTagId "CodecPrivate"));
          do header <- lift (if truthy header then
                               match header with
                               | JBytes bs => Ok (Some (arr2text bs))
                               | _ => Throw TypeError
                               end
                             else Ok None);
          do compressed <- lift (match Children entry with
                                 | None => Throw TypeError
                                 | Some children => find_r declares_compression children
                                 end);
          let track :=
            {| Track.number := number;
               Track.language := language;
               Track.type := toLowerCase (substring 7 codecID);
               Track.name := if truthy name then Some name else None;
               Track.header := header;
               Track._compressed := bool_decide (is_Some compressed) |} in
          modify (fun this =>
                    set_subtitleTracks (Map_set (subtitleTracks this) number track) this)
        else ret tt
    | _ => throw TypeError
    end.

Definition getTracks : M (list Track.t) :=
  do this <- get_this;
  match tracks this with
  | Some settled => lift settled
  | None =>
      do Tracks <- readSeekHeadTag "Tracks";
      match Tracks with
      | FTag t =>
          match Children t with
          | Some (c :: cs) =>
              do _ <- for_each track_entry
                        (List.filter (id_is (EbmlTagId "TrackEntry")) (c :: cs));
              do this <- get_this;
              ret (Map_values (subtitleTracks this))
          | _ => ret []
          end
      | _ => ret []
      end
  end.

Definition getDuration : M jsval :=
  do this <- get_this;
  match duration this with
  | Some settled => lift settled
  | None =>
      do Info <- readSeekHeadTag "Info";
      match Info with
      | FTag info =>
          match Children info with
          | Some (_ :: _) =>
              do Duration <- lift (getChild (Some info) (EbmlTagId "Duration"));
              ret (match Duration with
                   | Some d => data d
                   | None => JUndefined
                   end)
          | _ => ret JUndefined
          end
      | _ => ret JUndefined
      end
  end.

(** [c.Children.some(cc => cc.id === EbmlTagId.EditionFlagDefault && Boolean(cc.data))] *)
Definition is_default_edition (c : EbmlTag) : result bool :=
  match Children c with
  | None => Throw TypeError
  | Some ccs =>
      Ok (existsb (fun cc => id_is (EbmlTagId "EditionFlagDefault") cc && truthy (data cc)) ccs)
  end.

(** [c.id === EbmlTagId.ChapterAtom && !getData(c, EbmlTagId.ChapterFlagHidden)] *)
Definition is_visible_atom (c : EbmlTag) : result bool :=
  if id_is (EbmlTagId "ChapterAtom") c then
    match getData (Some c) (EbmlTagId "ChapterFlagHidden") with
    | Throw e => Throw e
    | Ok hidden => Ok (negb (truthy hidden))
    end
  else Ok false.

(** [x / timecodeScale / 1000000] *)
Definition scaled (x timecodeScale : jsval) : jsval :=
  js_div (js_div x timecodeScale) (JNum 1000000).

(** The loop [for (let i = atoms.length - 1; i >= 0; --i)]: the entries
    after [atom] are computed before the entry of [atom], and
    [chapters[i + 1]] is the first of them. *)
Fixpoint chapters_of (timecodeScale : jsval) (atoms : list EbmlTag) : M (list Chapter.t) :=
  match atoms with
  | [] => ret []
  | atom :: rest =>
      do chapters <- chapters_of timecodeScale rest;
      do startData <- lift (getData (Some atom) (EbmlTagId "ChapterTimeStart"));
      let start := scaled startData timecodeScale in
      do endData <- lift (getData (Some atom) (EbmlTagId "ChapterTimeEnd"));
      let declared := scaled endData timecodeScale in
      do end_ <-
        (if truthy declared then ret declared
         else
           let next :=
             match chapters with
             | successor :: _ => Chapter.start successor
             | [] => JUndefined
             end in
           if truthy next then ret next
           else
             do this <- get_this;
             do total <- await (duration this) JUndefined;
             ret (js_or total (JNum 0)));
      do disp <- lift (getChild (Some atom) (EbmlTagId "ChapterDisplay"));
      do text <- lift (getData disp (EbmlTagId "ChapString"));
      do language <- lift (getData disp (EbmlTagId "ChapLanguage"));
      ret ({| Chapter.start := start;
              Chapter.end_ := end_;
              Chapter.text := text;
              Chapter.language := language |} :: chapters)
  end.

(** [this.timecodeScale || ((await this.readUntilTag(...))?.data / 1000000)] *)
Definition chapterTimecodeScale : M jsval :=
  do this <- get_this;
  if truthy (timecodeScale this) then ret (timecodeScale this)
  else
    do s <- getFileStream JUndefined;
    do found <- lift (readUntilTag s (EbmlTagId "TimecodeScale") true);
    ret (js_div (match found with
                 | Some t => data t
                 | None => JUndefined
                 end) (JNum 1000000)).

(** [editions.find(c => c.Children.some(...)) || editions[0]]: the first
    default edition, or the first entry. *)
Definition defaultEdition (editions : list EbmlTag) : result (option EbmlTag) :=
  match find_r is_default_edition editions with
  | Throw e => Throw e
  | Ok (Some edition) => Ok (Some edition)
  | Ok None => Ok (List.head editions)
  end.

(** The atoms of the default edition that are not hidden. *)
Definition visibleAtoms (children : list EbmlTag) : result (list EbmlTag) :=
  let editions := List.filter (id_is (EbmlTagId "EditionEntry")) children in
  match defaultEdition editions with
  | Throw e => Throw e
  | Ok None => Throw TypeError
  | Ok (Some defaultEdition) =>
      match Children defaultEdition with
      | None => Throw TypeError
      | Some atoms => filter_r is_visible_atom atoms
      end
  end.

Definition getChapters : M (list Chapter.t) :=
  do Chapters <- readSeekHeadTag "Chapters";
  do timecodeScale <- chapterTimecodeScale;
  match Chapters with
  | FTag chapters =>
      match Children chapters with
      | Some (c :: cs) =>
          do atoms <- lift (visibleAtoms (c :: cs));
          chapters_of timecodeScale atoms
      | _ => ret []
      end
  | _ => ret []
  end.

(** *** The constructor *)

Definition settle {A} (c : M A) (store : result A -> Metadata -> Metadata)
    (this : Metadata) : Metadata :=
  let '(outcome, this') := c this in store outcome this'.

(** [new Metadata(file)]; [slice] is [!!file.slice]. *)
Definition construct (fuel : nat) (slice : bool) : Metadata :=
  let this := fresh slice in
  let this := settle getSegment set_segment this in
  let this := settle (getSeekHead fuel) set_seekHead this in
  let this := settle getDuration set_duration this in
  settle getTracks set_tracks this.

Definition destroy : M unit := modify (set_destroyed true).

(** *** [index.js]: [parseStream] *)

(** The variables of one run of the generator [parseStream]. *)
Record Frame : Type := {
  f_stable : bool;
  f_decoder : decoder;
  f_timecodeScale : jsval;
  f_currentClusterTimecode : jsval
}.

(** [tagMap[tag.id]?.(tag)].  In the object literal a later key replaces
    an equal earlier one, hence the order of the tests.  The promise
    returned by [handleBlockGroup] is dropped: a rejection reaches
    nobody, and the handler's continuations run in dispatch order with
    the two scale factors it was called with. *)
Definition tagMap (tag : EbmlTag) (st : Frame * Metadata) : Frame * Metadata :=
  let '(fr, this) := st in
  if id_is (EbmlTagId "BlockGroup") tag then
    (fr, snd (handleBlockGroup tag (f_timecodeScale fr) (f_currentClusterTimecode fr) this))
  else if id_is (EbmlTagId "Timecode") tag then
    ({| f_stable := f_stable fr; f_decoder := f_decoder fr;
        f_timecodeScale := f_timecodeScale fr;
        f_currentClusterTimecode := data tag |},
     set_currentClusterTimecode (data tag) this)
  else if id_is (EbmlTagId "TimecodeScale") tag then
    let scale := js_div (data tag) (JNum 1000000) in
    ({| f_stable := f_stable fr; f_decoder := f_decoder fr;
        f_timecodeScale := scale;
        f_currentClusterTimecode := f_currentClusterTimecode fr |},
     set_timecodeScale scale this)
  else (fr, this).

(** [for (const tag of decoder.parseTags(bytes)) tagMap[tag.id]?.(tag)] *)
Definition decodeAndDispatch (bytes : list byte) (st : Frame * Metadata)
  : result unit * (Frame * Metadata) :=
  let '(fr, this) := st in
  let '(tags, err, decoder') := parseTags (f_decoder fr) bytes in
  let fr' := {| f_stable := f_stable fr; f_decoder := decoder';
                f_timecodeScale := f_timecodeScale fr;
                f_currentClusterTimecode := f_currentClusterTimecode fr |} in
  (match err with
   | Some e => Throw e
   | None => Ok tt
   end,
   fold_left (fun st tag => tagMap tag st) tags (fr', this)).

(** [chunk[i] === 0x1f && chunk[i + 1] === 0x43 && chunk[i + 2] === 0xb6 &&
    chunk[i + 3] === 0x75] *)
Definition isClusterMarker (chunk : list byte) (i : nat) : bool :=
  byteAt chunk i x1f && byteAt chunk (i + 1) x43 &&
  byteAt chunk (i + 2) xb6 && byteAt chunk (i + 3) x75.

(** [8 - Math.floor(Math.log2(b))] for a byte; on [0] the logarithm is
    [-Infinity] and the length is [Infinity], for which [None] stands. *)
Definition sizeLength (b : byte) : option nat :=
  let n := Byte.to_N b in
  if (n =? 0)%N then None else Some (8 - N.to_nat (N.log2 n)).

(** [EbmlTagId[chunk[i + 4 + len]]] as a condition: an index that is not
    a position of the chunk reads [undefined], which names no element. *)
Definition firstTagIsValid (chunk : list byte) (i : nat) : bool :=
  match chunk !! (i + 4) with
  | None => false
  | Some b =>
      match sizeLength b with
      | None => false
      | Some len =>
          match chunk !! (i + 4 + len) with
          | None => false
          | Some c => bool_decide (is_Some (EbmlTagName (Z.of_N (Byte.to_N c))))
          end
      end
  end.

Definition set_f_stable (b : bool) (fr : Frame) : Frame :=
  {| f_stable := b; f_decoder := f_decoder fr;
     f_timecodeScale := f_timecodeScale fr;
     f_currentClusterTimecode := f_currentClusterTimecode fr |}.

(** The loop [for (let i = 0; i < chunk.length - 12; i++)] over the
    remaining positions [positions]. *)
Fixpoint scan (chunk : list byte) (positions : list nat) (st : Frame * Metadata)
  : result unit * (Frame * Metadata) :=
  match positions with
  | [] => (Ok tt, st)
  | i :: rest =>
      if isClusterMarker chunk i then
        if firstTagIsValid chunk i then
          match decodeAndDispatch (drop i chunk) (set_f_stable true (fst st), snd st) with
          | (Ok _, st') => scan chunk rest st'
          | (Throw e, st') => (Throw e, st')
          end
        else scan chunk rest st
      else scan chunk rest st
  end.

(** The body of [for await (const chunk of stream)] up to [yield]. *)
Definition parseChunk (chunk : list byte) (st : Frame * Metadata)
  : result unit * (Frame * Metadata) :=
  if negb (f_stable (fst st)) then scan chunk (seq 0 (length chunk - 12)) st
  else decodeAndDispatch chunk st.

(** The statements of [parseStream] before its loop. *)
Definition parseStream_enter (this : Metadata) : Frame * Metadata :=
  ({| f_stable := stable this;
      f_decoder := newDecoder [EbmlTagId "TimecodeScale"; EbmlTagId "BlockGroup";
                               EbmlTagId "Timecode"];
      f_timecodeScale := timecodeScale this;
      f_currentClusterTimecode := currentClusterTimecode this |},
   set_stable false this).

(** The loop of [parseStream] over the chunks of [stream].  The result
    lists the chunks yielded; [consumer] is what the caller does with the
    session between a [yield] and the next request. *)
Fixpoint parseStream_loop (consumer : list byte -> Metadata -> Metadata)
    (chunks : list (list byte)) (st : Frame * Metadata)
  : list (list byte) * result unit * (Frame * Metadata) :=
  match chunks with
  | [] => ([], Ok tt, st)
  | chunk :: rest =>
      match parseChunk chunk st with
      | (Throw e, st') => ([], Throw e, st')
      | (Ok _, (fr, this)) =>
          let this := consumer chunk this in
          if destroyed this then ([chunk], Ok tt, (fr, this))
          else
            let '(yielded, outcome, st'') := parseStream_loop consumer rest (fr, this) in
            (chunk :: yielded, outcome, st'')
      end
  end.

Definition parseStream (consumer : list byte -> Metadata -> Metadata)
    (chunks : list (list byte)) (this : Metadata)
  : list (list byte) * result unit * (Frame * Metadata) :=
  parseStream_loop consumer chunks (parseStream_enter this).

Definition parseFile (this : Metadata) : result unit * Metadata :=
  let this := set_stable true this in
  let '(s, this) := getFileStream JUndefined this in
  match s with
  | Throw e => (Throw e, this)
  | Ok s =>
      let '(_, outcome, (_, this')) :=
        parseStream (fun _ this => this) (stream_chunks s) this in
      (outcome, this')
  end.
End Program.

(** ** Views of the session used by the properties *)

(** The session without its read log: what the program itself can observe. *)
Definition forgetReads (this : Metadata) : Metadata := set_opened [] this.

(** The session without the read log, the element cache and the track
    registry: the part that fetching an element never changes. *)
Definition core (this : Metadata) : Metadata :=
  set_opened [] (set_tagCache ∅ (set_subtitleTracks [] this)).

(** The session without its event log. *)
Definition withoutEvents (this : Metadata) : Metadata := set_emitted [] this.

(** [c] leaves the view [view] of the session as it was. *)
Definition preserves {A} (view : Metadata -> Metadata) (c : M A) : Prop :=
  forall this, view (snd (c this)) = view this.

(** [c] and [d] cannot tell apart two sessions with the same [view]. *)
Definition respects {A} (view : Metadata -> Metadata) (c d : M A) : Prop :=
  forall a b, view a = view b ->
    fst (c a) = fst (d b) /\ view (snd (c a)) = view (snd (d b)).

(** ** A host to run the program on

    The element identities are those of the Matroska specification.  A
    stream is the list of tags its decoder yields; [file] gives the stream
    opened at an offset and [parse] the tags decoded from a run of bytes. *)

Definition matroskaIds : list (string * Z) :=
  [("Segment", 0x18538067); ("SeekHead", 0x114D9B74); ("Seek", 0x4DBB);
   ("SeekID", 0x53AB); ("SeekPosition", 0x53AC); ("Info", 0x1549A966);
   ("TimecodeScale", 0x2AD7B1); ("Duration", 0x4489); ("Cluster", 0x1F43B675);
   ("Timecode", 0xE7); ("BlockGroup", 0xA0); ("Block", 0xA1);
   ("BlockDuration", 0x9B); ("SimpleBlock", 0xA3); ("Tracks", 0x1654AE6B);
   ("TrackEntry", 0xAE); ("TrackNumber", 0xD7); ("TrackType", 0x83);
   ("CodecID", 0x86); ("CodecPrivate", 0x63A2); ("Language", 0x22B59C);
   ("Name", 0x536E); ("ContentEncodings", 0x6D80); ("ContentEncoding", 0x6240);
   ("ContentCompression", 0x5034); ("Chapters", 0x1043A770);
   ("EditionEntry", 0x45B9); ("EditionFlagDefault", 0x45DB); ("ChapterAtom", 0xB6);
   ("ChapterTimeStart", 0x91); ("ChapterTimeEnd", 0x92); ("ChapterFlagHidden", 0x98);
   ("ChapterDisplay", 0x80); ("ChapString", 0x85); ("ChapLanguage", 0x437C);
   ("Attachments", 0x1941A469); ("AttachedFile", 0x61A7); ("FileName", 0x466E);
   ("FileMimeType", 0x4660); ("FileData", 0x465C)]%Z.

Definition idOfName (n : string) : option Z :=
  option_map snd (List.find (fun e => String.eqb (fst e) n) matroskaIds).

Definition nameOfId (i : Z) : option string :=
  option_map fst (List.find (fun e => Z.eqb (snd e) i) matroskaIds).

(** Big-endian value of a run of bytes. *)
Definition unsignedOf (v : jsval) : Z :=
  match v with
  | JBytes bs => fold_left (fun acc b => (acc * 256 + Z.of_N (Byte.to_N b))%Z) bs 0%Z
  | _ => 0%Z
  end.

Definition testHost (file : jsval -> list EbmlTag) (parse : list byte -> list EbmlTag) : Host :=
  {| EbmlTagId := idOfName;
     EbmlTagName := nameOfId;
     stream := list EbmlTag;
     file_slice_stream := file;
     file_asyncIterator := file;
     stream_chunks := fun _ => [];
     decode := fun _ s => (s, None);
     decoder := unit;
     newDecoder := fun _ => tt;
     parseTags := fun d bytes => (parse bytes, None, d);
     Tools_readUnsigned := unsignedOf;
     inflateSync := fun bs => Ok bs;
     arr2text := String.string_of_list_byte;
     StringToNumber := fun _ => PrimFloat.nan;
     NumberToString := fun _ => "0";
     Uint8Array_toString := fun _ => "";
     EbmlTag_toPrimitive := fun _ => JStr "[object Object]" |}.

(** Tags for the examples: a value tag and a master tag. *)
Definition leaf (i : Z) (d : jsval) : EbmlTag :=
  Tag i (Some (ET_Other 0)) d None JUndefined JUndefined [] JUndefined JUndefined.

Definition master (i : Z) (children : list EbmlTag) : EbmlTag :=
  Tag i (Some (ET_Other 1)) JUndefined (Some children) JUndefined JUndefined []
      JUndefined JUndefined.

(** A Block of track [n] at relative time [t] carrying [text]. *)
Definition blockTag (n t : float) (text : string) : EbmlTag :=
  Tag 0xA1 (Some (ET_Other 0)) JUndefined None (JNum n) (JNum t)
      (String.list_byte_of_string text) JUndefined JUndefined.

Definition textTrack (n : float) (type : string) : Track.t :=
  {| Track.number := JNum n; Track.language := JUndefined; Track.type := type;
     Track.name := None; Track.header := None; Track._compressed := false |}.

Definition quietHost : Host := testHost (fun _ => []) (fun _ => []).

(** A session whose registry holds the single track [trk]. *)
Definition sessionWith (trk : Track.t) : Metadata :=
  set_tracks (Ok [trk]) (set_subtitleTracks [(Track.number trk, trk)] (fresh true)).

(** A BlockGroup: a Block of track [n] at relative time [t] with [text],
    and a BlockDuration [d]. *)
Definition blockGroup (n t d : float) (text : string) : EbmlTag :=
  master 0xA0 [blockTag n t text; leaf 0x9B (JNum d)].

(** What [handleBlockGroup] emits for [text] on a track of subtype [type],
    with [timecodeScale = 1] and [currentClusterTimecode = 1000]. *)
Definition emittedFor (type text : string) : list (gmap string jsval * jsval) :=
  emitted (snd (@handleBlockGroup quietHost (blockGroup 3 50 40 text) (JNum 1) (JNum 1000)
                                  (sessionWith (textTrack 3 type)))).

(** The event object for the same block. *)
Definition eventFor (type text : string) : gmap string jsval :=
  @subtitleObject quietHost (textTrack 3 type) (blockTag 3 50 text)
                  (String.list_byte_of_string text) (JNum 40) (JNum 1) (JNum 1000).

Definition dialogue : string := "0,1,Default,,0,0,0,,Hello, world".

(** ** Containers for the index examples *)

Definition bytesOfId (i : Z) : jsval :=
  JBytes (map (fun k => default x00 (Byte.of_N (Z.to_N ((i / 256 ^ k) mod 256))))
              [3%Z; 2%Z; 1%Z; 0%Z]).

(** A Seek entry for the element [i] at position [pos]. *)
Definition seekEntry (i : Z) (pos : float) : EbmlTag :=
  master 0x4DBB [leaf 0x53AB (bytesOfId i); leaf 0x53AC (JNum pos)].

(** Two chained indexes: the first lists Tracks at 100 and a second index;
    the second lists Tracks at 999 and Chapters at 500. *)
Definition firstIndex : EbmlTag :=
  master 0x114D9B74 [seekEntry 0x1654AE6B 100; seekEntry 0x114D9B74 4000].

Definition secondIndex : EbmlTag :=
  master 0x114D9B74 [seekEntry 0x1654AE6B 999; seekEntry 0x1043A770 500].

(** The two indexes as [readSeekHead] transforms them. *)
Definition firstHead : gmap string (option EbmlTag) :=
  <[ "SeekHead" := Some (leaf 0x53AC (JNum 4000)) ]>
  (<[ "Tracks" := Some (leaf 0x53AC (JNum 100)) ]> ∅).

Definition secondHead : gmap string (option EbmlTag) :=
  <[ "Chapters" := Some (leaf 0x53AC (JNum 500)) ]>
  (<[ "Tracks" := Some (leaf 0x53AC (JNum 999)) ]> ∅).

(** ** Containers for the fetch examples *)

(** A Tracks element with one ASS subtitle track, number 3. *)
Definition tracksElement : EbmlTag :=
  master 0x1654AE6B
    [master 0xAE [leaf 0xD7 (JNum 3); leaf 0x83 (JNum 17); leaf 0x86 (JStr "S_TEXT/ASS")]].

(** A file without a Segment element: an index that lists Tracks, then the
    Tracks element. *)
Definition headlessFile (start : jsval) : list EbmlTag :=
  [master 0x114D9B74 [seekEntry 0x1654AE6B 100]; tracksElement].

Definition headlessHost : Host := testHost headlessFile (fun _ => []).

(** Two Tracks elements, told apart by their only child, and a Chapters
    element: from the top the stream meets [earlyTracks] and the chapters;
    from offset 150 it meets [lateTracks]. *)
Definition earlyTracks : EbmlTag := master 0x1654AE6B [leaf 0xD7 (JNum 1)].
Definition lateTracks : EbmlTag := master 0x1654AE6B [leaf 0xD7 (JNum 2)].
Definition chaptersElement : EbmlTag := master 0x1043A770 [].

Definition seekFile (start : jsval) : list EbmlTag :=
  match start with
  | JUndefined => [earlyTracks; chaptersElement]
  | JNum x => if PrimFloat.eqb x 150 then [lateTracks] else []
  | _ => []
  end.

Definition seekHost : Host := testHost seekFile (fun _ => []).

(** A session whose segment body starts at 50 and whose index lists
    Tracks at 100 and nothing else. *)
Definition indexedSession : Metadata :=
  set_segmentStart (JNum 50)
    (set_seekHead (Ok (Some (<[ "Tracks" := Some (leaf 0x53AC (JNum 100)) ]> ∅)))
       (fresh true)).

(** A file that yields no element at all, and a session whose index lists
    Attachments all the same. *)
Definition emptyHost : Host := testHost (fun _ => []) (fun _ => []).

Definition danglingSession : Metadata :=
  set_tracks (Ok [])
    (set_duration (Ok JUndefined)
       (set_seekHead (Ok (Some (<[ "Attachments" := Some (leaf 0x53AC (JNum 100)) ]> ∅)))
          (fresh true))).

(** ** Chapter entries, as the specification words them *)

(** The value of the child [child] of [atom], [undefined] without one. *)
Definition dataOf {H : Host} (atom : EbmlTag) (child : string) : jsval :=
  match getData (Some atom) (EbmlTagId child) with
  | Ok d => d
  | Throw _ => JUndefined
  end.

(** The end of an entry without a declared end: the start of the entry
    that follows when that start is a number other than zero, else the
    total duration, else 0. *)
Definition fallbackEnd (next : option Chapter.t) (total : jsval) : jsval :=
  match next with
  | Some successor =>
      if truthy (Chapter.start successor) then Chapter.start successor
      else js_or total (JNum 0)
  | None => js_or total (JNum 0)
  end.

(** The entries of the visible atoms [atoms], in declaration order. *)
Fixpoint chapterEntries {H : Host} (scale total : jsval) (atoms : list EbmlTag)
  : list Chapter.t :=
  match atoms with
  | [] => []
  | atom :: rest =>
      let later := chapterEntries scale total rest in
      let declared := scaled (dataOf atom "ChapterTimeEnd") scale in
      let display :=
        match getChild (Some atom) (EbmlTagId "ChapterDisplay") with
        | Ok (Some disp) => Some disp
        | _ => None
        end in
      {| Chapter.start := scaled (dataOf atom "ChapterTimeStart") scale;
         Chapter.end_ := if truthy declared then declared
                         else fallbackEnd (List.head later) total;
         Chapter.text :=
           match display with
           | Some disp => dataOf disp "ChapString"
           | None => JUndefined
           end;
         Chapter.language :=
           match display with
           | Some disp => dataOf disp "ChapLanguage"
           | None => JUndefined
           end |} :: later
  end.

(** An atom the loop can read: a master element whose display, if any, is
    a master element too. *)
Definition atomReadable {H : Host} (atom : EbmlTag) : Prop :=
  is_Some (Children atom) /\
  forall disp, getChild (Some atom) (EbmlTagId "ChapterDisplay") = Ok (Some disp) ->
               is_Some (Children disp).

(** [await this.duration] settles to [total]. *)
Definition durationIs (this : Metadata) (total : jsval) : Prop :=
  duration this = Some (Ok total) \/ (duration this = None /\ total = JUndefined).

(** Numbers in ascending order; an entry that is not a number is out of
    order with everything. *)
Definition inOrder (a b : jsval) : Prop :=
  match a, b with
  | JNum x, JNum y => PrimFloat.leb x y = true
  | _, _ => False
  end.

Definition ascending (l : list jsval) : Prop :=
  forall (i j : nat) (a b : jsval), i < j -> l !! i = Some a -> l !! j = Some b -> inOrder a b.

(** ** Containers for the chapter examples *)

(** A chapter atom that declares only its start, in nanoseconds. *)
Definition chapterAtom (start : float) : EbmlTag := master 0xB6 [leaf 0x91 (JNum start)].

(** A Chapters element with one edition holding an atom per start. *)
Definition chaptersWith (starts : list float) : EbmlTag :=
  master 0x1043A770 [master 0x45B9 (map chapterAtom starts)].

Definition chapterHost (starts : list float) : Host :=
  testHost (fun _ => [chaptersWith starts]) (fun _ => []).

(** A session whose index lists Chapters and whose duration is 30. *)
Definition chapterSession : Metadata :=
  set_tracks (Ok [])
    (set_duration (Ok (JNum 30))
       (set_seekHead (Ok (Some (<[ "Chapters" := Some (leaf 0x53AC (JNum 100)) ]> ∅)))
          (fresh true))).

(** The three containers of the chapter examples: starts 0, 10, 20; starts
    10, 0; starts 20, 10 (in nanoseconds, with the default scale). *)
Definition threeChapters : Host := chapterHost [0; 10000000; 20000000]%float.
Definition zeroSecond : Host := chapterHost [10000000; 0]%float.
Definition unordered : Host := chapterHost [20000000; 10000000]%float.

Definition entry (start end_ : float) : Chapter.t :=
  {| Chapter.start := JNum start; Chapter.end_ := JNum end_;
     Chapter.text := JUndefined; Chapter.language := JUndefined |}.

(** ** Containers for the edition and streaming examples *)

(** An edition entry, with a default flag when [flag] gives its value. *)
Definition edition (flag : option float) (starts : list float) : EbmlTag :=
  master 0x45B9
    (match flag with
     | Some f => [leaf 0x45DB (JNum f)]
     | None => []
     end ++ map chapterAtom starts).

(** Three editions of which the second is flagged default, and three of
    which none is: a flag of 0 does not count. *)
Definition secondFlagged : list EbmlTag :=
  [edition None [0%float]; edition (Some 1%float) [10%float]; edition None [20%float]].

Definition noneFlagged : list EbmlTag :=
  [edition None [0%float]; edition (Some 0%float) [10%float]; edition None [20%float]].

(** A host whose decoder yields, for any run of bytes, a cluster timecode
    of 1000 and then the block group of the timing example. *)
Definition clusterHost : Host :=
  testHost (fun _ => []) (fun _ => [leaf 0xE7 (JNum 1000); blockGroup 3 50 40 "Hello"]).

(** A consumer that destroys the session at the first chunk it is given. *)
Definition destroyAtOnce (chunk : list byte) (this : Metadata) : Metadata :=
  set_destroyed true this.

(** ** The resynchronisation check, as the specification words it *)

(** The four-byte marker of a cluster starts at position [i]. *)
Definition markerAt (chunk : list byte) (i : nat) : Prop :=
  chunk !! i = Some x1f /\ chunk !! (i + 1) = Some x43 /\
  chunk !! (i + 2) = Some xb6 /\ chunk !! (i + 3) = Some x75.

(** The double check: the marker, then a size field whose length [len] is
    read off the byte after the marker, then a byte that is the identity
    code of an element. *)
Definition trustedAt {H : Host} (chunk : list byte) (i : nat) : Prop :=
  markerAt chunk i /\
  exists (b c : byte) (len : nat),
    chunk !! (i + 4) = Some b /\ sizeLength b = Some len /\
    chunk !! (i + 4 + len) = Some c /\
    is_Some (EbmlTagName (Z.of_N (Byte.to_N c))).

(** Sixteen bytes with a cluster at position 2: the marker, a one-byte
    size field and the identity of a cluster timecode. *)
Definition clusterAt2 : list byte :=
  [x00; x00; x1f; x43; xb6; x75; x81; xe7; x81; x00; x00; x00; x00; x00; x00; x00].

(** Sixteen bytes with the same cluster at position 4, the first of the
    last twelve. *)
Definition clusterAt4 : list byte :=
  [x00; x00; x00; x00; x1f; x43; xb6; x75; x81; xe7; x81; x00; x00; x00; x00; x00].

(** Sixteen bytes in which the marker at position 1 is followed by a
    one-byte size field and a byte that names no element. *)
Definition markerInPayload : list byte :=
  [x00; x1f; x43; xb6; x75; x81; x00; x00; x00; x00; x00; x00; x00; x00; x00; x00].

(** A frame in the unstable state. *)
Definition unstableFrame : @Frame quietHost :=
  @Build_Frame quietHost false tt (JNum 1) JNull.

(** ** Notions used by the further properties *)

(** Every tag of the tree rooted at [tag], the root first. *)
Fixpoint subtree (tag : EbmlTag) : list EbmlTag :=
  tag :: match Children tag with
         | Some children => flat_map subtree children
         | None => []
         end.

(** [tag.type === EbmlElementType.String || tag.type === EbmlElementType.UTF8
    || tag.type == null], the test of [processTags]. *)
Definition isTextual (tag : EbmlTag) : bool :=
  match type tag with
  | Some ET_String | Some ET_UTF8 | None => true
  | Some (ET_Other _) => false
  end.

(** What one iteration of the loop over [seekHead.Children] files in the
    transformed index: the name read off the SeekID and the SeekPosition
    child; a child that is not a Seek entry files nothing. *)
Definition filedAs {H : Host} (child : EbmlTag) : option (string * option EbmlTag) :=
  if id_is (EbmlTagId "Seek") child then
    match getChild (Some child) (EbmlTagId "SeekID"),
          getChild (Some child) (EbmlTagId "SeekPosition") with
    | Ok (Some seekID), Ok position =>
        Some (from_option (fun n => n) "undefined"
                          (EbmlTagName (Tools_readUnsigned (data seekID))),
              position)
    | _, _ => None
    end
  else None.

(** The entry that the last child filing under [name] files, if any does. *)
Definition lastFiled {H : Host} (name : string) (children : list EbmlTag)
  : option (option EbmlTag) :=
  snd <$> last (List.filter (fun e => String.eqb (fst e) name) (omap filedAs children)).

(** [new Metadata(file)] followed at once by [destroy()]: none of the four
    fetches started by the constructor has resumed when the flag is set. *)
Definition constructThenDestroy {H : Host} (fuel : nat) (slice : bool) : Metadata :=
  let this := set_destroyed true (fresh slice) in
  let this := settle getSegment set_segment this in
  let this := settle (getSeekHead fuel) set_seekHead this in
  let this := settle getDuration set_duration this in
  settle getTracks set_tracks this.

(** A number as [===] sees it: the two zeros are one value. *)
Definition canon (f : spec_float) : spec_float :=
  match f with
  | S754_zero _ => S754_zero false
  | _ => f
  end.

(** The key [k] stands for the number [n] of a track: it is that very
    value, or a value that a [Map] takes for the same key. *)
Definition sameKey (k n : jsval) : Prop := k = n \/ sameValueZero k n = true.

(** The registry as [getTracks] leaves it: every track sits under a key
    that stands for its number, and no key comes twice. *)
Fixpoint registryOk (m : list (jsval * Track.t)) : Prop :=
  match m with
  | [] => True
  | (k, t) :: m' =>
      sameKey k (Track.number t) /\
      Forall (fun e => sameValueZero k (fst e) = false) m' /\
      registryOk m'
  end.

(** The attachment that [getAttachments] makes of the child [chunk]. *)
Definition attachmentOf {H : Host} (chunk : EbmlTag) : Attachment.t :=
  {| Attachment.filename := dataOf chunk "FileName";
     Attachment.mimetype := dataOf chunk "FileMimeType";
     Attachment.data_ := dataOf chunk "FileData" |}.

(** [t] is a descriptor that the loop of [getTracks] registers for the
    child [entry] of the Tracks element: the entry is a TrackEntry of type
    0x11 whose codec identifier starts with [S_TEXT], and [t] carries its
    number, its language and the lower-cased rest of the identifier. *)
Definition describes {H : Host} (entry : EbmlTag) (t : Track.t) : Prop :=
  exists (trackType : jsval) (codecID : string),
    id_is (EbmlTagId "TrackEntry") entry = true /\
    getData (Some entry) (EbmlTagId "TrackType") = Ok trackType /\
    is_subtitle_type trackType = true /\
    getData (Some entry) (EbmlTagId "CodecID") = Ok (JStr codecID) /\
    startsWith codecID "S_TEXT" = true /\
    Track.type t = toLowerCase (substring 7 codecID) /\
    getData (Some entry) (EbmlTagId "TrackNumber") = Ok (Track.number t) /\
    getData (Some entry) (EbmlTagId "Language") = Ok (Track.language t).

(** The character [sep] does not occur in [s]. *)
Fixpoint freeOf (sep : ascii) (s : string) : bool :=
  match s with
  | EmptyString => true
  | String c s' => negb (Ascii.eqb c sep) && freeOf sep s'
  end.

(** The keys that the loop over [SSA_KEYS] assigns for a track of subtype
    [type]: none outside the scriptable-subtitle family, positions 2 to 7
    for [ssa], positions 1 to 7 otherwise. *)
Definition ssaKeysOf (type : string) : list string :=
  if bool_decide (type ∈ SSA_TYPES) then
    drop (if String.eqb type "ssa" then 2 else 1) (take 8 SSA_KEYS)
  else [].

(** A session on which no block can find its track: the registry is empty,
    or the promise [tracks] is rejected. *)
Definition trackless (this : Metadata) : Prop :=
  subtitleTracks this = [] \/ exists e, tracks this = Some (Throw e).

(** ** Containers for the further examples *)

(** A language element without a declared type. *)
Definition untypedLanguage : EbmlTag :=
  Tag 0x22B59C None (JStr "eng") None JUndefined JUndefined [] JUndefined JUndefined.

(** An index that lists Tracks twice, with a child between the two entries
    that is not a Seek entry. *)
Definition repeatedIndex : list EbmlTag :=
  [seekEntry 0x1654AE6B 100; leaf 0xBF (JBytes [x00]); seekEntry 0x1654AE6B 999].

Definition repeatedHead : gmap string (option EbmlTag) :=
  <[ "Tracks" := Some (leaf 0x53AC (JNum 999)) ]>
  (<[ "Tracks" := Some (leaf 0x53AC (JNum 100)) ]> ∅).

(** An index whose second Seek entry has no SeekID. *)
Definition malformedIndex : list EbmlTag :=
  [seekEntry 0x1654AE6B 100; master 0x4DBB [leaf 0x53AC (JNum 5)]].

(** A file object that rewinds: whatever start it is asked for, its stream
    begins with the index [firstIndex], which refers to a further index. *)
Definition rewindingHost : Host := testHost (fun _ => [firstIndex]) (fun _ => []).

(** A Segment element that starts at byte 40 with a header of 12 bytes,
    and a file that holds it, an index and a Tracks element. *)
Definition segmentElement : EbmlTag :=
  Tag 0x18538067 (Some (ET_Other 1)) JUndefined (Some []) JUndefined JUndefined []
      (JNum 40) (JNum 12).

Definition segmentHost : Host :=
  testHost (fun _ => [segmentElement; master 0x114D9B74 [seekEntry 0x1654AE6B 100];
                      tracksElement])
           (fun _ => []).

(** The byte at which [Blob.prototype.slice] starts for the argument
    [start]: a number stands for itself; a missing argument stands for 0,
    and so does any value that converts to NaN, as the strings built from
    ["[object Object]"] do (the examples pass no other string). *)
Definition sliceStart (start : jsval) : float :=
  match start with
  | JNum x => if PrimFloat.is_nan x then 0%float else x
  | JBool true => 1%float
  | _ => 0%float
  end.

(** A Blob with two chained indexes: the Segment element, whose data start
    at byte 52, then [firstIndex], which gives the position 4000 for a
    second index, and [secondIndex] at byte 52 + 4000.  Only the streams
    from the first byte and from the second index are given; from any
    other byte the example yields no element. *)
Definition chainedBlob (start : jsval) : list EbmlTag :=
  if (sliceStart start =? 0)%float then [segmentElement; firstIndex; secondIndex]
  else if (sliceStart start =? 4052)%float then [secondIndex]
  else [].

Definition blobHost : Host := testHost chainedBlob (fun _ => []).

(** An Attachments element: a font, and a second child that has none of
    the three fields. *)
Definition attachmentsElement : EbmlTag :=
  master 0x1941A469
    [master 0x61A7 [leaf 0x466E (JStr "a.ttf"); leaf 0x4660 (JStr "font/ttf");
                    leaf 0x465C (JBytes [x01])];
     master 0xEC []].

Definition attachmentHost : Host := testHost (fun _ => [attachmentsElement]) (fun _ => []).

Definition attachmentSession : Metadata :=
  set_tracks (Ok [])
    (set_duration (Ok JUndefined)
       (set_seekHead (Ok (Some (<[ "Attachments" := Some (leaf 0x53AC (JNum 100)) ]> ∅)))
          (fresh true))).

(** A session of [headlessHost] whose index is resolved and whose tracks
    have not been asked for. *)
Definition unreadSession : Metadata :=
  set_seekHead (Ok (Some (<[ "Tracks" := Some (leaf 0x53AC (JNum 100)) ]> ∅))) (fresh true).

(** A Chapters element whose only child is not an edition. *)
Definition editionlessHost : Host :=
  testHost (fun _ => [master 0x1043A770 [master 0xEC []]]) (fun _ => []).

(** Twenty-nine bytes with a cluster at position 0 and another at
    position 8, both before the last twelve bytes. *)
Definition twoClusters : list byte :=
  [x1f; x43; xb6; x75; x81; xe7; x81; x00;
   x1f; x43; xb6; x75; x81; xe7; x81; x00;
   x00; x00; x00; x00; x00; x00; x00; x00; x00; x00; x00; x00; x00].

(** An Info element that declares a duration of 90000, and a file that
    holds an index listing it. *)
Definition infoElement : EbmlTag :=
  master 0x1549A966 [leaf 0x2AD7B1 (JNum 1000000); leaf 0x4489 (JNum 90000)].

Definition infoHost : Host :=
  testHost (fun _ => [master 0x114D9B74 [seekEntry 0x1549A966 60]; infoElement])
           (fun _ => []).

(** A file that holds a TimecodeScale of 2000000 and a Chapters element
    with one atom starting at 10000000, and a session of it whose scale
    has been set to 0. *)
Definition rescaledHost : Host :=
  testHost (fun _ => [leaf 0x2AD7B1 (JNum 2000000); chaptersWith [10000000%float]])
           (fun _ => []).

Definition unscaledSession : Metadata := set_timecodeScale (JNum 0) chapterSession.

(** * Properties *)

(** ** Block extraction *)

Section BlockGroup.
Context {H : Host}.

Lemma ssa_assign_other (values : list string) (positions : list nat) (k : string) :
  Forall (fun i => i < 9) positions ->
  k ∉ SSA_KEYS ->
  forall subtitle : gmap string jsval,
    fold_left (ssa_assign values) positions subtitle !! k = subtitle !! k.
Proof.
  intros Hlt Hk. induction Hlt as [|i positions Hi _ IH]; intros subtitle; [reflexivity|].
  simpl. rewrite IH. unfold ssa_assign.
  apply lookup_insert_ne. intros <-. apply Hk.
  destruct (SSA_KEYS !! i) as [key|] eqn:E.
  - simpl. apply list_elem_of_lookup. eauto.
  - apply lookup_ge_None in E. simpl in E. lia.
Qed.

Lemma ssa_fields_other (start : nat) (values : list string) (k : string)
    (subtitle : gmap string jsval) :
  k ∉ SSA_KEYS ->
  ssa_fields start values subtitle !! k = subtitle !! k.
Proof.
  intros Hk. unfold ssa_fields. apply ssa_assign_other; [|exact Hk].
  apply Forall_forall. intros i Hi. apply list_elem_of_In, in_seq in Hi. lia.
Qed.

Lemma time_not_ssa_key : "time" ∉ SSA_KEYS.
Proof.
  unfold SSA_KEYS.
  repeat (apply not_elem_of_cons; split; [discriminate|]). apply not_elem_of_nil.
Qed.

Lemma duration_not_ssa_key : "duration" ∉ SSA_KEYS.
Proof.
  unfold SSA_KEYS.
  repeat (apply not_elem_of_cons; split; [discriminate|]). apply not_elem_of_nil.
Qed.

(** The object emitted keeps the [time] and [duration] of the literal. *)
Lemma subtitleObject_time trk block payload blockDuration timecodeScale cct :
  subtitleObject trk block payload blockDuration timecodeScale cct !! "time"
  = Some (js_mul (js_add (value block) cct) timecodeScale).
Proof.
  unfold subtitleObject. case_bool_decide.
  - rewrite lookup_insert_ne by discriminate.
    rewrite ssa_fields_other by apply time_not_ssa_key.
    by simplify_map_eq.
  - by simplify_map_eq.
Qed.

Lemma subtitleObject_duration trk block payload blockDuration timecodeScale cct :
  subtitleObject trk block payload blockDuration timecodeScale cct !! "duration"
  = Some (js_mul blockDuration timecodeScale).
Proof.
  unfold subtitleObject. case_bool_decide.
  - rewrite lookup_insert_ne by discriminate.
    rewrite ssa_fields_other by apply duration_not_ssa_key.
    by simplify_map_eq.
  - by simplify_map_eq.
Qed.

(** A block of a registered track whose payload is readable emits exactly
    one event, tagged with the track number of the block. *)
Lemma handleBlockGroup_emits (this : Metadata) (chunk block : EbmlTag) (trk : Track.t)
    (settled : list Track.t) (blockDuration scale cct : jsval) (bytes : list byte) :
  tracks this = Some (Ok settled) ->
  getChild (Some chunk) (EbmlTagId "Block") = Ok (Some block) ->
  getData (Some chunk) (EbmlTagId "BlockDuration") = Ok blockDuration ->
  Map_get (subtitleTracks this) (track block) = Some trk ->
  (if Track._compressed trk then inflateSync (payload block) else Ok (payload block))
    = Ok bytes ->
  handleBlockGroup chunk scale cct this
  = (Ok tt,
     set_emitted
       (emitted this ++ [(subtitleObject trk block bytes blockDuration scale cct, track block)])
       this).
Proof.
  intros Htracks Hblock Hdur Htrk Hpayload.
  unfold handleBlockGroup, bind, get_this, await, lift.
  rewrite Htracks, Hblock. unfold Map_has. rewrite Htrk, Hdur, Hpayload.
  reflexivity.
Qed.

(** C1: a block group of a registered subtitle track emits an event whose
    [time] is [(block.value + currentClusterTimecode) * timecodeScale] and
    whose [duration] is [blockDuration * timecodeScale]; with scale 1,
    cluster timecode 1000, relative time 50 and duration 40 these are 1050
    and 40. *)
Theorem handleBlockGroup_timing (this : Metadata) (chunk block : EbmlTag) (trk : Track.t)
    (settled : list Track.t) (blockDuration scale clusterTimecode : jsval)
    (bytes : list byte) :
  tracks this = Some (Ok settled) ->
  getChild (Some chunk) (EbmlTagId "Block") = Ok (Some block) ->
  getData (Some chunk) (EbmlTagId "BlockDuration") = Ok blockDuration ->
  Map_get (subtitleTracks this) (track block) = Some trk ->
  (if Track._compressed trk then inflateSync (payload block) else Ok (payload block))
    = Ok bytes ->
  exists subtitle : gmap string jsval,
    handleBlockGroup chunk scale clusterTimecode this
    = (Ok tt, set_emitted (emitted this ++ [(subtitle, track block)]) this) /\
    subtitle !! "time" = Some (js_mul (js_add (value block) clusterTimecode) scale) /\
    subtitle !! "duration" = Some (js_mul blockDuration scale) /\
    (scale = JNum 1 -> clusterTimecode = JNum 1000 ->
     value block = JNum 50 -> blockDuration = JNum 40 ->
     subtitle !! "time" = Some (JNum 1050) /\ subtitle !! "duration" = Some (JNum 40)).
Proof.
  intros Htracks Hblock Hdur Htrk Hpayload.
  exists (subtitleObject trk block bytes blockDuration scale clusterTimecode).
  split; [by eapply handleBlockGroup_emits|].
  split; [apply subtitleObject_time|].
  split; [apply subtitleObject_duration|].
  intros -> -> Hvalue ->.
  rewrite subtitleObject_time, subtitleObject_duration, Hvalue.
  split; reflexivity.
Qed.

(** The earlier revision computes the same two products from the fields of
    the session. *)
Lemma handleBlockGroup_fields_timing (this : Metadata) (chunk block : EbmlTag)
    (trk : Track.t) (settled : list Track.t) (blockDuration : jsval) (bytes : list byte) :
  tracks this = Some (Ok settled) ->
  getChild (Some chunk) (EbmlTagId "Block") = Ok (Some block) ->
  getData (Some chunk) (EbmlTagId "BlockDuration") = Ok blockDuration ->
  Map_get (subtitleTracks this) (track block) = Some trk ->
  (if Track._compressed trk then inflateSync (payload block) else Ok (payload block))
    = Ok bytes ->
  exists subtitle : gmap string jsval,
    handleBlockGroup_fields chunk this
    = (Ok tt, set_emitted (emitted this ++ [(subtitle, track block)]) this) /\
    subtitle !! "time"
    = Some (js_mul (js_add (value block) (currentClusterTimecode this)) (timecodeScale this)) /\
    subtitle !! "duration" = Some (js_mul blockDuration (timecodeScale this)).
Proof.
  intros Htracks Hblock Hdur Htrk Hpayload. unfold handleBlockGroup_fields.
  eexists. split; [by eapply handleBlockGroup_emits|].
  split; [apply subtitleObject_time | apply subtitleObject_duration].
Qed.
End BlockGroup.

Lemma handleBlockGroup_timing_example :
  exists subtitle : gmap string jsval,
    @handleBlockGroup quietHost (blockGroup 3 50 40 "Hello") (JNum 1) (JNum 1000)
                      (sessionWith (textTrack 3 "utf8"))
    = (Ok tt, set_emitted [(subtitle, JNum 3)] (sessionWith (textTrack 3 "utf8"))) /\
    subtitle !! "time" = Some (JNum 1050) /\
    subtitle !! "duration" = Some (JNum 40).
Proof.
  destruct (@handleBlockGroup_timing quietHost (sessionWith (textTrack 3 "utf8"))
              (blockGroup 3 50 40 "Hello") (blockTag 3 50 "Hello") (textTrack 3 "utf8")
              [textTrack 3 "utf8"] (JNum 40) (JNum 1) (JNum 1000)
              (String.list_byte_of_string "Hello")
              eq_refl eq_refl eq_refl eq_refl eq_refl)
    as (subtitle & Hrun & _ & _ & Hexample).
  exists subtitle. split; [exact Hrun|]. apply Hexample; reflexivity.
Defined.

(** ** Fields of the scriptable-subtitle family *)

Section Ssa.
Context {H : Host}.

(** The loop assigns to the key at position [i] the field at position [i]. *)
Lemma ssa_fields_lookup (first : nat) (values : list string) (subtitle : gmap string jsval)
    (i : nat) (key : string) :
  first = 1 \/ first = 2 ->
  first <= i < 8 ->
  SSA_KEYS !! i = Some key ->
  ssa_fields first values subtitle !! key = Some (from_option JStr JUndefined (values !! i)).
Proof.
  intros Hfirst [Hlo Hhi] Hkey.
  assert (Hi : i = 1 \/ i = 2 \/ i = 3 \/ i = 4 \/ i = 5 \/ i = 6 \/ i = 7) by lia.
  destruct Hi as [-> | [-> | [-> | [-> | [-> | [-> | ->]]]]]];
    simpl in Hkey; injection Hkey as <-;
    destruct Hfirst as [-> | ->]; try lia;
    unfold ssa_fields, ssa_assign; simpl;
    repeat (rewrite lookup_insert_ne by discriminate);
    apply lookup_insert_eq.
Qed.

Lemma readOrder_not_assigned (first : nat) (values : list string)
    (subtitle : gmap string jsval) :
  1 <= first ->
  ssa_fields first values subtitle !! "readOrder" = subtitle !! "readOrder".
Proof.
  intros Hfirst. unfold ssa_fields.
  assert (Hin : Forall (fun i => 1 <= i < 8) (seq first (8 - first))).
  { apply Forall_forall. intros i Hi. apply list_elem_of_In, in_seq in Hi. lia. }
  revert subtitle. induction Hin as [|i rest Hi _ IH]; intros subtitle; [reflexivity|].
  simpl. rewrite IH. unfold ssa_assign. apply lookup_insert_ne.
  assert (Hcases : i = 1 \/ i = 2 \/ i = 3 \/ i = 4 \/ i = 5 \/ i = 6 \/ i = 7) by lia.
  destruct Hcases as [-> | [-> | [-> | [-> | [-> | [-> | ->]]]]]]; simpl; discriminate.
Qed.

Lemma layer_not_assigned (values : list string) (subtitle : gmap string jsval) :
  ssa_fields 2 values subtitle !! "layer" = subtitle !! "layer".
Proof.
  unfold ssa_fields, ssa_assign. simpl.
  repeat (rewrite lookup_insert_ne by discriminate). reflexivity.
Qed.

Lemma SSA_KEYS_text (i : nat) : i < 8 -> SSA_KEYS !! i <> Some "text".
Proof.
  intros Hi.
  assert (Hcases : i = 0 \/ i = 1 \/ i = 2 \/ i = 3 \/ i = 4 \/ i = 5 \/ i = 6 \/ i = 7)
    by lia.
  destruct Hcases as [-> | [-> | [-> | [-> | [-> | [-> | [-> | ->]]]]]]];
    simpl; discriminate.
Qed.

(** C5: on a track of the scriptable-subtitle family the decoded text is
    split on commas and its fields populate the keys of [SSA_KEYS] by
    position.  [readOrder] is skipped always and [layer] is skipped for the
    subtype [ssa] only, so that the assignment starts at position 1 for
    [ass] and one position later, at 2, for [ssa]; the ninth field and
    those after it (position 8 on), rejoined with commas, are the final
    [text].  On the dialogue line of the specification [style] is
    ["Default"] and [text] is ["Hello, world"]. *)
Theorem handleBlockGroup_ssa_fields (this : Metadata) (chunk block : EbmlTag)
    (trk : Track.t) (settled : list Track.t) (blockDuration scale clusterTimecode : jsval)
    (bytes : list byte) :
  tracks this = Some (Ok settled) ->
  getChild (Some chunk) (EbmlTagId "Block") = Ok (Some block) ->
  getData (Some chunk) (EbmlTagId "BlockDuration") = Ok blockDuration ->
  Map_get (subtitleTracks this) (track block) = Some trk ->
  (if Track._compressed trk then inflateSync (payload block) else Ok (payload block))
    = Ok bytes ->
  Track.type trk ∈ SSA_TYPES ->
  exists subtitle : gmap string jsval,
    handleBlockGroup chunk scale clusterTimecode this
    = (Ok tt, set_emitted (emitted this ++ [(subtitle, track block)]) this) /\
    (forall (i : nat) (key : string),
        (if String.eqb (Track.type trk) "ssa" then 2 else 1) <= i < 8 ->
        SSA_KEYS !! i = Some key ->
        subtitle !! key
        = Some (from_option JStr JUndefined (split "," (arr2text bytes) !! i))) /\
    subtitle !! "readOrder" = None /\
    (Track.type trk = "ssa" -> subtitle !! "layer" = None) /\
    (Track.type trk <> "ssa" ->
     subtitle !! "layer"
     = Some (from_option JStr JUndefined (split "," (arr2text bytes) !! 1))) /\
    subtitle !! "text" = Some (JStr (join "," (drop 8 (split "," (arr2text bytes))))) /\
    (arr2text bytes = dialogue ->
     subtitle !! "style" = Some (JStr "Default") /\
     subtitle !! "text" = Some (JStr "Hello, world")).
Proof.
  intros Htracks Hblock Hdur Htrk Hpayload Hssa.
  exists (subtitleObject trk block bytes blockDuration scale clusterTimecode).
  split; [by eapply handleBlockGroup_emits|].
  unfold subtitleObject. rewrite bool_decide_eq_true_2 by exact Hssa.
  set (first := if String.eqb (Track.type trk) "ssa" then 2 else 1).
  assert (Hfirst : first = 1 \/ first = 2).
  { unfold first. destruct (String.eqb _ _); auto. }
  assert (Hfields : forall (i : nat) (key : string),
             first <= i < 8 -> SSA_KEYS !! i = Some key ->
             <[ "text" := JStr (join "," (drop 8 (split "," (arr2text bytes)))) ]>
               (ssa_fields first (split "," (arr2text bytes))
                  (<[ "duration" := js_mul blockDuration scale ]>
                   (<[ "time" := js_mul (js_add (value block) clusterTimecode) scale ]>
                    (<[ "text" := JStr (arr2text bytes) ]> ∅)))) !! key
             = Some (from_option JStr JUndefined (split "," (arr2text bytes) !! i))).
  { intros i key Hi Hkey.
    rewrite lookup_insert_ne.
    - by apply ssa_fields_lookup.
    - intros <-. by apply (SSA_KEYS_text i); [lia|]. }
  split; [exact Hfields|].
  split.
  { rewrite lookup_insert_ne by discriminate.
    rewrite readOrder_not_assigned by (destruct Hfirst; lia).
    by simplify_map_eq. }
  split.
  { intros Htype. unfold first. rewrite Htype. simpl.
    rewrite lookup_insert_ne by discriminate. rewrite layer_not_assigned.
    by simplify_map_eq. }
  split.
  { intros Htype. apply Hfields; [|reflexivity].
    unfold first. apply String.eqb_neq in Htype. rewrite Htype. lia. }
  split; [apply lookup_insert_eq|].
  intros Htext. split.
  - rewrite (Hfields 2 "style") by (first [reflexivity | destruct Hfirst; lia]).
    rewrite Htext. reflexivity.
  - rewrite lookup_insert_eq, Htext. reflexivity.
Qed.
End Ssa.

Lemma handleBlockGroup_ssa_fields_example :
  exists ass ssa : gmap string jsval,
    emittedFor "ass" dialogue = [(ass, JNum 3)] /\
    emittedFor "ssa" dialogue = [(ssa, JNum 3)] /\
    ass !! "layer" = Some (JStr "1") /\
    ass !! "style" = Some (JStr "Default") /\
    ass !! "text" = Some (JStr "Hello, world") /\
    ssa !! "layer" = None /\
    ssa !! "style" = Some (JStr "Default") /\
    ssa !! "text" = Some (JStr "Hello, world").
Proof.
  destruct (@handleBlockGroup_ssa_fields quietHost (sessionWith (textTrack 3 "ass"))
              (blockGroup 3 50 40 dialogue) (blockTag 3 50 dialogue) (textTrack 3 "ass")
              [textTrack 3 "ass"] (JNum 40) (JNum 1) (JNum 1000)
              (String.list_byte_of_string dialogue)
              eq_refl eq_refl eq_refl eq_refl eq_refl
              (list_elem_of_further "ass" "ssa" ["ass"] (list_elem_of_here "ass" [])))
    as (ass & Hass & _ & _ & _ & Hlayer1 & _ & Hexample1).
  destruct (@handleBlockGroup_ssa_fields quietHost (sessionWith (textTrack 3 "ssa"))
              (blockGroup 3 50 40 dialogue) (blockTag 3 50 dialogue) (textTrack 3 "ssa")
              [textTrack 3 "ssa"] (JNum 40) (JNum 1) (JNum 1000)
              (String.list_byte_of_string dialogue)
              eq_refl eq_refl eq_refl eq_refl eq_refl (list_elem_of_here "ssa" ["ass"]))
    as (ssa & Hssa & _ & _ & Hlayer2 & _ & _ & Hexample2).
  exists ass, ssa.
  split; [unfold emittedFor; rewrite Hass; reflexivity|].
  split; [unfold emittedFor; rewrite Hssa; reflexivity|].
  destruct (Hexample1 eq_refl) as [Hstyle1 Htext1].
  destruct (Hexample2 eq_refl) as [Hstyle2 Htext2].
  split; [rewrite Hlayer1 by discriminate; reflexivity|].
  split; [exact Hstyle1|]. split; [exact Htext1|].
  split; [apply Hlayer2; reflexivity|].
  split; [exact Hstyle2 | exact Htext2].
Defined.

(** ** Stream synchronisation *)

Section Resync.
Context {H : Host}.

Lemma byteAt_true (chunk : list byte) (i : nat) (b : byte) :
  byteAt chunk i b = true <-> chunk !! i = Some b.
Proof.
  unfold byteAt. destruct (chunk !! i) as [c|]; split; intros Hc; try discriminate.
  - f_equal. by apply Byte.byte_dec_bl.
  - injection Hc as ->. by apply Byte.byte_dec_lb.
Qed.

Lemma isClusterMarker_true (chunk : list byte) (i : nat) :
  isClusterMarker chunk i = true <-> markerAt chunk i.
Proof.
  unfold isClusterMarker, markerAt.
  rewrite !andb_true_iff, !byteAt_true. tauto.
Qed.

Lemma firstTagIsValid_true (chunk : list byte) (i : nat) :
  firstTagIsValid chunk i = true <->
  exists (b c : byte) (len : nat),
    chunk !! (i + 4) = Some b /\ sizeLength b = Some len /\
    chunk !! (i + 4 + len) = Some c /\
    is_Some (EbmlTagName (Z.of_N (Byte.to_N c))).
Proof.
  unfold firstTagIsValid. split.
  - destruct (chunk !! (i + 4)) as [b|]; [|discriminate].
    destruct (sizeLength b) as [len|] eqn:Hlen; [|discriminate].
    destruct (chunk !! (i + 4 + len)) as [c|] eqn:Hc; [|discriminate].
    intros Hname%bool_decide_eq_true. exists b, c, len. auto.
  - intros (b & c & len & -> & -> & -> & Hname). by apply bool_decide_eq_true.
Qed.

Lemma trusted_true (chunk : list byte) (i : nat) :
  isClusterMarker chunk i && firstTagIsValid chunk i = true <-> trustedAt chunk i.
Proof.
  unfold trustedAt. rewrite andb_true_iff, isClusterMarker_true, firstTagIsValid_true.
  reflexivity.
Qed.

(** Dispatching tags never touches the flag of the frame. *)
Lemma tagMap_stable (tag : EbmlTag) (st : Frame * Metadata) :
  f_stable (fst (tagMap tag st)) = f_stable (fst st).
Proof.
  destruct st as [fr this]. unfold tagMap.
  repeat (destruct (id_is _ tag)); reflexivity.
Qed.

Lemma dispatch_stable (tags : list EbmlTag) (st : Frame * Metadata) :
  f_stable (fst (fold_left (fun st tag => tagMap tag st) tags st)) = f_stable (fst st).
Proof.
  revert st. induction tags as [|tag tags IH]; intros st; [reflexivity|].
  simpl. rewrite IH. apply tagMap_stable.
Qed.

Lemma decodeAndDispatch_stable (bytes : list byte) (st st' : Frame * Metadata)
    (outcome : result unit) :
  decodeAndDispatch bytes st = (outcome, st') ->
  f_stable (fst st') = f_stable (fst st).
Proof.
  destruct st as [fr this]. unfold decodeAndDispatch.
  destruct (parseTags (f_decoder fr) bytes) as [[tags err] decoder'].
  intros [= _ <-]. rewrite dispatch_stable. reflexivity.
Qed.

Lemma scan_cons (chunk : list byte) (i : nat) (rest : list nat) (st : Frame * Metadata) :
  scan chunk (i :: rest) st
  = if isClusterMarker chunk i && firstTagIsValid chunk i then
      match decodeAndDispatch (drop i chunk) (set_f_stable true (fst st), snd st) with
      | (Ok _, st') => scan chunk rest st'
      | (Throw e, st') => (Throw e, st')
      end
    else scan chunk rest st.
Proof.
  cbn [scan]. destruct (isClusterMarker chunk i); [|reflexivity].
  destruct (firstTagIsValid chunk i); reflexivity.
Qed.

Lemma scan_keeps_stable (chunk : list byte) (positions : list nat) (st : Frame * Metadata) :
  f_stable (fst st) = true ->
  f_stable (fst (snd (scan chunk positions st))) = true.
Proof.
  revert st. induction positions as [|i rest IH]; intros st Hst; [exact Hst|].
  rewrite scan_cons.
  destruct (isClusterMarker chunk i && firstTagIsValid chunk i); [|by apply IH].
  destruct (decodeAndDispatch (drop i chunk) (set_f_stable true (fst st), snd st))
    as [[[]|e] st'] eqn:Hdec;
    apply decodeAndDispatch_stable in Hdec; [apply IH|]; exact Hdec.
Qed.

(** Positions that fail the double check are passed over without effect. *)
Lemma scan_untrusted (chunk : list byte) (positions : list nat) (st : Frame * Metadata) :
  (forall i, i ∈ positions -> ~ trustedAt chunk i) ->
  scan chunk positions st = (Ok tt, st).
Proof.
  induction positions as [|i rest IH]; intros Hnone; [reflexivity|].
  rewrite scan_cons.
  assert (Hi : isClusterMarker chunk i && firstTagIsValid chunk i = false).
  { apply not_true_is_false. rewrite trusted_true. apply Hnone. left. }
  rewrite Hi. apply IH. intros j Hj. apply Hnone. by right.
Qed.

(** The first position that passes the double check is where decoding
    starts; the loop then goes on with the positions after it. *)
Lemma scan_first_trusted (chunk : list byte) (before after : list nat) (i : nat)
    (st : Frame * Metadata) :
  (forall j, j ∈ before -> ~ trustedAt chunk j) ->
  trustedAt chunk i ->
  scan chunk (before ++ i :: after) st
  = match decodeAndDispatch (drop i chunk) (set_f_stable true (fst st), snd st) with
    | (Ok _, st') => scan chunk after st'
    | (Throw e, st') => (Throw e, st')
    end.
Proof.
  intros Hbefore Hi. induction before as [|j before IH].
  - rewrite app_nil_l, scan_cons.
    apply trusted_true in Hi. rewrite Hi. reflexivity.
  - rewrite <- app_comm_cons, scan_cons.
    assert (Hj : isClusterMarker chunk j && firstTagIsValid chunk j = false).
    { apply not_true_is_false. rewrite trusted_true. apply Hbefore. left. }
    rewrite Hj. apply IH. intros k Hk. apply Hbefore. by right.
Qed.

Lemma scan_stable_iff (chunk : list byte) (positions : list nat) (st : Frame * Metadata) :
  f_stable (fst st) = false ->
  f_stable (fst (snd (scan chunk positions st))) = true <->
  exists i, i ∈ positions /\ trustedAt chunk i.
Proof.
  intros Hst. induction positions as [|i rest IH].
  - cbn [scan snd]. rewrite Hst. split; [discriminate|].
    intros (i & Hi & _). by apply elem_of_nil in Hi.
  - rewrite scan_cons.
    destruct (isClusterMarker chunk i && firstTagIsValid chunk i) eqn:Hb.
    + apply trusted_true in Hb.
      split; [intros _; exists i; split; [left|exact Hb]|]. intros _.
      destruct (decodeAndDispatch (drop i chunk) (set_f_stable true (fst st), snd st))
        as [[[]|e] st'] eqn:Hdec;
        apply decodeAndDispatch_stable in Hdec;
        [apply scan_keeps_stable|]; exact Hdec.
    + rewrite IH. split.
      * intros (j & Hj & Htr). exists j. split; [by right|exact Htr].
      * intros (j & Hj & Htr). exists j. split; [|exact Htr].
        apply elem_of_cons in Hj as [-> | Hj]; [|exact Hj].
        apply trusted_true in Htr. congruence.
Qed.

(** The length read off the first byte of the size field is the length of
    an EBML variable-length integer: one more than the number of leading
    zero bits. *)
Lemma sizeLength_vint (b : byte) (len : nat) :
  sizeLength b = Some len ->
  1 <= len <= 8 /\ (2 ^ N.of_nat (8 - len) <= Byte.to_N b < 2 ^ N.of_nat (9 - len))%N.
Proof.
  unfold sizeLength.
  destruct (Byte.to_N b =? 0)%N eqn:Hzero; [discriminate|]. intros [= <-].
  apply N.eqb_neq in Hzero.
  assert (Hpos : (0 < Byte.to_N b)%N) by lia.
  assert (Hmax : (Byte.to_N b < 2 ^ 8)%N).
  { pose proof (Byte.to_N_bounded b). change (2 ^ 8)%N with 256%N. lia. }
  pose proof (N.log2_spec _ Hpos) as [Hlo Hhi].
  assert (Hlog : (N.log2 (Byte.to_N b) < 8)%N) by (apply N.log2_lt_pow2; assumption).
  split; [lia|].
  replace (N.of_nat (8 - (8 - N.to_nat (N.log2 (Byte.to_N b)))))
    with (N.log2 (Byte.to_N b)) by lia.
  replace (N.of_nat (9 - (8 - N.to_nat (N.log2 (Byte.to_N b)))))
    with (N.succ (N.log2 (Byte.to_N b))) by lia.
  split; assumption.
Qed.

Lemma elem_of_positions (i n : nat) : i ∈ seq 0 (n - 12) <-> i + 12 < n.
Proof. rewrite list_elem_of_In, in_seq. lia. Qed.

(** C2: from the unstable state a chunk makes the synchronizer stable
    exactly when some examined position carries the four-byte marker, a
    size field whose length is read off the next byte, and right after it
    the identity code of an element; decoding then starts at the first
    such position.  When no position passes the double check the chunk
    leaves the frame and the session as they were and raises nothing. *)
Theorem parseChunk_resync (chunk : list byte) (fr : Frame) (this : Metadata) :
  f_stable fr = false ->
  (f_stable (fst (snd (parseChunk chunk (fr, this)))) = true <->
   exists i, i + 12 < length chunk /\ trustedAt chunk i) /\
  ((forall i, i + 12 < length chunk -> ~ trustedAt chunk i) ->
   parseChunk chunk (fr, this) = (Ok tt, (fr, this))) /\
  (forall i, i + 12 < length chunk -> trustedAt chunk i ->
     (forall j, j < i -> ~ trustedAt chunk j) ->
     parseChunk chunk (fr, this)
     = match decodeAndDispatch (drop i chunk) (set_f_stable true fr, this) with
       | (Ok _, st') => scan chunk (seq (S i) (length chunk - 12 - S i)) st'
       | (Throw e, st') => (Throw e, st')
       end).
Proof.
  intros Hunstable. unfold parseChunk. cbn [fst]. rewrite Hunstable. cbn [negb].
  split; [|split].
  - rewrite scan_stable_iff by exact Hunstable.
    split; intros (i & Hi & Htr); exists i; (split; [|exact Htr]);
      by apply elem_of_positions.
  - intros Hnone. apply scan_untrusted. intros i Hi. apply Hnone.
    by apply elem_of_positions.
  - intros i Hi Htr Hfirst.
    replace (seq 0 (length chunk - 12))
      with (seq 0 i ++ i :: seq (S i) (length chunk - 12 - S i)).
    + rewrite scan_first_trusted; [reflexivity| |exact Htr].
      intros j Hj. apply Hfirst. apply list_elem_of_In, in_seq in Hj. lia.
    + change (i :: seq (S i) (length chunk - 12 - S i))
        with (seq i (S (length chunk - 12 - S i))).
      replace i with (0 + i) at 2 by reflexivity.
      rewrite <- seq_app. f_equal. lia.
Qed.

(** C10: the loop stops twelve bytes before the end of the chunk, so a
    chunk whose cluster markers all begin in its last twelve bytes (or run
    past its end) leaves the synchronizer unstable and nothing is decoded. *)
Theorem parseChunk_ignores_tail (chunk : list byte) (fr : Frame) (this : Metadata) :
  f_stable fr = false ->
  (forall i, markerAt chunk i -> length chunk <= i + 12) ->
  parseChunk chunk (fr, this) = (Ok tt, (fr, this)) /\
  f_stable (fst (snd (parseChunk chunk (fr, this)))) = false.
Proof.
  intros Hunstable Htail.
  assert (Hrun : parseChunk chunk (fr, this) = (Ok tt, (fr, this))).
  { unfold parseChunk. cbn [fst]. rewrite Hunstable. cbn [negb].
    apply scan_untrusted. intros i Hi [Hmarker _].
    apply elem_of_positions in Hi. apply Htail in Hmarker. lia. }
  split; [exact Hrun|]. rewrite Hrun. exact Hunstable.
Qed.
End Resync.

Lemma parseChunk_resync_example :
  f_stable (fst (snd (@parseChunk quietHost clusterAt2 (unstableFrame, fresh true)))) = true /\
  @parseChunk quietHost markerInPayload (unstableFrame, fresh true)
  = (Ok tt, (unstableFrame, fresh true)).
Proof.
  destruct (@parseChunk_resync quietHost clusterAt2 unstableFrame (fresh true) eq_refl)
    as (Hstable & _ & _).
  destruct (@parseChunk_resync quietHost markerInPayload unstableFrame (fresh true) eq_refl)
    as (_ & Hquiet & _).
  split.
  - apply Hstable. exists 2. split; [simpl; lia|].
    apply (@trusted_true quietHost). reflexivity.
  - apply Hquiet. intros i Hi Htr. apply (@trusted_true quietHost) in Htr.
    simpl in Hi.
    destruct i as [|[|[|[|i]]]]; [discriminate Htr..|lia].
Defined.

Lemma parseChunk_ignores_tail_example :
  @trustedAt quietHost clusterAt4 4 /\
  @parseChunk quietHost clusterAt4 (unstableFrame, fresh true)
  = (Ok tt, (unstableFrame, fresh true)).
Proof.
  split.
  - apply (@trusted_true quietHost). reflexivity.
  - apply (@parseChunk_ignores_tail quietHost clusterAt4 unstableFrame (fresh true) eq_refl).
    intros i Hmarker. apply isClusterMarker_true in Hmarker.
    destruct i as [|[|[|[|i]]]]; [discriminate Hmarker..|simpl; lia].
Defined.

(** ** The index *)

Section Index.
Context {H : Host}.

(** [readSeekHead] on a stream whose index refers to no further index. *)
Lemma readSeekHead_single (fuel : nat) (s : stream) (segmentStart : jsval)
    (this : Metadata) (head : EbmlTag) (children : list EbmlTag)
    (transformed : gmap string (option EbmlTag)) :
  destroyed this = false ->
  readUntilTag s (EbmlTagId "SeekHead") true = Ok (Some head) ->
  Children head = Some children ->
  transformHead children ∅ = Ok transformed ->
  (transformed !! "SeekHead" = None \/ transformed !! "SeekHead" = Some None) ->
  readSeekHead (S fuel) s segmentStart this = (Ok (Some transformed), this).
Proof.
  intros Halive Hread Hchildren Htransformed Hlast.
  cbn [readSeekHead]. unfold bind, lift, get_this.
  rewrite Hread, Halive, Hchildren, Htransformed.
  destruct Hlast as [-> | ->]; reflexivity.
Qed.

End Index.

(** ** Frame rules for computations on the session *)

Section Frames.
Context {H : Host}.

Lemma preserves_ret {A} (view : Metadata -> Metadata) (a : A) : preserves view (ret a).
Proof. intros this. reflexivity. Qed.

Lemma preserves_throw {A} (view : Metadata -> Metadata) (e : error) :
  preserves view (@throw A e).
Proof. intros this. reflexivity. Qed.

Lemma preserves_lift {A} (view : Metadata -> Metadata) (r : result A) :
  preserves view (lift r).
Proof. intros this. reflexivity. Qed.

Lemma preserves_get_this (view : Metadata -> Metadata) : preserves view get_this.
Proof. intros this. reflexivity. Qed.

Lemma preserves_await {A} (view : Metadata -> Metadata) (p : option (result A)) (d : A) :
  preserves view (await p d).
Proof. destruct p; intros this; reflexivity. Qed.

Lemma preserves_bind {A B} (view : Metadata -> Metadata) (c : M A) (k : A -> M B) :
  preserves view c -> (forall a, preserves view (k a)) -> preserves view (bind c k).
Proof.
  intros Hc Hk this. unfold bind. specialize (Hc this).
  destruct (c this) as [[a|e] this']; simpl in *.
  - rewrite Hk. exact Hc.
  - exact Hc.
Qed.

Lemma preserves_getFileStream_core (start : jsval) : preserves core (getFileStream start).
Proof. intros this. reflexivity. Qed.

Lemma preserves_getFileStream_reads (start : jsval) :
  preserves forgetReads (getFileStream start).
Proof. intros this. reflexivity. Qed.

Lemma preserves_for_each {A} (view : Metadata -> Metadata) (body : A -> M unit)
    (l : list A) :
  (forall x, preserves view (body x)) -> preserves view (for_each body l).
Proof.
  intros Hbody. induction l as [|x l IH]; cbn [for_each].
  - apply preserves_ret.
  - apply preserves_bind; [apply Hbody|]. intros _. exact IH.
Qed.
End Frames.

Ltac frame_step :=
  first
    [ solve [auto using preserves_ret, preserves_throw, preserves_lift, preserves_get_this,
               preserves_await, preserves_getFileStream_core, preserves_getFileStream_reads]
    | progress cbv zeta
    | apply preserves_bind; [|intros ?]
    | apply preserves_for_each; intros ?
    | match goal with
      | |- preserves _ (match ?x with _ => _ end) => destruct x
      | |- preserves _ (if ?b then _ else _) => destruct b
      end
    | solve [intros ?; reflexivity] ].

Ltac frame := repeat frame_step.

Section CoreFrames.
Context {H : Host}.

Lemma preserves_readSeekHead (fuel : nat) (s : stream) (segmentStart : jsval) :
  preserves core (readSeekHead fuel s segmentStart).
Proof.
  revert s. induction fuel as [|fuel IH]; intros s; cbn [readSeekHead]; frame.
Qed.

Lemma preserves_getSeekHead (fuel : nat) : preserves core (getSeekHead fuel).
Proof.
  pose proof (preserves_readSeekHead fuel) as Hread. unfold getSeekHead. frame.
Qed.

Lemma preserves_readSeekHeadTag (tag : string) : preserves core (readSeekHeadTag tag).
Proof. unfold readSeekHeadTag. frame. Qed.

Lemma preserves_track_entry (entry : EbmlTag) : preserves core (track_entry entry).
Proof. unfold track_entry. frame. Qed.

Lemma preserves_getTracks : preserves core getTracks.
Proof.
  pose proof preserves_readSeekHeadTag as Hfetch.
  pose proof preserves_track_entry as Hentry.
  unfold getTracks. frame.
Qed.

Lemma preserves_getDuration : preserves core getDuration.
Proof.
  pose proof preserves_readSeekHeadTag as Hfetch. unfold getDuration. frame.
Qed.
End CoreFrames.

(** ** The segment *)

Section Segment.
Context {H : Host}.

Lemma core_fields (a b : Metadata) :
  core a = core b ->
  segment a = segment b /\ seekHead a = seekHead b /\ segmentStart a = segmentStart b /\
  duration a = duration b /\ tracks a = tracks b /\
  implementsSlice a = implementsSlice b /\ timecodeScale a = timecodeScale b /\
  destroyed a = destroyed b.
Proof.
  intros Hcore.
  pose proof (f_equal segment Hcore). pose proof (f_equal seekHead Hcore).
  pose proof (f_equal segmentStart Hcore). pose proof (f_equal duration Hcore).
  pose proof (f_equal tracks Hcore). pose proof (f_equal implementsSlice Hcore).
  pose proof (f_equal timecodeScale Hcore). pose proof (f_equal destroyed Hcore).
  tauto.
Qed.

(** C7, as the code has it: when the input ends without a segment marker,
    [getSegment] resolves to [undefined] and raises nothing; [segmentStart]
    stays 0, and the constructor goes on to resolve the index from the top
    of the file as it does for any other file. *)
Theorem getSegment_without_marker (fuel : nat) (slice : bool) :
  readUntilTag (openStream slice JUndefined) (EbmlTagId "Segment") false = Ok None ->
  getSegment (fresh slice) = (Ok None, set_opened [JUndefined] (fresh slice)) /\
  segment (construct fuel slice) = Some (Ok None) /\
  segmentStart (construct fuel slice) = JNum 0 /\
  seekHead (construct fuel slice)
  = Some (fst (readSeekHead fuel (openStream slice JUndefined) (JNum 0)
                 (set_opened [JUndefined; JUndefined]
                    (set_segment (Ok None) (fresh slice))))).
Proof.
  intros Hnone.
  assert (Hget : getSegment (fresh slice) = (Ok None, set_opened [JUndefined] (fresh slice))).
  { unfold getSegment, bind, get_this, getFileStream, lift. cbn [segment fresh].
    cbn [implementsSlice fresh set_opened]. rewrite Hnone. reflexivity. }
  split; [exact Hget|].
  unfold construct, settle. rewrite Hget.
  set (s1 := set_segment (Ok None) (set_opened [JUndefined] (fresh slice))).
  destruct (getSeekHead fuel s1) as [r2 s2] eqn:H2.
  set (s2' := set_seekHead r2 s2).
  destruct (getDuration s2') as [r3 s3] eqn:H3.
  set (s3' := set_duration r3 s3).
  destruct (getTracks s3') as [r4 s4] eqn:H4.
  pose proof (preserves_getSeekHead fuel s1) as P2. rewrite H2 in P2.
  pose proof (preserves_getDuration s2') as P3. rewrite H3 in P3.
  pose proof (preserves_getTracks s3') as P4. rewrite H4 in P4.
  apply core_fields in P2 as (Seg2 & _ & Start2 & _).
  apply core_fields in P3 as (Seg3 & Head3 & Start3 & _).
  apply core_fields in P4 as (Seg4 & Head4 & Start4 & _).
  cbn [snd] in *. cbn [segment seekHead segmentStart set_tracks].
  rewrite Seg4, Start4, Head4. subst s3'. cbn [segment seekHead segmentStart set_duration].
  rewrite Seg3, Start3, Head3. subst s2'. cbn [segment seekHead segmentStart set_seekHead].
  rewrite Seg2, Start2.
  split; [reflexivity|]. split; [reflexivity|].
  f_equal. replace r2 with (fst (getSeekHead fuel s1)) by (rewrite H2; reflexivity).
  reflexivity.
Qed.
End Segment.

Lemma getSegment_without_marker_example :
  @getSegment headlessHost (fresh true) = (Ok None, set_opened [JUndefined] (fresh true)) /\
  segmentStart (@construct headlessHost 1 true) = JNum 0.
Proof.
  destruct (@getSegment_without_marker headlessHost 1 true eq_refl)
    as (Hget & _ & Hstart & _).
  split; [exact Hget | exact Hstart].
Defined.

(** C7 as stated fails: without a segment marker nothing is raised, and the
    calls made afterwards succeed. *)
Lemma missing_segment_is_not_an_error :
  @readUntilTag headlessHost (headlessFile JUndefined) (Some 0x18538067%Z) false = Ok None /\
  segment (@construct headlessHost 1 true) = Some (Ok None) /\
  fst (@getSegment headlessHost (@construct headlessHost 1 true)) = Ok None /\
  fst (@getTracks headlessHost (@construct headlessHost 1 true))
  = Ok [textTrack 3 "ass"] /\
  fst (@getDuration headlessHost (@construct headlessHost 1 true)) = Ok JUndefined /\
  fst (@getAttachments headlessHost (@construct headlessHost 1 true)) = Ok [] /\
  fst (@getChapters headlessHost (@construct headlessHost 1 true)) = Ok [].
Proof.
  split; [reflexivity|].
  do 5 (split; [vm_compute; reflexivity|]).
  vm_compute; reflexivity.
Qed.

(** ** Fetching a named element *)

Section Fetch.
Context {H : Host}.

Lemma readSeekHeadTag_cached (this : Metadata) (tag : string) (cached : EbmlTag)
    (index : option (gmap string (option EbmlTag))) :
  seekHead this = Some (Ok index) ->
  tagCache this !! toLowerCase tag = Some cached ->
  readSeekHeadTag tag this = (Ok (FTag cached), this).
Proof.
  intros Hindex Hcached. unfold readSeekHeadTag, bind, get_this, await, lift.
  rewrite Hindex. cbv zeta. rewrite Hcached. reflexivity.
Qed.

Lemma readSeekHeadTag_absent (this : Metadata) (tag : string)
    (index : gmap string (option EbmlTag)) :
  seekHead this = Some (Ok (Some index)) ->
  tagCache this !! toLowerCase tag = None ->
  index !! tag = None \/ index !! tag = Some None ->
  readSeekHeadTag tag this = (Ok FUndefined, this).
Proof.
  intros Hindex Hcache Habsent. unfold readSeekHeadTag, bind, get_this, await, lift.
  rewrite Hindex. cbv zeta. rewrite Hcache.
  destruct Habsent as [-> | ->]; reflexivity.
Qed.

Lemma readSeekHeadTag_present (this : Metadata) (tag : string)
    (index : gmap string (option EbmlTag)) (position : EbmlTag) :
  seekHead this = Some (Ok (Some index)) ->
  tagCache this !! toLowerCase tag = None ->
  index !! tag = Some (Some position) ->
  readSeekHeadTag tag this
  = match readUntilTag (openStream (implementsSlice this) JUndefined) (EbmlTagId tag) true with
    | Ok (Some child) =>
        (Ok (FTag (located this position child)),
         set_tagCache (<[ toLowerCase tag := located this position child ]> (tagCache this))
           (set_opened (opened this ++ [JUndefined]) this))
    | Ok None => (Ok FNull, set_opened (opened this ++ [JUndefined]) this)
    | Throw e => (Throw e, set_opened (opened this ++ [JUndefined]) this)
    end.
Proof.
  intros Hindex Hcache Hpresent.
  unfold readSeekHeadTag, bind, get_this, await, lift, getFileStream.
  rewrite Hindex. cbv zeta. rewrite Hcache, Hpresent.
  destruct (readUntilTag _ _ _) as [[child|]|e]; reflexivity.
Qed.

(** C4, as the code has it: for a name that is not cached, an entry in the
    index makes the fetch open one stream at the top of the file (no start
    offset), take the first element of that stream whose identity is the
    name's, record [segmentStart + index[name]] on it as [absoluteStart]
    and cache it (when the stream has no such element the fetch resolves
    to [null] and caches nothing); without an entry the fetch opens no
    stream and resolves to [undefined]. *)
Theorem readSeekHeadTag_uncached (this : Metadata) (tag : string)
    (index : gmap string (option EbmlTag)) :
  seekHead this = Some (Ok (Some index)) ->
  tagCache this !! toLowerCase tag = None ->
  (forall position : EbmlTag,
      index !! tag = Some (Some position) ->
      opened (snd (readSeekHeadTag tag this)) = opened this ++ [JUndefined] /\
      fst (readSeekHeadTag tag this)
      = match readUntilTag (openStream (implementsSlice this) JUndefined)
                (EbmlTagId tag) true with
        | Ok (Some child) => Ok (FTag (located this position child))
        | Ok None => Ok FNull
        | Throw e => Throw e
        end /\
      tagCache (snd (readSeekHeadTag tag this))
      = match fst (readSeekHeadTag tag this) with
        | Ok (FTag child) => <[ toLowerCase tag := child ]> (tagCache this)
        | _ => tagCache this
        end) /\
  (index !! tag = None \/ index !! tag = Some None ->
   readSeekHeadTag tag this = (Ok FUndefined, this)).
Proof.
  intros Hindex Hcache. split.
  - intros position Hpresent.
    rewrite (readSeekHeadTag_present this tag index position Hindex Hcache Hpresent).
    destruct (readUntilTag _ _ _) as [[child|]|e]; cbn [fst snd];
      (split; [reflexivity|]); split; reflexivity.
  - by apply readSeekHeadTag_absent.
Qed.
End Fetch.

Lemma readSeekHeadTag_uncached_example :
  opened (snd (@readSeekHeadTag seekHost "Tracks" indexedSession)) = [JUndefined] /\
  @readSeekHeadTag seekHost "Chapters" indexedSession = (Ok FUndefined, indexedSession).
Proof.
  destruct (@readSeekHeadTag_uncached seekHost indexedSession "Tracks"
              (<[ "Tracks" := Some (leaf 0x53AC (JNum 100)) ]> ∅) eq_refl eq_refl)
    as [Hpresent _].
  destruct (@readSeekHeadTag_uncached seekHost indexedSession "Chapters"
              (<[ "Tracks" := Some (leaf 0x53AC (JNum 100)) ]> ∅) eq_refl eq_refl)
    as [_ Habsent].
  split.
  - destruct (Hpresent (leaf 0x53AC (JNum 100)) eq_refl) as [Hopened _]. exact Hopened.
  - apply Habsent. left. reflexivity.
Defined.

(** C4 as stated fails on both halves.  With Tracks listed at 100 and the
    segment body starting at 50, the only stream opened starts at the top
    of the file, and the element returned is the first Tracks element of
    the file, not the one that a scan from 150 meets.  Chapters is not
    listed: the fetch opens no stream and resolves to [undefined], although
    a scan from the top meets a Chapters element. *)
Lemma readSeekHeadTag_does_not_seek :
  opened (snd (@readSeekHeadTag seekHost "Tracks" indexedSession)) = [JUndefined] /\
  fst (@readSeekHeadTag seekHost "Tracks" indexedSession)
  = Ok (FTag (set_absoluteStart (JNum 150) earlyTracks)) /\
  @readUntilTag seekHost (seekFile (JNum 150)) (Some 0x1654AE6B%Z) true = Ok (Some lateTracks) /\
  earlyTracks <> lateTracks /\
  @readSeekHeadTag seekHost "Chapters" indexedSession = (Ok FUndefined, indexedSession) /\
  @readUntilTag seekHost (seekFile JUndefined) (Some 0x1043A770%Z) true
  = Ok (Some chaptersElement).
Proof.
  split; [vm_compute; reflexivity|].
  split; [vm_compute; reflexivity|].
  split; [vm_compute; reflexivity|].
  split; [unfold earlyTracks, lateTracks, master, leaf; intros [= Hdiff]; discriminate Hdiff|].
  split; [reflexivity|].
  vm_compute; reflexivity.
Qed.

(** ** Memoization *)

Section Respect.
Context {H : Host}.

Lemma forgetReads_fields (a b : Metadata) :
  forgetReads a = forgetReads b ->
  implementsSlice a = implementsSlice b /\ timecodeScale a = timecodeScale b /\
  seekHead a = seekHead b /\ duration a = duration b /\
  segmentStart a = segmentStart b /\ tagCache a = tagCache b.
Proof.
  intros Hsame.
  pose proof (f_equal implementsSlice Hsame). pose proof (f_equal timecodeScale Hsame).
  pose proof (f_equal seekHead Hsame). pose proof (f_equal duration Hsame).
  pose proof (f_equal segmentStart Hsame). pose proof (f_equal tagCache Hsame).
  tauto.
Qed.

Lemma respects_ret {A} (view : Metadata -> Metadata) (x : A) : respects view (ret x) (ret x).
Proof. intros a b Hab. split; [reflexivity|exact Hab]. Qed.

Lemma respects_throw {A} (view : Metadata -> Metadata) (e : error) :
  respects view (@throw A e) (throw e).
Proof. intros a b Hab. split; [reflexivity|exact Hab]. Qed.

Lemma respects_lift {A} (view : Metadata -> Metadata) (r : result A) :
  respects view (lift r) (lift r).
Proof. intros a b Hab. split; [reflexivity|exact Hab]. Qed.

Lemma respects_await {A} (view : Metadata -> Metadata) (p : option (result A)) (d : A) :
  respects view (await p d) (await p d).
Proof. destruct p; intros a b Hab; (split; [reflexivity|exact Hab]). Qed.

Lemma respects_bind {A B} (view : Metadata -> Metadata) (c d : M A) (k k' : A -> M B) :
  respects view c d -> (forall x, respects view (k x) (k' x)) ->
  respects view (bind c k) (bind d k').
Proof.
  intros Hc Hk a b Hab. unfold bind. destruct (Hc a b Hab) as [Hfst Hsnd].
  destruct (c a) as [[x|e] a'], (d b) as [[y|e'] b']; cbn [fst snd] in *;
    try discriminate.
  - injection Hfst as <-. by apply Hk.
  - injection Hfst as <-. split; [reflexivity|exact Hsnd].
Qed.

(** Reading the session itself is harmless as long as what follows only
    looks at the view. *)
Lemma respects_get_this {B} (view : Metadata -> Metadata) (k k' : Metadata -> M B) :
  (forall x y, view x = view y -> respects view (k x) (k' y)) ->
  respects view (bind get_this k) (bind get_this k').
Proof. intros Hk a b Hab. unfold bind, get_this. by apply Hk. Qed.

Lemma respects_getFileStream (start : jsval) :
  respects forgetReads (getFileStream start) (getFileStream start).
Proof.
  intros a b Hab. unfold getFileStream. cbn [fst snd].
  apply forgetReads_fields in Hab as Hfields. destruct Hfields as (-> & _).
  split; [reflexivity|exact Hab].
Qed.
End Respect.

Ltac respect_step :=
  lazymatch goal with
  | Hyp : respects ?v ?c ?d |- respects ?v ?c ?d => exact Hyp
  | |- respects _ (ret _) (ret _) => apply respects_ret
  | |- respects _ (throw _) (throw _) => apply respects_throw
  | |- respects _ (lift _) (lift _) => apply respects_lift
  | |- respects _ (await _ _) (await _ _) => apply respects_await
  | |- respects _ (getFileStream _) (getFileStream _) => apply respects_getFileStream
  | |- respects _ (bind get_this _) (bind get_this _) =>
      apply respects_get_this;
      let x := fresh "x" in let y := fresh "y" in let Hxy := fresh "Hxy" in
      intros x y Hxy;
      let Hf1 := fresh in let Hf2 := fresh in let Hf3 := fresh in
      let Hf4 := fresh in let Hf5 := fresh in let Hf6 := fresh in
      destruct (forgetReads_fields x y Hxy) as (Hf1 & Hf2 & Hf3 & Hf4 & Hf5 & Hf6);
      try rewrite Hf1; try rewrite Hf2; try rewrite Hf3;
      try rewrite Hf4; try rewrite Hf5; try rewrite Hf6;
      clear Hf1 Hf2 Hf3 Hf4 Hf5 Hf6
  | |- respects _ (bind _ _) (bind _ _) => apply respects_bind; [|intros ?]
  | |- respects _ (match ?x with _ => _ end) (match ?x with _ => _ end) => destruct x
  | |- respects _ (if ?b then _ else _) (if ?b then _ else _) => destruct b
  | |- respects _ (let _ := _ in _) _ => cbv zeta
  end.

Ltac respect := repeat respect_step.

Section Memo.
Context {H : Host}.

Lemma respects_cache (key : string) (child : EbmlTag) :
  respects forgetReads
    (modify (fun this => set_tagCache (<[ key := child ]> (tagCache this)) this))
    (modify (fun this => set_tagCache (<[ key := child ]> (tagCache this)) this)).
Proof.
  intros a b Hab. unfold modify. cbn [fst snd]. split; [reflexivity|].
  apply forgetReads_fields in Hab as Hfields.
  destruct Hfields as (_ & _ & _ & _ & _ & ->).
  change (set_tagCache (<[key:=child]> (tagCache b)) (forgetReads a)
          = set_tagCache (<[key:=child]> (tagCache b)) (forgetReads b)).
  rewrite Hab. reflexivity.
Qed.

Lemma respects_readSeekHeadTag (tag : string) :
  respects forgetReads (readSeekHeadTag tag) (readSeekHeadTag tag).
Proof. unfold readSeekHeadTag, located. respect. apply respects_cache. Qed.

Lemma respects_chapterTimecodeScale :
  respects forgetReads chapterTimecodeScale chapterTimecodeScale.
Proof. unfold chapterTimecodeScale. respect. Qed.

Lemma respects_chapters_of (scale : jsval) (atoms : list EbmlTag) :
  respects forgetReads (chapters_of scale atoms) (chapters_of scale atoms).
Proof. induction atoms as [|atom rest IH]; cbn [chapters_of]; respect. Qed.

(** Either the fetch leaves the session alone, or the name is listed and
    not cached, which is when a stream is opened. *)
Lemma readSeekHeadTag_state (tag : string) (this : Metadata) :
  snd (readSeekHeadTag tag this) = this \/
  exists (index : gmap string (option EbmlTag)) (position : EbmlTag),
    seekHead this = Some (Ok (Some index)) /\
    tagCache this !! toLowerCase tag = None /\
    index !! tag = Some (Some position).
Proof.
  destruct (seekHead this) as [[[index|]|e]|] eqn:Hindex;
    destruct (tagCache this !! toLowerCase tag) as [cached|] eqn:Hcache;
    try (left; unfold readSeekHeadTag, bind, get_this, await, lift;
         rewrite Hindex; cbv zeta; rewrite ?Hcache; reflexivity).
  destruct (index !! tag) as [[position|]|] eqn:Hentry.
  - right. by exists index, position.
  - left. rewrite (readSeekHeadTag_absent this tag index); auto.
  - left. rewrite (readSeekHeadTag_absent this tag index); auto.
Qed.

Lemma readSeekHeadTag_opens (tag : string) (this : Metadata)
    (index : gmap string (option EbmlTag)) (position : EbmlTag) :
  seekHead this = Some (Ok (Some index)) ->
  tagCache this !! toLowerCase tag = None ->
  index !! tag = Some (Some position) ->
  opened (snd (readSeekHeadTag tag this)) = opened this ++ [JUndefined].
Proof.
  intros Hindex Hcache Hentry.
  rewrite (readSeekHeadTag_present this tag index position Hindex Hcache Hentry).
  destruct (readUntilTag _ _ _) as [[child|]|e]; reflexivity.
Qed.

(** A second fetch of the same name settles as the first did, and changes
    nothing the program can observe. *)
Lemma readSeekHeadTag_again (tag : string) (this : Metadata) :
  fst (readSeekHeadTag tag (snd (readSeekHeadTag tag this)))
  = fst (readSeekHeadTag tag this) /\
  forgetReads (snd (readSeekHeadTag tag (snd (readSeekHeadTag tag this))))
  = forgetReads (snd (readSeekHeadTag tag this)).
Proof.
  destruct (readSeekHeadTag_state tag this)
    as [Hsame | (index & position & Hindex & Hcache & Hentry)].
  - rewrite !Hsame. split; reflexivity.
  - rewrite (readSeekHeadTag_present this tag index position Hindex Hcache Hentry).
    destruct (readUntilTag (openStream (implementsSlice this) JUndefined) (EbmlTagId tag) true)
      as [[child|]|e] eqn:Hscan; cbn [fst snd].
    + erewrite readSeekHeadTag_cached; [split; reflexivity|exact Hindex|].
      cbn [tagCache set_tagCache]. apply lookup_insert_eq.
    + rewrite (readSeekHeadTag_present (set_opened (opened this ++ [JUndefined]) this)
                 tag index position Hindex Hcache Hentry).
      cbn [implementsSlice set_opened]. rewrite Hscan. split; reflexivity.
    + rewrite (readSeekHeadTag_present (set_opened (opened this ++ [JUndefined]) this)
                 tag index position Hindex Hcache Hentry).
      cbn [implementsSlice set_opened]. rewrite Hscan. split; reflexivity.
Qed.

(** Once a fetch has found the element, or has found the name unlisted,
    any later fetch of the name returns the same without opening a stream. *)
Lemma readSeekHeadTag_settled (tag : string) (this later : Metadata) :
  (exists t, fst (readSeekHeadTag tag this) = Ok (FTag t)) \/
  fst (readSeekHeadTag tag this) = Ok FUndefined ->
  forgetReads later = forgetReads (snd (readSeekHeadTag tag this)) ->
  readSeekHeadTag tag later = (fst (readSeekHeadTag tag this), later).
Proof.
  intros Hresult Hlater.
  destruct (readSeekHeadTag_state tag this)
    as [Hsame | (index & position & Hindex & Hcache & Hentry)].
  - rewrite Hsame in Hlater.
    destruct (respects_readSeekHeadTag tag later this Hlater) as [Hfst _].
    rewrite <- Hfst.
    destruct (readSeekHeadTag_state tag later)
      as [Hquiet | (index & position & Hindex & Hcache & Hentry)].
    + rewrite <- Hquiet at 3. apply surjective_pairing.
    + exfalso.
      apply forgetReads_fields in Hlater as (_ & _ & Hhead & _ & _ & Hcached).
      rewrite Hhead in Hindex. rewrite Hcached in Hcache.
      pose proof (readSeekHeadTag_opens tag this index position Hindex Hcache Hentry)
        as Hopened.
      rewrite Hsame in Hopened. apply (f_equal length) in Hopened.
      rewrite length_app in Hopened. simpl in Hopened. lia.
  - rewrite (readSeekHeadTag_present this tag index position Hindex Hcache Hentry)
      in Hresult, Hlater |- *.
    destruct (readUntilTag (openStream (implementsSlice this) JUndefined) (EbmlTagId tag) true)
      as [[child|]|e] eqn:Hscan; cbn [fst snd] in *.
    + apply forgetReads_fields in Hlater as (_ & _ & Hhead & _ & _ & Hcached).
      cbn [seekHead tagCache set_tagCache set_opened] in Hhead, Hcached.
      eapply readSeekHeadTag_cached; [rewrite Hhead; exact Hindex|].
      rewrite Hcached. apply lookup_insert_eq.
    + destruct Hresult as [[t Ht] | Hu]; discriminate.
    + destruct Hresult as [[t Ht] | Hu]; discriminate.
Qed.

(** A getter that fetches [tag] and then works on the result: its second
    call returns what the first did. *)
Lemma fetch_twice {A} (tag : string) (k : fetched -> M A) (this : Metadata) :
  (forall r, respects forgetReads (k r) (k r)) ->
  (forall r, preserves forgetReads (k r)) ->
  fst (bind (readSeekHeadTag tag) k (snd (bind (readSeekHeadTag tag) k this)))
  = fst (bind (readSeekHeadTag tag) k this).
Proof.
  intros Hrespects Hpreserves.
  destruct (readSeekHeadTag_again tag this) as [Hfst Hsnd].
  unfold bind at 2 3.
  destruct (readSeekHeadTag tag this) as [[r|e] s1] eqn:Hfirst; cbn [fst snd] in *.
  - assert (Hend : forgetReads (snd (k r s1)) = forgetReads s1) by apply Hpreserves.
    destruct (respects_readSeekHeadTag tag (snd (k r s1)) s1 Hend) as [Hfst' Hsnd'].
    unfold bind. rewrite Hfst in Hfst'.
    destruct (readSeekHeadTag tag (snd (k r s1))) as [[r'|e'] s2]; cbn [fst snd] in *;
      [|discriminate].
    injection Hfst' as ->.
    apply Hrespects. rewrite Hsnd'. exact Hsnd.
  - unfold bind.
    destruct (readSeekHeadTag tag s1) as [[r'|e'] s2]; cbn [fst] in *;
      [discriminate|]. injection Hfst as ->. reflexivity.
Qed.

(** When the first call found the element, or found the name unlisted, and
    the rest of the getter opens no stream, the second call changes
    nothing at all. *)
Lemma fetch_twice_quiet {A} (tag : string) (k : fetched -> M A) (this : Metadata)
    (r : fetched) :
  fst (readSeekHeadTag tag this) = Ok r ->
  (exists t, r = FTag t) \/ r = FUndefined ->
  (forall s, forgetReads s = forgetReads (snd (readSeekHeadTag tag this)) ->
             snd (k r s) = s) ->
  bind (readSeekHeadTag tag) k (snd (bind (readSeekHeadTag tag) k this))
  = (fst (bind (readSeekHeadTag tag) k this), snd (bind (readSeekHeadTag tag) k this)).
Proof.
  intros Hr Hsettled Hquiet.
  assert (Hagain : forall later,
             forgetReads later = forgetReads (snd (readSeekHeadTag tag this)) ->
             readSeekHeadTag tag later = (Ok r, later)).
  { intros later Hlater. rewrite <- Hr. apply readSeekHeadTag_settled; [|exact Hlater].
    rewrite Hr. destruct Hsettled as [[t ->] | ->]; [left; by exists t | by right]. }
  assert (Hfirst : bind (readSeekHeadTag tag) k this
                   = k r (snd (readSeekHeadTag tag this))).
  { unfold bind. destruct (readSeekHeadTag tag this) as [r0 s1]; cbn [fst snd] in *.
    rewrite Hr. reflexivity. }
  rewrite Hfirst. rewrite (Hquiet _ eq_refl).
  unfold bind. rewrite (Hagain _ eq_refl).
  pose proof (Hquiet _ eq_refl) as Hstate.
  destruct (k r (snd (readSeekHeadTag tag this))) as [out s'].
  cbn [fst snd] in *. rewrite Hstate. reflexivity.
Qed.

Lemma chapters_of_state (scale : jsval) (atoms : list EbmlTag) :
  preserves (fun this => this) (chapters_of scale atoms).
Proof. induction atoms as [|atom rest IH]; cbn [chapters_of]; frame. Qed.

Lemma preserves_chapters_of (scale : jsval) (atoms : list EbmlTag) :
  preserves forgetReads (chapters_of scale atoms).
Proof. intros this. by rewrite chapters_of_state. Qed.

Lemma preserves_chapterTimecodeScale : preserves forgetReads chapterTimecodeScale.
Proof. unfold chapterTimecodeScale. frame. Qed.

Lemma chapterTimecodeScale_known (this : Metadata) :
  truthy (timecodeScale this) = true ->
  chapterTimecodeScale this = (Ok (timecodeScale this), this).
Proof.
  intros Hscale. unfold chapterTimecodeScale, bind, get_this. rewrite Hscale. reflexivity.
Qed.

(** C9, as the code has it.  After construction [getTracks] and
    [getDuration] return the settled outcome of the constructor's call and
    touch nothing.  [getAttachments] and [getChapters] compute their
    result anew from the cached element, and the second call returns what
    the first did.  The second call opens no stream when the first fetch
    found the element or found the name unlisted (and, for chapters, the
    timecode scale is known); the first call then opened at most one. *)
Theorem getters_memoized (this : Metadata) (settledTracks : result (list Track.t))
    (settledDuration : result jsval) :
  tracks this = Some settledTracks ->
  duration this = Some settledDuration ->
  getTracks this = (settledTracks, this) /\
  getDuration this = (settledDuration, this) /\
  fst (getAttachments (snd (getAttachments this))) = fst (getAttachments this) /\
  fst (getChapters (snd (getChapters this))) = fst (getChapters this) /\
  ((exists t, fst (readSeekHeadTag "Attachments" this) = Ok (FTag t)) \/
   fst (readSeekHeadTag "Attachments" this) = Ok FUndefined ->
   getAttachments (snd (getAttachments this))
   = (fst (getAttachments this), snd (getAttachments this)) /\
   length (opened (snd (getAttachments this))) <= S (length (opened this))) /\
  (truthy (timecodeScale this) = true ->
   (exists t, fst (readSeekHeadTag "Chapters" this) = Ok (FTag t)) \/
   fst (readSeekHeadTag "Chapters" this) = Ok FUndefined ->
   getChapters (snd (getChapters this))
   = (fst (getChapters this), snd (getChapters this)) /\
   length (opened (snd (getChapters this))) <= S (length (opened this))).
Proof.
  intros Htracks Hduration.
  split; [unfold getTracks, bind, get_this, lift; rewrite Htracks; reflexivity|].
  split; [unfold getDuration, bind, get_this, lift; rewrite Hduration; reflexivity|].
  split.
  { unfold getAttachments. apply fetch_twice; intros r; [respect | frame]. }
  split.
  { pose proof respects_chapterTimecodeScale as Hscale.
    pose proof respects_chapters_of as Hchapters.
    pose proof preserves_chapterTimecodeScale as Pscale.
    pose proof preserves_chapters_of as Pchapters.
    unfold getChapters. apply fetch_twice; intros r; [respect; apply Hchapters | frame]. }
  split.
  - intros Hsettled.
    assert (Hr : exists r, fst (readSeekHeadTag "Attachments" this) = Ok r /\
                           ((exists t, r = FTag t) \/ r = FUndefined)).
    { destruct Hsettled as [[t Ht] | Hu]; eexists; (split; [eassumption|]); eauto. }
    destruct Hr as (r & Hr & Hkind).
    assert (Hquiet : forall s, snd ((fun Attachments : fetched =>
                        match Attachments with
                        | FTag a =>
                            match Children a with
                            | Some children => lift (map_r attachment children)
                            | None => ret []
                            end
                        | _ => ret []
                        end) r s) = s).
    { intros s. destruct r as [a| |]; [destruct (Children a)|..]; reflexivity. }
    split.
    + unfold getAttachments. eapply fetch_twice_quiet; [exact Hr|exact Hkind|].
      intros s _. apply Hquiet.
    + unfold getAttachments, bind.
      destruct (readSeekHeadTag_state "Attachments" this)
        as [Hsame | (index & position & Hindex & Hcache & Hentry)].
      * destruct (readSeekHeadTag "Attachments" this) as [[r0|e] s1]; cbn [fst snd] in *.
        -- injection Hr as ->. rewrite Hquiet, Hsame. lia.
        -- subst s1. cbn [snd]. lia.
      * pose proof (readSeekHeadTag_opens "Attachments" this index position
                      Hindex Hcache Hentry) as Hopened.
        destruct (readSeekHeadTag "Attachments" this) as [[r0|e] s1]; cbn [fst snd] in *.
        -- injection Hr as ->. rewrite Hquiet, Hopened, length_app. simpl. lia.
        -- rewrite Hopened, length_app. simpl. lia.
  - intros Hscale Hsettled.
    assert (Hr : exists r, fst (readSeekHeadTag "Chapters" this) = Ok r /\
                           ((exists t, r = FTag t) \/ r = FUndefined)).
    { destruct Hsettled as [[t Ht] | Hu]; eexists; (split; [eassumption|]); eauto. }
    destruct Hr as (r & Hr & Hkind).
    assert (Hsame_scale : timecodeScale (snd (readSeekHeadTag "Chapters" this))
                          = timecodeScale this).
    { pose proof (preserves_readSeekHeadTag "Chapters" this) as Hcore.
      by apply core_fields in Hcore as (_ & _ & _ & _ & _ & _ & ? & _). }
    assert (Hquiet : forall s,
               timecodeScale s = timecodeScale this ->
               snd ((fun Chapters : fetched =>
                       bind chapterTimecodeScale (fun timecodeScale =>
                         match Chapters with
                         | FTag chapters =>
                             match Children chapters with
                             | Some (c :: cs) =>
                                 bind (lift (visibleAtoms (c :: cs)))
                                      (fun atoms => chapters_of timecodeScale atoms)
                             | _ => ret []
                             end
                         | _ => ret []
                         end)) r s) = s).
    { intros s Hs. unfold bind at 1. rewrite chapterTimecodeScale_known by (by rewrite Hs).
      destruct r as [chapters| |]; [|reflexivity..].
      destruct (Children chapters) as [[|c cs]|]; [reflexivity| |reflexivity].
      unfold bind, lift. destruct (visibleAtoms (c :: cs)) as [atoms|e]; [|reflexivity].
      apply chapters_of_state. }
    split.
    + unfold getChapters. eapply fetch_twice_quiet; [exact Hr|exact Hkind|].
      intros s Hs. apply Hquiet.
      apply forgetReads_fields in Hs as (_ & -> & _). exact Hsame_scale.
    + change (getChapters this)
        with (bind (readSeekHeadTag "Chapters")
                (fun Chapters : fetched =>
                   bind chapterTimecodeScale (fun timecodeScale =>
                     match Chapters with
                     | FTag chapters =>
                         match Children chapters with
                         | Some (c :: cs) =>
                             bind (lift (visibleAtoms (c :: cs)))
                                  (fun atoms => chapters_of timecodeScale atoms)
                         | _ => ret []
                         end
                     | _ => ret []
                     end)) this).
      unfold bind at 1.
      destruct (readSeekHeadTag_state "Chapters" this)
        as [Hsame | (index & position & Hindex & Hcache & Hentry)].
      * destruct (readSeekHeadTag "Chapters" this) as [[r0|e] s1]; cbn [fst snd] in *.
        -- injection Hr as ->. rewrite Hquiet by exact Hsame_scale. rewrite Hsame. lia.
        -- discriminate.
      * pose proof (readSeekHeadTag_opens "Chapters" this index position
                      Hindex Hcache Hentry) as Hopened.
        destruct (readSeekHeadTag "Chapters" this) as [[r0|e] s1]; cbn [fst snd] in *.
        -- injection Hr as ->. rewrite Hquiet by exact Hsame_scale.
           rewrite Hopened, length_app. simpl. lia.
        -- discriminate.
Qed.
End Memo.

Lemma getters_memoized_example :
  @getTracks headlessHost (@construct headlessHost 1 true)
  = (Ok [textTrack 3 "ass"], @construct headlessHost 1 true) /\
  fst (@getAttachments headlessHost
         (snd (@getAttachments headlessHost (@construct headlessHost 1 true))))
  = fst (@getAttachments headlessHost (@construct headlessHost 1 true)).
Proof.
  assert (Htracks : tracks (@construct headlessHost 1 true) = Some (Ok [textTrack 3 "ass"]))
    by (vm_compute; reflexivity).
  assert (Hduration : duration (@construct headlessHost 1 true) = Some (Ok JUndefined))
    by (vm_compute; reflexivity).
  destruct (@getters_memoized headlessHost (@construct headlessHost 1 true)
              (Ok [textTrack 3 "ass"]) (Ok JUndefined) Htracks Hduration)
    as (Hget & _ & Hattachments & _).
  split; [exact Hget | exact Hattachments].
Defined.

(** C9 as stated fails on the scan count: when the index lists Attachments
    and the scan meets no such element, nothing is cached, and each of the
    two calls opens a stream of its own. *)
Lemma unfound_element_is_rescanned :
  fst (@getAttachments emptyHost danglingSession) = Ok [] /\
  fst (@getAttachments emptyHost (snd (@getAttachments emptyHost danglingSession))) = Ok [] /\
  opened danglingSession = [] /\
  opened (snd (@getAttachments emptyHost danglingSession)) = [JUndefined] /\
  opened (snd (@getAttachments emptyHost (snd (@getAttachments emptyHost danglingSession))))
  = [JUndefined; JUndefined].
Proof.
  split; [vm_compute; reflexivity|].
  split; [vm_compute; reflexivity|].
  split; [reflexivity|].
  split; vm_compute; reflexivity.
Qed.

(** ** Chapters *)

Section Chapters.
Context {H : Host}.

Lemma getData_readable (atom : EbmlTag) (child : string) :
  is_Some (Children atom) ->
  getData (Some atom) (EbmlTagId child) = Ok (dataOf atom child).
Proof.
  intros [children Hchildren]. unfold dataOf, getData, getChild.
  rewrite Hchildren. destruct (List.find _ children); reflexivity.
Qed.

(** The loop computes the entries the specification describes. *)
Lemma chapters_of_entries (scale total : jsval) (atoms : list EbmlTag) (this : Metadata) :
  durationIs this total ->
  Forall atomReadable atoms ->
  chapters_of scale atoms this = (Ok (chapterEntries scale total atoms), this).
Proof.
  intros Htotal Hatoms. induction Hatoms as [|atom rest [Hmaster Hdisplay] _ IH];
    [reflexivity|].
  cbn [chapters_of chapterEntries]. unfold bind at 1. rewrite IH.
  unfold bind, lift, get_this.
  rewrite !getData_readable by exact Hmaster.
  assert (Hawait : await (duration this) JUndefined this = (Ok total, this)).
  { destruct Htotal as [-> | [-> ->]]; reflexivity. }
  assert (Hchild : exists disp, getChild (Some atom) (EbmlTagId "ChapterDisplay") = Ok disp).
  { destruct Hmaster as [children Hchildren]. unfold getChild. rewrite Hchildren. eauto. }
  destruct Hchild as [disp Hdisp]. rewrite Hdisp.
  assert (Htext : forall child,
             getData disp (EbmlTagId child)
             = Ok (match disp with Some d => dataOf d child | None => JUndefined end)).
  { intros child. destruct disp as [d|]; [|reflexivity].
    apply getData_readable. by apply Hdisplay. }
  destruct (truthy (scaled (dataOf atom "ChapterTimeEnd") scale)) eqn:Hdeclared.
  - cbn [ret]. rewrite !Htext. destruct disp; reflexivity.
  - unfold fallbackEnd.
    destruct (chapterEntries scale total rest) as [|successor later] eqn:Hlater; cbn [List.head].
    + cbn [truthy]. rewrite Hawait. cbn [ret]. rewrite !Htext. destruct disp; reflexivity.
    + destruct (truthy (Chapter.start successor)).
      * cbn [ret]. rewrite !Htext. destruct disp; reflexivity.
      * rewrite Hawait. cbn [ret]. rewrite !Htext. destruct disp; reflexivity.
Qed.

Lemma chapterEntries_length (scale total : jsval) (atoms : list EbmlTag) :
  length (chapterEntries scale total atoms) = length atoms.
Proof. induction atoms as [|atom rest IH]; [reflexivity|]. cbn. by rewrite IH. Qed.

Lemma chapterEntries_start (scale total : jsval) (atoms : list EbmlTag) :
  map Chapter.start (chapterEntries scale total atoms)
  = map (fun atom => scaled (dataOf atom "ChapterTimeStart") scale) atoms.
Proof. induction atoms as [|atom rest IH]; [reflexivity|]. cbn. by rewrite IH. Qed.

Lemma chapterEntries_end (scale total : jsval) (atoms : list EbmlTag) (i : nat)
    (atom : EbmlTag) (entry : Chapter.t) :
  atoms !! i = Some atom ->
  chapterEntries scale total atoms !! i = Some entry ->
  Chapter.end_ entry
  = if truthy (scaled (dataOf atom "ChapterTimeEnd") scale)
    then scaled (dataOf atom "ChapterTimeEnd") scale
    else fallbackEnd (chapterEntries scale total atoms !! S i) total.
Proof.
  revert i. induction atoms as [|first rest IH]; intros i Hatom Hentry; [discriminate|].
  destruct i as [|i].
  - cbn in Hatom, Hentry. injection Hatom as ->. injection Hentry as <-.
    cbn [Chapter.end_]. change (chapterEntries scale total (atom :: rest) !! 1)
      with (chapterEntries scale total rest !! 0).
    by rewrite <- head_lookup.
  - apply (IH i); assumption.
Qed.

(** With the element fetched and the scale known, [getChapters] is the
    loop over the visible atoms of the default edition. *)
Lemma getChapters_run (this s1 : Metadata) (chaptersTag c : EbmlTag)
    (cs atoms : list EbmlTag) :
  readSeekHeadTag "Chapters" this = (Ok (FTag chaptersTag), s1) ->
  truthy (timecodeScale this) = true ->
  Children chaptersTag = Some (c :: cs) ->
  visibleAtoms (c :: cs) = Ok atoms ->
  getChapters this = chapters_of (timecodeScale this) atoms s1 /\
  duration s1 = duration this.
Proof.
  intros Hfetch Hscale Hchildren Hatoms.
  pose proof (preserves_readSeekHeadTag "Chapters" this) as Hcore.
  rewrite Hfetch in Hcore. cbn [snd] in Hcore.
  apply core_fields in Hcore as (_ & _ & _ & Hduration & _ & _ & Hsame & _).
  split; [|exact Hduration].
  unfold getChapters. unfold bind at 1. rewrite Hfetch.
  unfold bind at 1. rewrite chapterTimecodeScale_known by (by rewrite Hsame).
  rewrite Hchildren. unfold bind, lift. rewrite Hatoms, Hsame. reflexivity.
Qed.

Lemma find_r_member {A} (p : A -> result bool) (l : list A) (x : A) :
  find_r p l = Ok (Some x) -> x ∈ l.
Proof.
  induction l as [|y l IH]; cbn [find_r]; [discriminate|].
  destruct (p y) as [[|]|e]; try discriminate.
  - intros [= ->]. left.
  - intros Hfound. right. by apply IH.
Qed.

Lemma defaultEdition_member (editions : list EbmlTag) (edition : EbmlTag) :
  defaultEdition editions = Ok (Some edition) -> edition ∈ editions.
Proof.
  unfold defaultEdition.
  destruct (find_r is_default_edition editions) as [[flagged|]|e] eqn:Hfind;
    try discriminate.
  - intros [= <-]. by eapply find_r_member.
  - destruct editions as [|first rest]; [discriminate|]. intros [= <-]. left.
Qed.

Lemma filter_r_sublist {A} (p : A -> result bool) (l kept : list A) :
  filter_r p l = Ok kept -> sublist kept l.
Proof.
  revert kept. induction l as [|x l IH]; intros kept; cbn [filter_r].
  - intros [= <-]. constructor.
  - destruct (p x) as [b|e]; [|discriminate].
    destruct (filter_r p l) as [kept'|e]; [|discriminate].
    intros [= <-]. destruct b; [apply sublist_skip | apply sublist_cons]; by apply IH.
Qed.

(** C6, as the code has it: an atom whose declared end is absent (or
    scales to a number that is zero or not a number) gets as its end the
    start of the next visible atom when that start is a number other than
    zero; otherwise, as does the last visible atom, the total duration, or
    0 when the duration is unknown or zero.  Three atoms starting at 0, 10
    and 20 without declared ends and a duration of 30 end at 10, 20, 30. *)
Theorem getChapters_end_fallback (this s1 : Metadata) (chaptersTag c : EbmlTag)
    (cs atoms : list EbmlTag) (total : jsval) :
  readSeekHeadTag "Chapters" this = (Ok (FTag chaptersTag), s1) ->
  truthy (timecodeScale this) = true ->
  Children chaptersTag = Some (c :: cs) ->
  visibleAtoms (c :: cs) = Ok atoms ->
  durationIs this total ->
  Forall atomReadable atoms ->
  exists chapters : list Chapter.t,
    getChapters this = (Ok chapters, s1) /\
    length chapters = length atoms /\
    (forall (i : nat) (atom : EbmlTag) (entry : Chapter.t),
        atoms !! i = Some atom -> chapters !! i = Some entry ->
        truthy (scaled (dataOf atom "ChapterTimeEnd") (timecodeScale this)) = false ->
        Chapter.end_ entry = fallbackEnd (chapters !! S i) total) /\
    (map Chapter.start chapters = [JNum 0; JNum 10; JNum 20] ->
     (forall atom, atom ∈ atoms ->
        truthy (scaled (dataOf atom "ChapterTimeEnd") (timecodeScale this)) = false) ->
     total = JNum 30 ->
     map Chapter.end_ chapters = [JNum 10; JNum 20; JNum 30]).
Proof.
  intros Hfetch Hscale Hchildren Hatoms Htotal Hreadable.
  destruct (getChapters_run this s1 chaptersTag c cs atoms Hfetch Hscale Hchildren Hatoms)
    as [Hrun Hduration].
  assert (Htotal' : durationIs s1 total) by (unfold durationIs; by rewrite Hduration).
  exists (chapterEntries (timecodeScale this) total atoms).
  assert (Hend : forall (i : nat) (atom : EbmlTag) (entry : Chapter.t),
             atoms !! i = Some atom ->
             chapterEntries (timecodeScale this) total atoms !! i = Some entry ->
             truthy (scaled (dataOf atom "ChapterTimeEnd") (timecodeScale this)) = false ->
             Chapter.end_ entry
             = fallbackEnd (chapterEntries (timecodeScale this) total atoms !! S i) total).
  { intros i atom entry Hatom Hentry Hnone.
    rewrite (chapterEntries_end _ _ atoms i atom entry Hatom Hentry), Hnone. reflexivity. }
  split; [rewrite Hrun; by apply chapters_of_entries|].
  split; [apply chapterEntries_length|].
  split; [exact Hend|].
  intros Hstarts Hnone ->.
  pose proof (chapterEntries_length (timecodeScale this) (JNum 30) atoms) as Hlen.
  remember (chapterEntries (timecodeScale this) (JNum 30) atoms) as chapters eqn:Hentries.
  clear Hentries Hrun.
  destruct chapters as [|e0 [|e1 [|e2 [|e3 rest]]]]; try discriminate Hstarts.
  destruct atoms as [|a0 [|a1 [|a2 [|a3 more]]]]; try discriminate Hlen.
  injection Hstarts as Hs0 Hs1 Hs2.
  cbn [map].
  rewrite (Hend 0 a0 e0 eq_refl eq_refl) by (apply Hnone; set_solver).
  rewrite (Hend 1 a1 e1 eq_refl eq_refl) by (apply Hnone; set_solver).
  rewrite (Hend 2 a2 e2 eq_refl eq_refl) by (apply Hnone; set_solver).
  cbn [lookup list_lookup fallbackEnd]. rewrite Hs1, Hs2. reflexivity.
Qed.

(** C8, as the code has it: the entries come in the declaration order of
    the visible atoms of the default edition, each with the scaled start
    its atom declares; nothing is sorted, so the starts ascend exactly when
    the declared ones do. *)
Theorem getChapters_declaration_order (this s1 : Metadata) (chaptersTag c : EbmlTag)
    (cs atoms : list EbmlTag) (total : jsval) :
  readSeekHeadTag "Chapters" this = (Ok (FTag chaptersTag), s1) ->
  truthy (timecodeScale this) = true ->
  Children chaptersTag = Some (c :: cs) ->
  visibleAtoms (c :: cs) = Ok atoms ->
  durationIs this total ->
  Forall atomReadable atoms ->
  exists chapters : list Chapter.t,
    getChapters this = (Ok chapters, s1) /\
    map Chapter.start chapters
    = map (fun atom => scaled (dataOf atom "ChapterTimeStart") (timecodeScale this)) atoms /\
    (exists (edition : EbmlTag) (declared : list EbmlTag),
        edition ∈ c :: cs /\ Children edition = Some declared /\ sublist atoms declared) /\
    (ascending (map Chapter.start chapters) <->
     ascending (map (fun atom => scaled (dataOf atom "ChapterTimeStart") (timecodeScale this))
                    atoms)).
Proof.
  intros Hfetch Hscale Hchildren Hatoms Htotal Hreadable.
  destruct (getChapters_run this s1 chaptersTag c cs atoms Hfetch Hscale Hchildren Hatoms)
    as [Hrun Hduration].
  assert (Htotal' : durationIs s1 total) by (unfold durationIs; by rewrite Hduration).
  exists (chapterEntries (timecodeScale this) total atoms).
  split; [rewrite Hrun; by apply chapters_of_entries|].
  split; [apply chapterEntries_start|].
  split.
  - unfold visibleAtoms in Hatoms.
    set (editions := List.filter (id_is (EbmlTagId "EditionEntry")) (c :: cs)) in *.
    destruct (defaultEdition editions) as [[edition|]|e] eqn:Hpick; try discriminate.
    destruct (Children edition) as [declared|] eqn:Hdeclared; [|discriminate].
    exists edition, declared. split; [|split; [exact Hdeclared|by eapply filter_r_sublist]].
    apply defaultEdition_member in Hpick.
    apply list_elem_of_In, filter_In in Hpick as [Hin _]. by apply list_elem_of_In.
  - by rewrite chapterEntries_start.
Qed.
End Chapters.

Lemma chapterAtom_readable (starts : list float) (start : float) :
  @atomReadable (chapterHost starts) (chapterAtom start).
Proof.
  split; [by eexists|]. intros disp Hdisp. cbv in Hdisp. discriminate Hdisp.
Qed.

Lemma chapterAtoms_readable (starts declared : list float) :
  Forall (@atomReadable (chapterHost starts)) (map chapterAtom declared).
Proof.
  induction declared as [|start rest IH]; constructor;
    [apply chapterAtom_readable | exact IH].
Qed.

Lemma getChapters_end_fallback_example :
  fst (@getChapters threeChapters chapterSession) = Ok [entry 0 10; entry 10 20; entry 20 30].
Proof.
  assert (Hfetch : @readSeekHeadTag threeChapters "Chapters" chapterSession
                   = (Ok (FTag (set_absoluteStart (JNum 100)
                                  (chaptersWith [0; 10000000; 20000000]%float))),
                      snd (@readSeekHeadTag threeChapters "Chapters" chapterSession)))
    by (vm_compute; reflexivity).
  destruct (@getChapters_end_fallback threeChapters chapterSession
              (snd (@readSeekHeadTag threeChapters "Chapters" chapterSession))
              (set_absoluteStart (JNum 100) (chaptersWith [0; 10000000; 20000000]%float))
              (master 0x45B9 (map chapterAtom [0; 10000000; 20000000]%float)) []
              (map chapterAtom [0; 10000000; 20000000]%float) (JNum 30)
              Hfetch eq_refl eq_refl eq_refl (or_introl eq_refl)
              (chapterAtoms_readable _ [0; 10000000; 20000000]%float))
    as (chapters & Hrun & Hlength & Hend & Hexample).
  rewrite Hrun. cbn [fst]. f_equal.
  assert (Hstarts : map Chapter.start chapters = [JNum 0; JNum 10; JNum 20]).
  { assert (Hcomputed : map Chapter.start
                          (match fst (@getChapters threeChapters chapterSession) with
                           | Ok l => l
                           | Throw _ => []
                           end) = [JNum 0; JNum 10; JNum 20]) by (vm_compute; reflexivity).
    rewrite Hrun in Hcomputed. exact Hcomputed. }
  assert (Hends : map Chapter.end_ chapters = [JNum 10; JNum 20; JNum 30]).
  { apply Hexample; [exact Hstarts| |reflexivity].
    intros atom Hin.
    repeat (apply elem_of_cons in Hin as [-> | Hin]; [vm_compute; reflexivity|]).
    by apply elem_of_nil in Hin. }
  assert (Hrest : map Chapter.text chapters = [JUndefined; JUndefined; JUndefined] /\
                  map Chapter.language chapters = [JUndefined; JUndefined; JUndefined]).
  { assert (Hcomputed : let l := match fst (@getChapters threeChapters chapterSession) with
                                 | Ok l => l
                                 | Throw _ => []
                                 end in
                        map Chapter.text l = [JUndefined; JUndefined; JUndefined] /\
                        map Chapter.language l = [JUndefined; JUndefined; JUndefined])
      by (vm_compute; split; reflexivity).
    rewrite Hrun in Hcomputed. exact Hcomputed. }
  destruct Hrest as [Htext Hlanguage].
  destruct chapters as [|[s0 e0 t0 l0] [|[s1 e1 t1 l1] [|[s2 e2 t2 l2] [|extra rest]]]];
    try discriminate Hstarts.
  cbn in Hstarts, Hends, Htext, Hlanguage.
  injection Hstarts as -> -> ->. injection Hends as -> -> ->.
  injection Htext as -> -> ->. injection Hlanguage as -> -> ->. reflexivity.
Defined.

(** C6 as stated fails when the next visible atom starts at 0: the atom
    before it has no declared end, yet its end is the total duration 30,
    not the start of its successor. *)
Lemma zero_start_is_no_fallback :
  fst (@getChapters zeroSecond chapterSession) = Ok [entry 10 30; entry 0 30] /\
  fallbackEnd (Some (entry 0 30)) (JNum 30) = JNum 30 /\
  Chapter.start (entry 0 30) = JNum 0.
Proof.
  split; [vm_compute; reflexivity|]. split; reflexivity.
Qed.

Lemma getChapters_declaration_order_example :
  map Chapter.start
      (match fst (@getChapters threeChapters chapterSession) with
       | Ok chapters => chapters
       | Throw _ => []
       end) = [JNum 0; JNum 10; JNum 20].
Proof.
  assert (Hfetch : @readSeekHeadTag threeChapters "Chapters" chapterSession
                   = (Ok (FTag (set_absoluteStart (JNum 100)
                                  (chaptersWith [0; 10000000; 20000000]%float))),
                      snd (@readSeekHeadTag threeChapters "Chapters" chapterSession)))
    by (vm_compute; reflexivity).
  destruct (@getChapters_declaration_order threeChapters chapterSession
              (snd (@readSeekHeadTag threeChapters "Chapters" chapterSession))
              (set_absoluteStart (JNum 100) (chaptersWith [0; 10000000; 20000000]%float))
              (master 0x45B9 (map chapterAtom [0; 10000000; 20000000]%float)) []
              (map chapterAtom [0; 10000000; 20000000]%float) (JNum 30)
              Hfetch eq_refl eq_refl eq_refl (or_introl eq_refl)
              (chapterAtoms_readable _ [0; 10000000; 20000000]%float))
    as (chapters & Hrun & Hstarts & _).
  rewrite Hrun. cbn [fst]. rewrite Hstarts. vm_compute. reflexivity.
Defined.

(** C8 as stated fails: atoms declared with starts 20 and 10 come back in
    that order, which is not ascending. *)
Lemma declaration_order_is_not_sorted :
  fst (@getChapters unordered chapterSession) = Ok [entry 20 10; entry 10 30] /\
  ~ ascending (map Chapter.start [entry 20 10; entry 10 30]).
Proof.
  split; [vm_compute; reflexivity|].
  intros Hascending.
  specialize (Hascending 0 1 (JNum 20) (JNum 10) (Nat.lt_0_1) eq_refl eq_refl).
  cbn in Hascending. discriminate Hascending.
Qed.

(** ** Further properties of the editions and of the streaming loop *)

Section Further.
Context {H : Host}.

Lemma find_r_first {A} (p : A -> result bool) (before after : list A) (x : A) :
  Forall (fun y => p y = Ok false) before ->
  p x = Ok true ->
  find_r p (before ++ x :: after) = Ok (Some x).
Proof.
  intros Hbefore Hx. induction Hbefore as [|y before Hy _ IH]; cbn [app find_r].
  - by rewrite Hx.
  - by rewrite Hy.
Qed.

Lemma find_r_none {A} (p : A -> result bool) (l : list A) :
  Forall (fun y => p y = Ok false) l -> find_r p l = Ok None.
Proof.
  intros Hl. induction Hl as [|y l Hy _ IH]; cbn [find_r]; [reflexivity|]. by rewrite Hy.
Qed.

(** X1: the edition chosen is the first one whose default flag is truthy,
    and the first edition of all when none is flagged. *)
Theorem defaultEdition_choice (editions : list EbmlTag) :
  (forall (before after : list EbmlTag) (chosen : EbmlTag),
      editions = before ++ chosen :: after ->
      Forall (fun e => is_default_edition e = Ok false) before ->
      is_default_edition chosen = Ok true ->
      defaultEdition editions = Ok (Some chosen)) /\
  (Forall (fun e => is_default_edition e = Ok false) editions ->
   defaultEdition editions = Ok (List.head editions)).
Proof.
  split.
  - intros before after chosen -> Hbefore Hchosen. unfold defaultEdition.
    by rewrite (find_r_first _ before after chosen Hbefore Hchosen).
  - intros Hnone. unfold defaultEdition. by rewrite (find_r_none _ editions Hnone).
Qed.

(** The chunks yielded are the chunks received, in order and unchanged. *)
Lemma parseStream_loop_prefix (consumer : list byte -> Metadata -> Metadata)
    (chunks : list (list byte)) (st : Frame * Metadata) :
  fst (fst (parseStream_loop consumer chunks st)) `prefix_of` chunks.
Proof.
  revert st. induction chunks as [|chunk rest IH]; intros st; cbn [parseStream_loop].
  - done.
  - destruct (parseChunk chunk st) as [[[]|e] [fr this]]; cbn [fst].
    + destruct (destroyed (consumer chunk this)); cbn [fst].
      * apply prefix_cons, prefix_nil.
      * specialize (IH (fr, consumer chunk this)).
        destruct (parseStream_loop consumer rest (fr, consumer chunk this))
          as [[yielded outcome] st'']. cbn [fst] in *. by apply prefix_cons.
    + apply prefix_nil.
Qed.

Lemma parseStream_loop_all (consumer : list byte -> Metadata -> Metadata)
    (chunks : list (list byte)) (st : Frame * Metadata) :
  snd (fst (parseStream_loop consumer chunks st)) = Ok tt ->
  destroyed (snd (snd (parseStream_loop consumer chunks st))) = false ->
  fst (fst (parseStream_loop consumer chunks st)) = chunks.
Proof.
  revert st. induction chunks as [|chunk rest IH]; intros st; cbn [parseStream_loop].
  - reflexivity.
  - destruct (parseChunk chunk st) as [[[]|e] [fr this]]; cbn [fst snd].
    + destruct (destroyed (consumer chunk this)) eqn:Hdestroyed; cbn [fst snd].
      * intros _ Halive. congruence.
      * specialize (IH (fr, consumer chunk this)).
        destruct (parseStream_loop consumer rest (fr, consumer chunk this))
          as [[yielded outcome] st'']. cbn [fst snd] in *.
        intros Hok Halive. f_equal. by apply IH.
    + discriminate.
Qed.

(** X2: [parseStream] passes the chunks it is given through, in order and
    unmodified: what it yields is a prefix of its input, and the whole
    input when it ends without an error on a session that is not
    destroyed. *)
Theorem parseStream_passes_through (consumer : list byte -> Metadata -> Metadata)
    (chunks : list (list byte)) (this : Metadata) :
  fst (fst (parseStream consumer chunks this)) `prefix_of` chunks /\
  (snd (fst (parseStream consumer chunks this)) = Ok tt ->
   destroyed (snd (snd (parseStream consumer chunks this))) = false ->
   fst (fst (parseStream consumer chunks this)) = chunks).
Proof.
  unfold parseStream. split.
  - apply parseStream_loop_prefix.
  - apply parseStream_loop_all.
Qed.

Lemma preserves_handleBlockGroup (chunk : EbmlTag) (scale clusterTimecode : jsval) :
  preserves withoutEvents (handleBlockGroup chunk scale clusterTimecode).
Proof. unfold handleBlockGroup, emit_subtitle. frame. Qed.








(** X5: a block group without a block, or whose block belongs to no
    registered subtitle track, is dropped: nothing is emitted, nothing is
    raised, the session is as before. *)
Theorem handleBlockGroup_unknown_track (this : Metadata) (chunk : EbmlTag)
    (settled : list Track.t) (scale clusterTimecode : jsval) :
  tracks this = Some (Ok settled) ->
  getChild (Some chunk) (EbmlTagId "Block") = Ok None \/
  (exists block, getChild (Some chunk) (EbmlTagId "Block") = Ok (Some block) /\
                 Map_get (subtitleTracks this) (track block) = None) ->
  handleBlockGroup chunk scale clusterTimecode this = (Ok tt, this).
Proof.
  intros Htracks Hblock. unfold handleBlockGroup, bind, get_this, await, lift.
  rewrite Htracks. destruct Hblock as [-> | (block & -> & Hunknown)]; [reflexivity|].
  unfold Map_has. rewrite Hunknown. reflexivity.
Qed.
End Further.

Lemma defaultEdition_choice_example :
  @defaultEdition quietHost secondFlagged = Ok (Some (edition (Some 1%float) [10%float])) /\
  @defaultEdition quietHost noneFlagged = Ok (Some (edition None [0%float])).
Proof.
  destruct (@defaultEdition_choice quietHost secondFlagged) as [Hflagged _].
  destruct (@defaultEdition_choice quietHost noneFlagged) as [_ Hnone].
  split.
  - apply (Hflagged [edition None [0%float]] [edition None [20%float]]);
      [reflexivity| |reflexivity].
    constructor; [reflexivity|constructor].
  - apply Hnone. repeat (constructor; [reflexivity|]). constructor.
Defined.

Lemma parseStream_passes_through_example :
  fst (fst (@parseStream quietHost (fun _ this => this) [clusterAt4; markerInPayload]
                         (fresh true)))
  = [clusterAt4; markerInPayload].
Proof.
  destruct (@parseStream_passes_through quietHost (fun _ this => this)
              [clusterAt4; markerInPayload] (fresh true)) as [_ Hall].
  apply Hall; reflexivity.
Defined.



Lemma handleBlockGroup_unknown_track_example :
  @handleBlockGroup quietHost (blockGroup 7 50 40 "Hello") (JNum 1) (JNum 1000)
                    (sessionWith (textTrack 3 "utf8"))
  = (Ok tt, sessionWith (textTrack 3 "utf8")).
Proof.
  apply (@handleBlockGroup_unknown_track quietHost (sessionWith (textTrack 3 "utf8"))
           (blockGroup 7 50 40 "Hello") [textTrack 3 "utf8"] (JNum 1) (JNum 1000) eq_refl).
  right. exists (blockTag 7 50 "Hello"). split; reflexivity.
Defined.

(** From the unstable state to an event: the chunk carries a cluster at
    position 2, and the decoder yields a cluster timecode of 1000 and a
    block at relative time 50. *)
Lemma resync_then_emit :
  emitted (snd (snd (@parseChunk clusterHost clusterAt2
                       (@Build_Frame clusterHost false tt (JNum 1) JNull,
                        sessionWith (textTrack 3 "utf8")))))
  = [(eventFor "utf8" "Hello", JNum 3)] /\
  eventFor "utf8" "Hello" !! "time" = Some (JNum 1050).
Proof. split; [reflexivity | vm_compute; reflexivity]. Qed.

(** * Further properties *)

(** ** Tags and the entries of an index *)

Section Tags.
Context {H : Host}.

Lemma processTags_again : forall tag : EbmlTag, processTags (processTags tag) = processTags tag.
Proof.
  fix IH 1. intros [i ty d cs tr v p a h]. cbn [processTags]. f_equal.
  - destruct (truthy d && match ty with
                          | Some ET_String | Some ET_UTF8 | None => true
                          | Some (ET_Other _) => false
                          end) eqn:Hconvert.
    + destruct (truthy (JStr (ToString d)) && _); reflexivity.
    + rewrite Hconvert. reflexivity.
  - destruct cs as [children|]; [|reflexivity]. f_equal.
    induction children as [|child children IHchildren]; [reflexivity|].
    cbn [map]. f_equal; [apply IH | exact IHchildren].
Qed.

Lemma processTags_textual : forall tag e : EbmlTag,
  e ∈ subtree (processTags tag) ->
  isTextual e = true -> truthy (data e) = true -> exists s, data e = JStr s.
Proof.
  fix IH 1. intros [i ty d cs tr v p a h] e. cbn [processTags subtree Children].
  intros Hin Htextual Htruthy. apply elem_of_cons in Hin as [-> | Hin].
  - unfold isTextual in Htextual. cbn [type data] in *.
    destruct (truthy d) eqn:Hd; cbn [andb] in *.
    + rewrite Htextual. eauto.
    + rewrite Hd in Htruthy. discriminate.
  - destruct cs as [children|]; [|by apply elem_of_nil in Hin].
    induction children as [|child children IHchildren]; [by apply elem_of_nil in Hin|].
    cbn [map flat_map] in Hin. apply elem_of_app in Hin as [Hin | Hin].
    + exact (IH child e Hin Htextual Htruthy).
    + exact (IHchildren Hin).
Qed.

(** X6: [processTags] is idempotent and keeps the identity of a tag, and in
    the tree it returns every element of a textual type (String, UTF-8, or
    none declared) whose data is truthy holds a string. *)
Theorem processTags_normalises (tag : EbmlTag) :
  processTags (processTags tag) = processTags tag /\
  id (processTags tag) = id tag /\
  (forall e, e ∈ subtree (processTags tag) ->
             isTextual e = true -> truthy (data e) = true -> exists s, data e = JStr s).
Proof.
  split; [apply processTags_again|]. split; [by destruct tag|]. apply processTags_textual.
Qed.

Lemma find_first (p : EbmlTag -> bool) (before after : list EbmlTag) (t : EbmlTag) :
  Forall (fun b => p b = false) before -> p t = true ->
  List.find p (before ++ t :: after) = Some t.
Proof.
  intros Hbefore Ht. induction Hbefore as [|b before Hb _ IH]; cbn [app List.find].
  - by rewrite Ht.
  - by rewrite Hb.
Qed.

Lemma find_nothing (p : EbmlTag -> bool) (l : list EbmlTag) :
  Forall (fun b => p b = false) l -> List.find p l = None.
Proof.
  intros Hl. induction Hl as [|b l Hb _ IH]; cbn [List.find]; [reflexivity|]. by rewrite Hb.
Qed.

(** X7: [readUntilTag] returns the first tag of the stream that has the
    identity asked for, after [processTags]: the tags before it are passed
    over, and what follows it, an error of the decoder included, is never
    read.  When no tag has the identity the result is [null], or the error
    that ended the stream. *)
Theorem readUntilTag_first_match (s : stream) (n : Z) (bufferTag : bool)
    (tags : list EbmlTag) (err : option error) :
  n <> 0%Z ->
  decode (if bufferTag then [Some n] else []) s = (tags, err) ->
  (forall (before after : list EbmlTag) (t : EbmlTag),
      tags = before ++ t :: after ->
      Forall (fun b => id b <> n) before -> id t = n ->
      readUntilTag s (Some n) bufferTag = Ok (Some (processTags t))) /\
  (Forall (fun b => id b <> n) tags ->
   readUntilTag s (Some n) bufferTag
   = match err with
     | Some e => Throw e
     | None => Ok None
     end).
Proof.
  intros Hn Hdecode. unfold readUntilTag. cbn [no_tagId].
  destruct (Z.eqb_spec n 0) as [|_]; [contradiction|]. rewrite Hdecode.
  split.
  - intros before after t -> Hbefore Ht.
    rewrite (find_first _ before after t); [reflexivity| |].
    + eapply Forall_impl; [exact Hbefore|]. intros b Hb. cbn. by apply Z.eqb_neq.
    + cbn. by apply Z.eqb_eq.
  - intros Hnone. rewrite find_nothing; [reflexivity|].
    eapply Forall_impl; [exact Hnone|]. intros b Hb. cbn. by apply Z.eqb_neq.
Qed.

Lemma seek_entry_filedAs (acc m : gmap string (option EbmlTag)) (child : EbmlTag) :
  seek_entry acc child = Ok m ->
  m = match filedAs child with
      | Some (name, position) => <[ name := position ]> acc
      | None => acc
      end.
Proof.
  unfold seek_entry, filedAs. destruct (id_is (EbmlTagId "Seek") child); cbn [negb].
  - destruct (getChild (Some child) (EbmlTagId "SeekID")) as [[seekID|]|e]; try discriminate.
    destruct (getChild (Some child) (EbmlTagId "SeekPosition")) as [position|e];
      [|discriminate].
    by intros [= <-].
  - by intros [= <-].
Qed.

Lemma transformHead_lookup (children : list EbmlTag) (name : string) :
  forall acc m : gmap string (option EbmlTag),
    transformHead children acc = Ok m ->
    m !! name = match lastFiled name children with
                | Some position => Some position
                | None => acc !! name
                end.
Proof.
  unfold lastFiled.
  induction children as [|child rest IH]; intros acc m; cbn [transformHead].
  - by intros [= <-].
  - destruct (seek_entry acc child) as [acc'|e] eqn:Hentry; [|discriminate].
    intros Hrest. rewrite (IH acc' m Hrest).
    apply seek_entry_filedAs in Hentry. cbn [omap list_omap].
    destruct (filedAs child) as [[filed position]|]; [|by subst acc'].
    cbn [List.filter fst]. destruct (String.eqb_spec filed name) as [->|Hother].
    + destruct (List.filter _ (omap filedAs rest)) as [|e l] eqn:Hlater.
      * cbn. subst acc'. by rewrite lookup_insert_eq.
      * rewrite last_cons_cons. destruct (last (e :: l)) eqn:Hlast; [reflexivity|].
        by apply last_None in Hlast.
    + destruct (last _); cbn; [reflexivity|]. subst acc'. by rewrite lookup_insert_ne.
Qed.

(** X8: inside one index the last Seek entry of a name wins.  The
    transformed index maps every name to the SeekPosition of the last Seek
    child filed under it; children that are not Seek entries file nothing,
    and a name that no child files is absent. *)
Theorem transformHead_last_entry_wins (children : list EbmlTag)
    (m : gmap string (option EbmlTag)) (name : string) :
  transformHead children ∅ = Ok m ->
  m !! name = lastFiled name children.
Proof.
  intros Hm. rewrite (transformHead_lookup children name ∅ m Hm).
  destruct (lastFiled name children); [reflexivity|]. apply lookup_empty.
Qed.

(** X9: a Seek entry without a SeekID child makes the whole index
    unreadable: the transformation raises a [TypeError], whatever the
    other entries are. *)
Theorem transformHead_malformed_entry (children : list EbmlTag) (child : EbmlTag)
    (acc : gmap string (option EbmlTag)) :
  child ∈ children ->
  id_is (EbmlTagId "Seek") child = true ->
  getChild (Some child) (EbmlTagId "SeekID") = Ok None ->
  transformHead children acc = Throw TypeError.
Proof.
  intros Hin Hseek Hno. revert acc.
  induction children as [|c rest IH]; intros acc; [by apply elem_of_nil in Hin|].
  cbn [transformHead]. apply elem_of_cons in Hin as [<- | Hin].
  - unfold seek_entry. by rewrite Hseek, Hno.
  - destruct (seek_entry acc c) as [acc'|e] eqn:Hentry; [by apply IH|].
    f_equal. unfold seek_entry in Hentry.
    destruct (negb (id_is (EbmlTagId "Seek") c)); [discriminate|].
    unfold getChild in Hentry.
    destruct (Children c) as [cs|]; [|congruence].
    destruct (List.find _ cs); [discriminate|congruence].
Qed.
End Tags.

Lemma processTags_normalises_example :
  @processTags quietHost (@processTags quietHost (master 0xAE [untypedLanguage]))
  = @processTags quietHost (master 0xAE [untypedLanguage]) /\
  exists s, data untypedLanguage = JStr s.
Proof.
  destruct (@processTags_normalises quietHost (master 0xAE [untypedLanguage]))
    as (Hagain & _ & Htextual).
  split; [exact Hagain|].
  apply Htextual; [right; left | reflexivity | reflexivity].
Defined.

Lemma readUntilTag_first_match_example :
  @readUntilTag seekHost (seekFile JUndefined) (Some 0x1043A770%Z) true
  = Ok (Some (@processTags seekHost chaptersElement)) /\
  @readUntilTag seekHost (seekFile (JNum 150)) (Some 0x1043A770%Z) true = Ok None.
Proof.
  split.
  - destruct (@readUntilTag_first_match seekHost (seekFile JUndefined) 0x1043A770%Z true
                [earlyTracks; chaptersElement] None ltac:(discriminate) eq_refl)
      as [Hfound _].
    apply (Hfound [earlyTracks] [] chaptersElement); [reflexivity| |reflexivity].
    constructor; [discriminate|constructor].
  - destruct (@readUntilTag_first_match seekHost (seekFile (JNum 150)) 0x1043A770%Z true
                [lateTracks] None ltac:(discriminate) eq_refl)
      as [_ Hnone].
    apply Hnone. constructor; [discriminate|constructor].
Defined.

Lemma transformHead_last_entry_wins_example :
  @transformHead quietHost repeatedIndex ∅ = Ok repeatedHead /\
  repeatedHead !! "Tracks" = Some (Some (leaf 0x53AC (JNum 999))).
Proof.
  assert (Hhead : @transformHead quietHost repeatedIndex ∅ = Ok repeatedHead)
    by (vm_compute; reflexivity).
  split; [exact Hhead|].
  rewrite (@transformHead_last_entry_wins quietHost repeatedIndex repeatedHead "Tracks" Hhead).
  vm_compute. reflexivity.
Defined.

Lemma transformHead_malformed_entry_example :
  @transformHead quietHost malformedIndex ∅ = Throw TypeError.
Proof.
  apply (@transformHead_malformed_entry quietHost malformedIndex
           (master 0x4DBB [leaf 0x53AC (JNum 5)]) ∅); [|reflexivity|reflexivity].
  right. left.
Defined.

(** ** Construction, destruction and the index chain *)

Section Failures.
Context {H : Host}.

Lemma readSeekHeadTag_rejected (this : Metadata) (tag : string) (e : error) :
  seekHead this = Some (Throw e) -> readSeekHeadTag tag this = (Throw e, this).
Proof.
  intros Hrejected. unfold readSeekHeadTag, bind, get_this, await, lift.
  rewrite Hrejected. reflexivity.
Qed.

Lemma readSeekHeadTag_null_index (this : Metadata) (tag : string) :
  seekHead this = Some (Ok None) -> tagCache this !! toLowerCase tag = None ->
  readSeekHeadTag tag this = (Throw TypeError, this).
Proof.
  intros Hnull Hcache. unfold readSeekHeadTag, bind, get_this, await, lift.
  rewrite Hnull. cbv zeta. rewrite Hcache. reflexivity.
Qed.

(** When no element can be fetched, each getter that has no settled outcome
    to return fails in the same way and leaves the session alone. *)
Lemma getters_fail (this : Metadata) (e : error) :
  (forall tag, readSeekHeadTag tag this = (Throw e, this)) ->
  (duration this = None -> getDuration this = (Throw e, this)) /\
  (tracks this = None -> getTracks this = (Throw e, this)) /\
  getAttachments this = (Throw e, this) /\
  getChapters this = (Throw e, this).
Proof.
  intros Hfetch. repeat split.
  - intros Hnone. unfold getDuration, bind, get_this. rewrite Hnone, Hfetch. reflexivity.
  - intros Hnone. unfold getTracks, bind, get_this. rewrite Hnone, Hfetch. reflexivity.
  - unfold getAttachments, bind. rewrite Hfetch. reflexivity.
  - unfold getChapters, bind. rewrite Hfetch. reflexivity.
Qed.

(** The session after [getSegment] has settled on a fresh session. *)
Lemma getSegment_first (this : Metadata) (found : option EbmlTag) :
  segment this = None ->
  readUntilTag (openStream (implementsSlice this) JUndefined) (EbmlTagId "Segment") false
  = Ok found ->
  getSegment this
  = (Ok found,
     match found with
     | Some seg => set_segmentStart (js_add (absoluteStart seg) (tagHeaderLength seg))
                     (set_opened (opened this ++ [JUndefined]) this)
     | None => set_opened (opened this ++ [JUndefined]) this
     end).
Proof.
  intros Hunset Hread. unfold getSegment, bind, get_this, getFileStream, lift, modify.
  rewrite Hunset, Hread. destruct found; reflexivity.
Qed.

Lemma getSeekHead_first (fuel : nat) (this : Metadata) (seg : option EbmlTag) :
  seekHead this = None -> segment this = Some (Ok seg) ->
  getSeekHead fuel this
  = readSeekHead fuel (openStream (implementsSlice this) JUndefined) (JNum 0)
      (set_opened (opened this ++ [JUndefined]) this).
Proof.
  intros Hunset Hsegment. unfold getSeekHead, bind, get_this, getFileStream, await, lift.
  rewrite Hunset, Hsegment. reflexivity.
Qed.

Lemma readSeekHead_destroyed (fuel : nat) (s : stream) (segmentStart : jsval)
    (this : Metadata) (found : option EbmlTag) :
  destroyed this = true ->
  readUntilTag s (EbmlTagId "SeekHead") true = Ok found ->
  readSeekHead (S fuel) s segmentStart this = (Ok None, this).
Proof.
  intros Hdestroyed Hread. cbn [readSeekHead]. unfold bind, lift, get_this.
  rewrite Hread, Hdestroyed. reflexivity.
Qed.

Lemma readSeekHead_missing (fuel : nat) (s : stream) (segmentStart : jsval)
    (this : Metadata) :
  destroyed this = false ->
  readUntilTag s (EbmlTagId "SeekHead") true = Ok None ->
  readSeekHead (S fuel) s segmentStart this = (Throw (Error "Couldn't find seek head"), this).
Proof.
  intros Halive Hread. cbn [readSeekHead]. unfold bind, lift, get_this.
  rewrite Hread, Halive. reflexivity.
Qed.

(** X10: when the session is destroyed right after construction, the
    index resolves to [null] without an error, and every fetch that goes
    through it then fails with a [TypeError]: [duration] and [tracks]
    settle as rejected, and [getAttachments] and [getChapters] raise. *)
Theorem destroy_right_after_construction (fuel : nat) (slice : bool)
    (seg head : option EbmlTag) :
  readUntilTag (openStream slice JUndefined) (EbmlTagId "Segment") false = Ok seg ->
  readUntilTag (openStream slice JUndefined) (EbmlTagId "SeekHead") true = Ok head ->
  seekHead (constructThenDestroy (S fuel) slice) = Some (Ok None) /\
  duration (constructThenDestroy (S fuel) slice) = Some (Throw TypeError) /\
  tracks (constructThenDestroy (S fuel) slice) = Some (Throw TypeError) /\
  fst (getAttachments (constructThenDestroy (S fuel) slice)) = Throw TypeError /\
  fst (getChapters (constructThenDestroy (S fuel) slice)) = Throw TypeError.
Proof.
  intros Hsegment Hhead. unfold constructThenDestroy, settle.
  rewrite (getSegment_first (set_destroyed true (fresh slice)) seg eq_refl Hsegment).
  set (s1 := set_segment (Ok seg) _).
  assert (Hs1 : implementsSlice s1 = slice /\ destroyed s1 = true /\ seekHead s1 = None /\
                segment s1 = Some (Ok seg) /\ duration s1 = None /\ tracks s1 = None /\
                tagCache s1 = ∅).
  { subst s1. destruct seg; repeat split; reflexivity. }
  destruct Hs1 as (Hslice & Hdestroyed & Hindex & Hseg & Hduration & Htracks & Hcache).
  rewrite (getSeekHead_first _ s1 seg Hindex Hseg), Hslice.
  rewrite (readSeekHead_destroyed fuel _ _ (set_opened (opened s1 ++ [JUndefined]) s1) head
             Hdestroyed Hhead).
  set (s2 := set_seekHead (Ok None) _).
  assert (Hfetch2 : forall tag, readSeekHeadTag tag s2 = (Throw TypeError, s2)).
  { intros tag. apply readSeekHeadTag_null_index; [reflexivity|].
    subst s2. cbn [tagCache set_seekHead set_opened]. rewrite Hcache. apply lookup_empty. }
  destruct (getters_fail s2 TypeError Hfetch2) as (Hd & _).
  rewrite Hd by (subst s2; exact Hduration).
  set (s3 := set_duration (Throw TypeError) s2).
  assert (Hfetch3 : forall tag, readSeekHeadTag tag s3 = (Throw TypeError, s3)).
  { intros tag. apply readSeekHeadTag_null_index; [reflexivity|].
    subst s3 s2. cbn [tagCache set_duration set_seekHead set_opened]. rewrite Hcache.
    apply lookup_empty. }
  destruct (getters_fail s3 TypeError Hfetch3) as (_ & Ht & _).
  rewrite Ht by (subst s3 s2; exact Htracks).
  set (s4 := set_tracks (Throw TypeError) s3).
  assert (Hfetch4 : forall tag, readSeekHeadTag tag s4 = (Throw TypeError, s4)).
  { intros tag. apply readSeekHeadTag_null_index; [reflexivity|].
    subst s4 s3 s2. cbn [tagCache set_tracks set_duration set_seekHead set_opened].
    rewrite Hcache. apply lookup_empty. }
  destruct (getters_fail s4 TypeError Hfetch4) as (_ & _ & Ha & Hc).
  rewrite Ha, Hc. repeat split; reflexivity.
Qed.

(** X11: a file in which no SeekHead element is found cannot be read: the
    index settles as rejected with the error "Couldn't find seek head", and
    so do [duration] and [tracks], and every later [getAttachments] and
    [getChapters]. *)
Theorem construct_without_seekHead (fuel : nat) (slice : bool) (seg : option EbmlTag) :
  readUntilTag (openStream slice JUndefined) (EbmlTagId "Segment") false = Ok seg ->
  readUntilTag (openStream slice JUndefined) (EbmlTagId "SeekHead") true = Ok None ->
  seekHead (construct (S fuel) slice) = Some (Throw (Error "Couldn't find seek head")) /\
  duration (construct (S fuel) slice) = Some (Throw (Error "Couldn't find seek head")) /\
  tracks (construct (S fuel) slice) = Some (Throw (Error "Couldn't find seek head")) /\
  fst (getAttachments (construct (S fuel) slice)) = Throw (Error "Couldn't find seek head") /\
  fst (getChapters (construct (S fuel) slice)) = Throw (Error "Couldn't find seek head").
Proof.
  intros Hsegment Hhead. unfold construct, settle.
  rewrite (getSegment_first (fresh slice) seg eq_refl Hsegment).
  set (s1 := set_segment (Ok seg) _).
  assert (Hs1 : implementsSlice s1 = slice /\ destroyed s1 = false /\ seekHead s1 = None /\
                segment s1 = Some (Ok seg) /\ duration s1 = None /\ tracks s1 = None).
  { subst s1. destruct seg; repeat split; reflexivity. }
  destruct Hs1 as (Hslice & Halive & Hindex & Hseg & Hduration & Htracks).
  rewrite (getSeekHead_first _ s1 seg Hindex Hseg), Hslice.
  rewrite (readSeekHead_missing fuel _ _ (set_opened (opened s1 ++ [JUndefined]) s1)
             Halive Hhead).
  set (e := Error "Couldn't find seek head").
  set (s2 := set_seekHead (Throw e) _).
  destruct (getters_fail s2 e (fun tag => readSeekHeadTag_rejected s2 tag e eq_refl))
    as (Hd & _).
  rewrite Hd by (subst s2; exact Hduration).
  set (s3 := set_duration (Throw e) s2).
  destruct (getters_fail s3 e (fun tag => readSeekHeadTag_rejected s3 tag e eq_refl))
    as (_ & Ht & _).
  rewrite Ht by (subst s3 s2; exact Htracks).
  set (s4 := set_tracks (Throw e) s3).
  destruct (getters_fail s4 e (fun tag => readSeekHeadTag_rejected s4 tag e eq_refl))
    as (_ & _ & Ha & Hc).
  rewrite Ha, Hc. repeat split; reflexivity.
Qed.

Lemma readSeekHead_loops (segmentStart : jsval) (slice : bool)
    (head position : EbmlTag) (children : list EbmlTag)
    (index : gmap string (option EbmlTag)) :
  readUntilTag (openStream slice (js_add (EbmlTag_toPrimitive position) segmentStart))
               (EbmlTagId "SeekHead") true = Ok (Some head) ->
  Children head = Some children ->
  transformHead children ∅ = Ok index ->
  index !! "SeekHead" = Some (Some position) ->
  forall (fuel : nat) (s : stream) (this : Metadata),
    readUntilTag s (EbmlTagId "SeekHead") true = Ok (Some head) ->
    implementsSlice this = slice -> destroyed this = false ->
    fst (readSeekHead fuel s segmentStart this) = Throw OutOfFuel.
Proof.
  intros Hread Hchildren Hindex Hself.
  induction fuel as [|fuel IH]; intros s this Hfirst Hslice Halive; [reflexivity|].
  cbn [readSeekHead]. unfold bind at 1, lift at 1. rewrite Hfirst.
  unfold bind at 1, get_this at 1. rewrite Halive, Hchildren.
  unfold bind at 1, lift at 1. rewrite Hindex, Hself.
  unfold bind at 1, getFileStream at 1. rewrite Hslice.
  unfold bind.
  specialize (IH (openStream slice (js_add (EbmlTag_toPrimitive position) segmentStart))
                 (set_opened
                    (opened this ++ [js_add (EbmlTag_toPrimitive position) segmentStart])
                    this) Hread Hslice Halive).
  destruct (readSeekHead fuel _ segmentStart _) as [[second|e] this'];
    cbn [fst] in *; congruence.
Qed.

(** X12: [readSeekHead] has no guard against an index that leads back to
    itself.  When the stream opened for the referenced index yields an
    index with the same reference again, the resolution has not settled at
    any depth of recursion. *)
Theorem readSeekHead_cycle_never_settles (fuel : nat) (s : stream) (segmentStart : jsval)
    (this : Metadata) (head position : EbmlTag) (children : list EbmlTag)
    (index : gmap string (option EbmlTag)) :
  destroyed this = false ->
  readUntilTag s (EbmlTagId "SeekHead") true = Ok (Some head) ->
  readUntilTag (openStream (implementsSlice this)
                           (js_add (EbmlTag_toPrimitive position) segmentStart))
               (EbmlTagId "SeekHead") true = Ok (Some head) ->
  Children head = Some children ->
  transformHead children ∅ = Ok index ->
  index !! "SeekHead" = Some (Some position) ->
  fst (readSeekHead fuel s segmentStart this) = Throw OutOfFuel.
Proof.
  intros Halive Hfirst Hread Hchildren Hindex Hself.
  by apply (readSeekHead_loops segmentStart (implementsSlice this) head position children
              index Hread Hchildren Hindex Hself fuel s this).
Qed.

(** X13: when the file has a Segment element, construction records
    [absoluteStart + tagHeaderLength] of it as [segmentStart], and a later
    [getSegment] returns the element from the settled promise without
    touching the session. *)
Theorem getSegment_found (fuel : nat) (slice : bool) (seg : EbmlTag) :
  readUntilTag (openStream slice JUndefined) (EbmlTagId "Segment") false = Ok (Some seg) ->
  segment (construct fuel slice) = Some (Ok (Some seg)) /\
  segmentStart (construct fuel slice) = js_add (absoluteStart seg) (tagHeaderLength seg) /\
  getSegment (construct fuel slice) = (Ok (Some seg), construct fuel slice).
Proof.
  intros Hfound.
  assert (Hfields : segment (construct fuel slice) = Some (Ok (Some seg)) /\
                    segmentStart (construct fuel slice)
                    = js_add (absoluteStart seg) (tagHeaderLength seg)).
  { unfold construct, settle.
    rewrite (getSegment_first (fresh slice) (Some seg) eq_refl Hfound).
    set (s1 := set_segment (Ok (Some seg)) _).
    destruct (getSeekHead fuel s1) as [r2 s2] eqn:H2.
    set (s2' := set_seekHead r2 s2).
    destruct (getDuration s2') as [r3 s3] eqn:H3.
    set (s3' := set_duration r3 s3).
    destruct (getTracks s3') as [r4 s4] eqn:H4.
    pose proof (preserves_getSeekHead fuel s1) as P2. rewrite H2 in P2.
    pose proof (preserves_getDuration s2') as P3. rewrite H3 in P3.
    pose proof (preserves_getTracks s3') as P4. rewrite H4 in P4.
    apply core_fields in P2 as (Seg2 & _ & Start2 & _).
    apply core_fields in P3 as (Seg3 & _ & Start3 & _).
    apply core_fields in P4 as (Seg4 & _ & Start4 & _).
    cbn [snd] in *. cbn [segment segmentStart set_tracks].
    rewrite Seg4, Start4. subst s3'. cbn [segment segmentStart set_duration].
    rewrite Seg3, Start3. subst s2'. cbn [segment segmentStart set_seekHead].
    rewrite Seg2, Start2. split; reflexivity. }
  destruct Hfields as [Hsegment Hstart]. split; [exact Hsegment|]. split; [exact Hstart|].
  unfold getSegment, bind, get_this, lift. rewrite Hsegment. reflexivity.
Qed.
End Failures.

Lemma destroy_right_after_construction_example :
  tracks (@construct headlessHost 1 true) = Some (Ok [textTrack 3 "ass"]) /\
  tracks (@constructThenDestroy headlessHost 1 true) = Some (Throw TypeError) /\
  seekHead (@constructThenDestroy headlessHost 1 true) = Some (Ok None).
Proof.
  split; [vm_compute; reflexivity|].
  destruct (@destroy_right_after_construction headlessHost 0 true None
              (Some (@processTags headlessHost (master 0x114D9B74 [seekEntry 0x1654AE6B 100])))
              eq_refl eq_refl) as (Hindex & _ & Htracks & _).
  split; [exact Htracks | exact Hindex].
Defined.

Lemma construct_without_seekHead_example :
  tracks (@construct quietHost 1 true) = Some (Throw (Error "Couldn't find seek head")) /\
  fst (@getChapters quietHost (@construct quietHost 1 true))
  = Throw (Error "Couldn't find seek head").
Proof.
  destruct (@construct_without_seekHead quietHost 0 true None eq_refl eq_refl)
    as (_ & _ & Htracks & _ & Hchapters).
  split; [exact Htracks | exact Hchapters].
Defined.

Lemma readSeekHead_cycle_never_settles_example :
  fst (@readSeekHead rewindingHost 9 [firstIndex] (JNum 0) (fresh true)) = Throw OutOfFuel /\
  seekHead (@construct rewindingHost 9 true) = Some (Throw OutOfFuel).
Proof.
  assert (Hindex : @transformHead rewindingHost
                     [seekEntry 0x1654AE6B 100; seekEntry 0x114D9B74 4000] ∅ = Ok firstHead)
    by (vm_compute; reflexivity).
  split.
  - exact (@readSeekHead_cycle_never_settles rewindingHost 9 [firstIndex] (JNum 0)
             (fresh true) firstIndex (leaf 0x53AC (JNum 4000))
             [seekEntry 0x1654AE6B 100; seekEntry 0x114D9B74 4000] firstHead
             eq_refl eq_refl eq_refl eq_refl Hindex eq_refl).
  - vm_compute. reflexivity.
Defined.

Lemma getSegment_found_example :
  segmentStart (@construct segmentHost 1 true) = JNum 52 /\
  fst (@getSegment segmentHost (@construct segmentHost 1 true)) = Ok (Some segmentElement).
Proof.
  destruct (@getSegment_found segmentHost 1 true segmentElement eq_refl)
    as (_ & Hstart & Hget).
  split; [rewrite Hstart; reflexivity | rewrite Hget; reflexivity].
Defined.

(** ** The second index of a chained container *)

Section Chain.
Context {H : Host}.

(** The streams that a resolution opens when the stream for the referenced
    index yields the referring index again: one per level of recursion,
    each at the same start. *)
Lemma readSeekHead_loops_opened (segmentStart : jsval) (slice : bool)
    (head position : EbmlTag) (children : list EbmlTag)
    (index : gmap string (option EbmlTag)) :
  readUntilTag (openStream slice (js_add (EbmlTag_toPrimitive position) segmentStart))
               (EbmlTagId "SeekHead") true = Ok (Some head) ->
  Children head = Some children ->
  transformHead children ∅ = Ok index ->
  index !! "SeekHead" = Some (Some position) ->
  forall (fuel : nat) (s : stream) (this : Metadata),
    readUntilTag s (EbmlTagId "SeekHead") true = Ok (Some head) ->
    implementsSlice this = slice -> destroyed this = false ->
    readSeekHead fuel s segmentStart this
    = (Throw OutOfFuel,
       set_opened (opened this
                   ++ repeat (js_add (EbmlTag_toPrimitive position) segmentStart) fuel)
                  this).
Proof.
  intros Hread Hchildren Hindex Hself.
  induction fuel as [|fuel IH]; intros s this Hfirst Hslice Halive.
  - cbn [readSeekHead repeat]. unfold throw. rewrite app_nil_r. by destruct this.
  - cbn [readSeekHead]. unfold bind at 1, lift at 1. rewrite Hfirst.
    unfold bind at 1, get_this at 1. rewrite Halive, Hchildren.
    unfold bind at 1, lift at 1. rewrite Hindex, Hself.
    unfold bind at 1, getFileStream at 1. rewrite Hslice.
    unfold bind.
    rewrite (IH (openStream slice (js_add (EbmlTag_toPrimitive position) segmentStart))
                (set_opened
                   (opened this ++ [js_add (EbmlTag_toPrimitive position) segmentStart])
                   this) Hread Hslice Halive).
    cbn [repeat]. unfold set_opened. cbn. by rewrite <- app_assoc.
Qed.
End Chain.

(** C3 on a Blob.  [chainedBlob] is a chained container: its first index
    refers to a second one, which is found at [segmentStart] plus the
    position listed, the sum that [readSeekHeadTag] records.  Yet
    [readSeekHead] adds the SeekPosition element itself, not its [data], to
    the start: every stream it opens for the second index is opened at the
    string ["[object Object]0"], which the Blob takes for its first byte.
    The first index is read again, and at no depth of recursion is an
    index resolved: there is no merged index, and the promise [seekHead] of
    the session does not settle. *)
Theorem readSeekHead_second_index_unread (fuel : nat) :
  segmentStart (@construct blobHost fuel true) = JNum 52 /\
  @js_add blobHost (JNum 52) (data (leaf 0x53AC (JNum 4000))) = JNum 4052 /\
  @readSeekHead blobHost 1 (@openStream blobHost true (JNum 4052)) (JNum 0) (fresh true)
  = (Ok (Some secondHead), fresh true) /\
  @readSeekHead blobHost fuel (@openStream blobHost true JUndefined) (JNum 0) (fresh true)
  = (Throw OutOfFuel, set_opened (repeat (JStr "[object Object]0") fuel) (fresh true)) /\
  seekHead (@construct blobHost fuel true) = Some (Throw OutOfFuel).
Proof.
  assert (Hindex : @transformHead blobHost
                     [seekEntry 0x1654AE6B 100; seekEntry 0x114D9B74 4000] ∅ = Ok firstHead)
    by (vm_compute; reflexivity).
  assert (Hloop : forall (s : @stream blobHost) (this : Metadata),
             @readUntilTag blobHost s (@EbmlTagId blobHost "SeekHead") true
             = Ok (Some firstIndex) ->
             implementsSlice this = true -> destroyed this = false ->
             @readSeekHead blobHost fuel s (JNum 0) this
             = (Throw OutOfFuel,
                set_opened (opened this ++ repeat (JStr "[object Object]0") fuel) this)).
  { intros s this.
    exact (@readSeekHead_loops_opened blobHost (JNum 0) true firstIndex
             (leaf 0x53AC (JNum 4000))
             [seekEntry 0x1654AE6B 100; seekEntry 0x114D9B74 4000] firstHead
             eq_refl eq_refl Hindex eq_refl fuel s this). }
  assert (Hconstruct : segmentStart (@construct blobHost fuel true) = JNum 52 /\
                       seekHead (@construct blobHost fuel true) = Some (Throw OutOfFuel)).
  { unfold construct, settle.
    rewrite (@getSegment_first blobHost (fresh true) (Some segmentElement) eq_refl eq_refl).
    set (s1 := set_segment _ _).
    rewrite (@getSeekHead_first blobHost fuel s1 (Some segmentElement) eq_refl eq_refl).
    rewrite (Hloop (@openStream blobHost (implementsSlice s1) JUndefined)
                   (set_opened (opened s1 ++ [JUndefined]) s1) eq_refl eq_refl eq_refl).
    set (s2 := set_seekHead (Throw OutOfFuel) _).
    destruct (@getters_fail blobHost s2 OutOfFuel
                (fun tag => @readSeekHeadTag_rejected blobHost s2 tag OutOfFuel eq_refl))
      as (Hd & _).
    rewrite Hd by reflexivity.
    set (s3 := set_duration (Throw OutOfFuel) s2).
    destruct (@getters_fail blobHost s3 OutOfFuel
                (fun tag => @readSeekHeadTag_rejected blobHost s3 tag OutOfFuel eq_refl))
      as (_ & Ht & _).
    rewrite Ht by reflexivity.
    split; [vm_compute; reflexivity | reflexivity]. }
  destruct Hconstruct as [Hstart Hhead].
  split; [exact Hstart|]. split; [vm_compute; reflexivity|].
  split; [vm_compute; reflexivity|]. split; [|exact Hhead].
  exact (Hloop (@openStream blobHost true JUndefined) (fresh true)
               eq_refl eq_refl eq_refl).
Qed.

(** ** The track registry *)

Lemma SFeqb_canon (a b : spec_float) :
  SFeqb a b = true <-> canon a = canon b /\ a <> S754_nan.
Proof.
  unfold SFeqb, SFcompare. split.
  - intros Heq.
    destruct a as [sa|sa| |sa ma ea], b as [sb|sb| |sb mb eb]; cbn [canon];
      try discriminate Heq;
      try (destruct sa; discriminate Heq);
      try (destruct sb; discriminate Heq);
      try (split; [reflexivity|discriminate]).
    + destruct sa, sb; cbn in Heq; try discriminate Heq; (split; [reflexivity|discriminate]).
    + change (PosDef.Pos.compare_cont Eq ma mb) with (Pos.compare ma mb) in Heq.
      destruct sa, sb; try discriminate Heq;
        destruct (Z.compare_spec ea eb); try discriminate Heq;
        destruct (Pos.compare_spec ma mb); try discriminate Heq;
        subst; (split; [reflexivity|discriminate]).
  - intros [Hcanon Hnan].
    destruct a as [sa|sa| |sa ma ea], b as [sb|sb| |sb mb eb]; cbn [canon] in Hcanon;
      try discriminate Hcanon; try reflexivity; try congruence.
    + injection Hcanon as ->. destruct sb; reflexivity.
    + injection Hcanon as -> -> ->.
      change (PosDef.Pos.compare_cont Eq mb mb) with (Pos.compare mb mb).
      rewrite Z.compare_refl, Pos.compare_refl. destruct sb; reflexivity.
Qed.

Lemma eqb_canon (a b : float) :
  PrimFloat.eqb a b = true <-> canon (Prim2SF a) = canon (Prim2SF b) /\ Prim2SF a <> S754_nan.
Proof. rewrite FloatAxioms.eqb_spec. apply SFeqb_canon. Qed.

Lemma eqb_euclid (a b c : float) :
  PrimFloat.eqb a c = true -> PrimFloat.eqb b c = true -> PrimFloat.eqb a b = true.
Proof.
  intros [Hac Ha]%eqb_canon [Hbc Hb]%eqb_canon. apply eqb_canon. split; congruence.
Qed.

Lemma eqb_symm (a b : float) : PrimFloat.eqb a b = true -> PrimFloat.eqb b a = true.
Proof.
  intros [Hab Ha]%eqb_canon. apply eqb_canon. split; [congruence|].
  intros Hb. rewrite Hb in Hab. destruct (Prim2SF a); try discriminate Hab. congruence.
Qed.

Lemma eqb_not_nan (a b : float) :
  PrimFloat.eqb a b = true -> PrimFloat.is_nan a = false /\ PrimFloat.is_nan b = false.
Proof.
  intros Hab. unfold PrimFloat.is_nan.
  rewrite (eqb_euclid a a b Hab Hab), (eqb_euclid b b a (eqb_symm a b Hab) (eqb_symm a b Hab)).
  split; reflexivity.
Qed.

Lemma sameValueZero_symm (a b : jsval) :
  sameValueZero a b = true -> sameValueZero b a = true.
Proof.
  destruct a as [| |x|x|x|x], b as [| |y|y|y|y]; cbn [sameValueZero]; try done.
  - destruct x, y; done.
  - intros [Heq | [Hx Hy]%andb_true_iff]%orb_true_iff.
    + by rewrite (eqb_symm x y Heq).
    + rewrite Hx, Hy. by rewrite orb_true_r.
  - rewrite !String.eqb_eq. congruence.
Qed.

Lemma sameValueZero_trans (a b c : jsval) :
  sameValueZero a b = true -> sameValueZero b c = true -> sameValueZero a c = true.
Proof.
  destruct a as [| |x|x|x|x], b as [| |y|y|y|y], c as [| |z|z|z|z];
    cbn [sameValueZero]; try done.
  - destruct x, y, z; done.
  - intros [Hxy | [Hx Hy]%andb_true_iff]%orb_true_iff
           [Hyz | [Hy' Hz]%andb_true_iff]%orb_true_iff.
    + by rewrite (eqb_euclid x z y Hxy (eqb_symm y z Hyz)).
    + apply eqb_not_nan in Hxy as [_ Hy]. congruence.
    + apply eqb_not_nan in Hyz as [Hy' _]. congruence.
    + rewrite Hx, Hz. by rewrite orb_true_r.
  - rewrite !String.eqb_eq. congruence.
Qed.

Section Registry.
Context {H : Host}.

Lemma sameKey_matches (k n lookup : jsval) :
  sameKey k n -> sameValueZero n lookup = true -> sameValueZero k lookup = true.
Proof.
  intros [-> | Hkn] Hlookup; [exact Hlookup|]. by eapply sameValueZero_trans.
Qed.

(** A [get] with a value that the [Map] takes for a track's number finds
    that track. *)
Lemma registryOk_get (m : list (jsval * Track.t)) (k : jsval) (t : Track.t) (n : jsval) :
  registryOk m -> (k, t) ∈ m -> sameValueZero (Track.number t) n = true ->
  Map_get m n = Some t.
Proof.
  induction m as [|[k0 t0] m IH]; intros Hok Hin Hn; [by apply elem_of_nil in Hin|].
  destruct Hok as (Hkey & Hfresh & Hrest). cbn [Map_get].
  apply elem_of_cons in Hin as [[= <- <-] | Hin].
  - by rewrite (sameKey_matches k (Track.number t) n Hkey Hn).
  - assert (Hk : sameValueZero k n = true).
    { clear IH Hfresh Hkey. induction m as [|[k1 t1] m IHm]; [by apply elem_of_nil in Hin|].
      destruct Hrest as (Hkey1 & _ & Hrest).
      apply elem_of_cons in Hin as [[= <- <-] | Hin];
        [by eapply sameKey_matches | by apply IHm]. }
    destruct (sameValueZero k0 n) eqn:Hk0; [|by apply IH].
    rewrite Forall_forall in Hfresh. specialize (Hfresh (k, t) Hin). cbn [fst] in Hfresh.
    rewrite (sameValueZero_trans k0 n k Hk0 (sameValueZero_symm k n Hk)) in Hfresh.
    discriminate.
Qed.

Lemma Map_set_keys {V} (m : list (jsval * V)) (k : jsval) (v : V) (k0 : jsval) :
  Forall (fun e => sameValueZero k0 (fst e) = false) m ->
  sameValueZero k0 k = false ->
  Forall (fun e => sameValueZero k0 (fst e) = false) (Map_set m k v).
Proof.
  intros Hm Hk. induction Hm as [|[k1 v1] m Hk1 Hm IH]; cbn [Map_set].
  - by constructor.
  - destruct (sameValueZero k1 k); constructor; assumption.
Qed.

Lemma registryOk_set (m : list (jsval * Track.t)) (t : Track.t) :
  registryOk m -> registryOk (Map_set m (Track.number t) t).
Proof.
  induction m as [|[k0 t0] m IH]; intros Hok; cbn [Map_set].
  - split; [by left|]. split; [constructor|exact I].
  - destruct Hok as (Hkey & Hfresh & Hrest).
    destruct (sameValueZero k0 (Track.number t)) eqn:Hsame.
    + split; [by right|]. split; assumption.
    + split; [exact Hkey|]. split; [by apply Map_set_keys | by apply IH].
Qed.

Lemma Map_set_values {V} (m : list (jsval * V)) (k : jsval) (v : V) (e : jsval * V) :
  e ∈ Map_set m k v -> e ∈ m \/ snd e = v.
Proof.
  induction m as [|[k0 v0] m IH]; cbn [Map_set].
  - intros ->%list_elem_of_singleton. by right.
  - destruct (sameValueZero k0 k).
    + intros [-> | Hin]%elem_of_cons; [by right | left; by right].
    + intros [-> | Hin]%elem_of_cons; [left; by left|].
      destruct (IH Hin) as [Hold | Hnew]; [left; by right | by right].
Qed.

(** What [track_entry] does to the session: nothing, or one [set] of a
    descriptor that describes the entry under its own number. *)
Lemma track_entry_effect (entry : EbmlTag) (this : Metadata) :
  snd (track_entry entry this) = this \/
  exists t : Track.t,
    (id_is (EbmlTagId "TrackEntry") entry = true -> describes entry t) /\
    snd (track_entry entry this)
    = set_subtitleTracks (Map_set (subtitleTracks this) (Track.number t) t) this.
Proof.
  unfold track_entry, bind, lift, modify.
  destruct (getData (Some entry) (EbmlTagId "TrackType")) as [trackType|e] eqn:Htype;
    [|by left].
  destruct (is_subtitle_type trackType) eqn:Hsubtitle; cbn [negb]; [|by left].
  destruct (getData (Some entry) (EbmlTagId "CodecID")) as [codec|e] eqn:Hcodec; [|by left].
  destruct (js_or codec (JStr "")) as [| | | |codecID|] eqn:Hor; try by left.
  destruct (startsWith codecID "S_TEXT") eqn:Hprefix; [|by left].
  assert (Hstring : codec = JStr codecID).
  { unfold js_or in Hor. destruct (truthy codec); [exact Hor|].
    injection Hor as <-. discriminate Hprefix. }
  destruct (getData (Some entry) (EbmlTagId "TrackNumber")) as [number|e] eqn:Hnumber;
    [|by left].
  destruct (getData (Some entry) (EbmlTagId "Language")) as [language|e] eqn:Hlanguage;
    [|by left].
  destruct (getData (Some entry) (EbmlTagId "Name")) as [name|e]; [|by left].
  destruct (getData (Some entry) (EbmlTagId "CodecPrivate")) as [header|e]; [|by left].
  destruct (if truthy header then _ else _) as [header'|e]; [|by left].
  destruct (match Children entry with
            | Some children => find_r declares_compression children
            | None => Throw TypeError
            end) as [compressed|e]; [|by left].
  right.
  exists {| Track.number := number;
            Track.language := language;
            Track.type := toLowerCase (substring 7 codecID);
            Track.name := if truthy name then Some name else None;
            Track.header := header';
            Track._compressed := bool_decide (is_Some compressed) |}.
  split; [|reflexivity].
  intros Hentry. exists trackType, codecID. cbn [Track.type Track.number Track.language].
  subst codec. repeat split; assumption.
Qed.

Lemma for_each_track_entry (described : Track.t -> Prop) (entries : list EbmlTag) :
  (forall entry t, entry ∈ entries -> describes entry t -> described t) ->
  Forall (fun entry => id_is (EbmlTagId "TrackEntry") entry = true) entries ->
  forall this : Metadata,
    registryOk (subtitleTracks this) ->
    Forall (fun e => described (snd e)) (subtitleTracks this) ->
    registryOk (subtitleTracks (snd (for_each track_entry entries this))) /\
    Forall (fun e => described (snd e)) (subtitleTracks (snd (for_each track_entry entries this))).
Proof.
  induction entries as [|entry entries IH]; intros Hdescribed Hentries this Hok Hall;
    [by split|].
  apply Forall_cons in Hentries as [Hentry Hentries].
  cbn [for_each]. unfold bind.
  assert (Hstep : registryOk (subtitleTracks (snd (track_entry entry this))) /\
                  Forall (fun e => described (snd e))
                         (subtitleTracks (snd (track_entry entry this)))).
  { destruct (track_entry_effect entry this) as [-> | (t & Ht & ->)]; [by split|].
    cbn [subtitleTracks set_subtitleTracks]. split; [by apply registryOk_set|].
    apply Forall_forall. intros e [Hold | ->]%Map_set_values.
    - rewrite Forall_forall in Hall. by apply Hall.
    - apply (Hdescribed entry t); [left | by apply Ht]. }
  destruct (track_entry entry this) as [[[]|e] this'] eqn:Hrun; cbn [snd] in *.
  - apply IH; [|exact Hentries|tauto|tauto].
    intros entry' t Hin. apply Hdescribed. by right.
  - exact Hstep.
Qed.

Lemma readSeekHeadTag_registry (tag : string) (this : Metadata) :
  subtitleTracks (snd (readSeekHeadTag tag this)) = subtitleTracks this.
Proof.
  unfold readSeekHeadTag, bind, get_this, await, lift, getFileStream, modify, ret, throw.
  destruct (seekHead this) as [[[index|]|e]|]; cbv zeta;
    destruct (tagCache this !! toLowerCase tag); try reflexivity.
  destruct (index !! tag) as [[position|]|]; try reflexivity.
  cbn [implementsSlice set_opened].
  destruct (readUntilTag _ _ _) as [[child|]|e]; reflexivity.
Qed.

(** The registry after [getTracks] has run on a session without one. *)
Lemma getTracks_run (this s' : Metadata) (ts : list Track.t) :
  tracks this = None -> subtitleTracks this = [] ->
  getTracks this = (Ok ts, s') ->
  ts = Map_values (subtitleTracks s') /\
  registryOk (subtitleTracks s') /\
  forall t, t ∈ ts ->
    exists (tracksTag entry : EbmlTag) (children : list EbmlTag),
      fst (readSeekHeadTag "Tracks" this) = Ok (FTag tracksTag) /\
      Children tracksTag = Some children /\ entry ∈ children /\ describes entry t.
Proof.
  intros Hunset Hempty. unfold getTracks, bind at 1, get_this at 1. rewrite Hunset.
  unfold bind at 1.
  pose proof (readSeekHeadTag_registry "Tracks" this) as Hregistry.
  destruct (readSeekHeadTag "Tracks" this) as [[[tracksTag| |]|e] s1]; cbn [snd fst] in *;
    try discriminate;
    try (intros [= <- <-]; rewrite Hregistry, Hempty;
         split; [reflexivity|]; split; [exact I|]; intros t Hin; by apply elem_of_nil in Hin).
  destruct (Children tracksTag) as [[|c cs]|] eqn:Hchildren;
    try (intros [= <- <-]; rewrite Hregistry, Hempty;
         split; [reflexivity|]; split; [exact I|]; intros t Hin; by apply elem_of_nil in Hin).
  set (entries := List.filter (id_is (EbmlTagId "TrackEntry")) (c :: cs)).
  destruct (for_each_track_entry
              (fun t => exists entry, entry ∈ c :: cs /\ describes entry t) entries) with
    (this := s1) as [Hok Hall].
  { intros entry t Hin Hdescribes. exists entry. split; [|exact Hdescribes].
    apply list_elem_of_In, filter_In in Hin as [Hin _]. by apply list_elem_of_In. }
  { apply Forall_forall. intros entry Hin.
    by apply list_elem_of_In, filter_In in Hin as [_ Hin]. }
  { rewrite Hregistry, Hempty. exact I. }
  { rewrite Hregistry, Hempty. constructor. }
  unfold bind, get_this, ret.
  destruct (for_each track_entry entries s1) as [[[]|e] s2]; cbn [snd] in *; [|discriminate].
  intros [= <- <-]. split; [reflexivity|]. split; [exact Hok|].
  intros t Hin. unfold Map_values in Hin. apply list_elem_of_fmap in Hin as ([k t'] & -> & Hin).
  rewrite Forall_forall in Hall. destruct (Hall _ Hin) as (entry & Hentry & Hdescribes).
  exists tracksTag, entry, (c :: cs). done.
Qed.

(** X14: after [getTracks] has run on a session that had no registry,
    every track it returns is found in the registry by any value that
    [Map] takes for its number, so a block carrying that number is matched
    to it; and no two tracks returned have the same number. *)
Theorem getTracks_registers (this s' : Metadata) (ts : list Track.t) :
  tracks this = None -> subtitleTracks this = [] ->
  getTracks this = (Ok ts, s') ->
  (forall (t : Track.t) (n : jsval),
      t ∈ ts -> sameValueZero (Track.number t) n = true ->
      Map_get (subtitleTracks s') n = Some t) /\
  (forall (i j : nat) (t u : Track.t),
      i < j -> ts !! i = Some t -> ts !! j = Some u ->
      sameValueZero (Track.number t) (Track.number u) = false).
Proof.
  intros Hunset Hempty Hrun.
  destruct (getTracks_run this s' ts Hunset Hempty Hrun) as (-> & Hok & _).
  split.
  - intros t n Hin Hn. unfold Map_values in Hin.
    apply list_elem_of_fmap in Hin as ([k t'] & -> & Hin). by eapply registryOk_get.
  - revert Hok. generalize (subtitleTracks s'). clear.
    intros m. induction m as [|[k0 t0] m IH]; intros Hok i j t u Hij Hi Hj; [discriminate|].
    destruct Hok as (Hkey & Hfresh & Hrest). destruct j as [|j]; [lia|].
    destruct i as [|i]; [|apply (IH Hrest i j); [lia|exact Hi|exact Hj]].
    cbn in Hi. injection Hi as <-.
    change ((snd <$> m) !! j = Some u) in Hj. rewrite list_lookup_fmap in Hj.
    destruct (m !! j) as [[k u']|] eqn:Hlookup; [|discriminate]. injection Hj as <-.
    destruct (sameValueZero (Track.number t0) (Track.number u')) eqn:Hsame; [|reflexivity].
    rewrite Forall_forall in Hfresh.
    specialize (Hfresh (k, u') (list_elem_of_lookup_2 _ _ _ Hlookup)). cbn [fst] in Hfresh.
    assert (Hk : sameKey k (Track.number u')).
    { clear -Hrest Hlookup. revert j Hlookup.
      induction m as [|[k1 t1] m IHm]; intros j Hlookup; [discriminate|].
      destruct Hrest as (Hkey1 & _ & Hrest). destruct j as [|j].
      - by injection Hlookup as -> ->.
      - by apply (IHm Hrest j). }
    assert (Hmatch : sameValueZero k0 (Track.number u') = true)
      by (by eapply sameKey_matches).
    destruct Hk as [-> | Hk]; [congruence|].
    rewrite (sameValueZero_trans _ _ _ Hmatch (sameValueZero_symm _ _ Hk)) in Hfresh.
    discriminate.
Qed.

(** X15: every track that [getTracks] returns stems from a TrackEntry
    child of the Tracks element whose TrackType is 0x11 and whose CodecID
    starts with [S_TEXT]; its [type] is the rest of that identifier from
    position 7 on, in lower case. *)
Theorem getTracks_only_text_subtitles (this s' : Metadata) (ts : list Track.t) :
  tracks this = None -> subtitleTracks this = [] ->
  getTracks this = (Ok ts, s') ->
  forall t, t ∈ ts ->
    exists (tracksTag entry : EbmlTag) (children : list EbmlTag),
      fst (readSeekHeadTag "Tracks" this) = Ok (FTag tracksTag) /\
      Children tracksTag = Some children /\ entry ∈ children /\ describes entry t.
Proof.
  intros Hunset Hempty Hrun.
  by destruct (getTracks_run this s' ts Hunset Hempty Hrun) as (_ & _ & Hall).
Qed.
End Registry.

Lemma getTracks_registers_example :
  Map_get (subtitleTracks (snd (@getTracks headlessHost unreadSession))) (JNum 3)
  = Some (textTrack 3 "ass").
Proof.
  assert (Hrun : @getTracks headlessHost unreadSession
                 = (Ok [textTrack 3 "ass"], snd (@getTracks headlessHost unreadSession)))
    by (vm_compute; reflexivity).
  destruct (@getTracks_registers headlessHost unreadSession _ _ eq_refl eq_refl Hrun)
    as [Hget _].
  apply Hget; [left|reflexivity].
Defined.

Lemma getTracks_only_text_subtitles_example :
  exists (tracksTag entry : EbmlTag) (children : list EbmlTag),
    fst (@readSeekHeadTag headlessHost "Tracks" unreadSession) = Ok (FTag tracksTag) /\
    Children tracksTag = Some children /\ entry ∈ children /\
    @describes headlessHost entry (textTrack 3 "ass").
Proof.
  assert (Hrun : @getTracks headlessHost unreadSession
                 = (Ok [textTrack 3 "ass"], snd (@getTracks headlessHost unreadSession)))
    by (vm_compute; reflexivity).
  apply (@getTracks_only_text_subtitles headlessHost unreadSession _ _ eq_refl eq_refl Hrun).
  left.
Defined.

(** ** The fields of an event, attachments and editions *)

Section Strings.

Lemma split_nonempty (sep : ascii) (s : string) : split sep s <> [].
Proof.
  destruct s as [|c s]; cbn [split]; [discriminate|].
  destruct (Ascii.eqb c sep); [discriminate|]. destruct (split sep s); discriminate.
Qed.

Lemma append_empty (s : string) : String.append "" s = s.
Proof. reflexivity. Qed.

Lemma append_String (c : ascii) (a b : string) :
  String.append (String c a) b = String c (String.append a b).
Proof. reflexivity. Qed.

Lemma split_free (sep : ascii) (field rest : string) :
  freeOf sep field = true ->
  split sep (String.append field (String sep rest)) = field :: split sep rest.
Proof.
  induction field as [|c field IH]; cbn [freeOf]; intros Hfree.
  - rewrite append_empty. cbn [split]. by rewrite Ascii.eqb_refl.
  - apply andb_true_iff in Hfree as [Hc Hfree]. apply negb_true_iff in Hc.
    rewrite append_String. cbn [split]. rewrite Hc, (IH Hfree). reflexivity.
Qed.

Lemma join_split (sep : ascii) (s : string) :
  join (String sep EmptyString) (split sep s) = s.
Proof.
  induction s as [|c s IH]; [reflexivity|]. cbn [split].
  pose proof (split_nonempty sep s) as Hne.
  destruct (Ascii.eqb_spec c sep) as [->|Hc].
  - destruct (split sep s) as [|h t]; [done|].
    change (join (String sep "") ("" :: h :: t))
      with (String sep (join (String sep "") (h :: t))).
    by rewrite IH.
  - destruct (split sep s) as [|h t]; [done|].
    destruct t as [|h' t]; [cbn [join] in *; by rewrite IH|].
    change (join (String sep "") (String c h :: h' :: t))
      with (String c (join (String sep "") (h :: h' :: t))).
    by rewrite IH.
Qed.

Lemma join_more (sep v : string) (rest : list string) :
  rest <> [] -> join sep (v :: rest) = String.append v (String.append sep (join sep rest)).
Proof. destruct rest; [done|reflexivity]. Qed.

(** Splitting a line made of comma-free fields and a last field gives the
    fields back, followed by the pieces of the last field. *)
Lemma split_join_fields (sep : ascii) (fields : list string) (last : string) :
  Forall (fun f => freeOf sep f = true) fields ->
  split sep (join (String sep EmptyString) (fields ++ [last])) = fields ++ split sep last.
Proof.
  intros Hfree. induction Hfree as [|f fields Hf _ IH]; [reflexivity|].
  cbn [app]. rewrite join_more by (by destruct fields).
  rewrite append_String, append_empty.
  by rewrite (split_free sep f _ Hf), IH.
Qed.
End Strings.

Section Events.
Context {H : Host}.

Lemma elem_of_SSA_TYPES (type : string) : type ∈ SSA_TYPES -> type = "ssa" \/ type = "ass".
Proof.
  unfold SSA_TYPES. intros [-> | [-> | Hnil%elem_of_nil]%elem_of_cons]%elem_of_cons; tauto.
Qed.

Lemma subtitleObject_keys trk block payload blockDuration scale cct :
  dom (subtitleObject trk block payload blockDuration scale cct)
  = list_to_set (["text"; "time"; "duration"] ++ ssaKeysOf (Track.type trk)).
Proof.
  unfold subtitleObject, ssaKeysOf. case_bool_decide as Hfamily.
  - apply elem_of_SSA_TYPES in Hfamily as [-> | ->]; cbn;
      rewrite !dom_insert_L, dom_empty_L; set_solver.
  - cbn. rewrite !dom_insert_L, dom_empty_L. set_solver.
Qed.

(** X16: the keys of an emitted event depend on the subtype of the track
    alone: [text], [time] and [duration], and for the scriptable-subtitle
    family the keys of [SSA_KEYS] from position 1 ([ass]) or 2 ([ssa]) to
    7, whether or not the line has that many fields.  Outside the family
    [text] is the whole decoded payload. *)
Theorem handleBlockGroup_event_keys (this : Metadata) (chunk block : EbmlTag)
    (trk : Track.t) (settled : list Track.t) (blockDuration scale clusterTimecode : jsval)
    (bytes : list byte) :
  tracks this = Some (Ok settled) ->
  getChild (Some chunk) (EbmlTagId "Block") = Ok (Some block) ->
  getData (Some chunk) (EbmlTagId "BlockDuration") = Ok blockDuration ->
  Map_get (subtitleTracks this) (track block) = Some trk ->
  (if Track._compressed trk then inflateSync (payload block) else Ok (payload block))
    = Ok bytes ->
  exists subtitle : gmap string jsval,
    handleBlockGroup chunk scale clusterTimecode this
    = (Ok tt, set_emitted (emitted this ++ [(subtitle, track block)]) this) /\
    dom subtitle = list_to_set (["text"; "time"; "duration"] ++ ssaKeysOf (Track.type trk)) /\
    (Track.type trk ∉ SSA_TYPES -> subtitle !! "text" = Some (JStr (arr2text bytes))).
Proof.
  intros Htracks Hblock Hduration Htrk Hpayload.
  exists (subtitleObject trk block bytes blockDuration scale clusterTimecode).
  split; [by eapply handleBlockGroup_emits|]. split; [apply subtitleObject_keys|].
  intros Hplain. unfold subtitleObject. rewrite bool_decide_eq_false_2 by exact Hplain.
  by simplify_map_eq.
Qed.

Lemma subtitleObject_ssa_key trk block payload blockDuration scale cct (i : nat)
    (key : string) :
  Track.type trk ∈ SSA_TYPES ->
  (if String.eqb (Track.type trk) "ssa" then 2 else 1) <= i < 8 ->
  SSA_KEYS !! i = Some key ->
  subtitleObject trk block payload blockDuration scale cct !! key
  = Some (from_option JStr JUndefined (split "," (arr2text payload) !! i)).
Proof.
  intros Hfamily Hi Hkey. unfold subtitleObject. rewrite bool_decide_eq_true_2 by exact Hfamily.
  rewrite lookup_insert_ne.
  - apply ssa_fields_lookup; [destruct (String.eqb _ _); auto|exact Hi|exact Hkey].
  - intros <-. apply (SSA_KEYS_text i); [lia|exact Hkey].
Qed.

Lemma subtitleObject_ssa_text trk block payload blockDuration scale cct :
  Track.type trk ∈ SSA_TYPES ->
  subtitleObject trk block payload blockDuration scale cct !! "text"
  = Some (JStr (join "," (drop 8 (split "," (arr2text payload))))).
Proof.
  intros Hfamily. unfold subtitleObject. rewrite bool_decide_eq_true_2 by exact Hfamily.
  apply lookup_insert_eq.
Qed.

(** X17: a line made of eight comma-free fields and a dialogue text comes
    apart as it was put together: each key assigned holds the field at its
    position, and [text] is the dialogue text unchanged, commas included. *)
Theorem handleBlockGroup_ssa_round_trip (this : Metadata) (chunk block : EbmlTag)
    (trk : Track.t) (settled : list Track.t) (blockDuration scale clusterTimecode : jsval)
    (bytes : list byte) (fields : list string) (text : string) :
  tracks this = Some (Ok settled) ->
  getChild (Some chunk) (EbmlTagId "Block") = Ok (Some block) ->
  getData (Some chunk) (EbmlTagId "BlockDuration") = Ok blockDuration ->
  Map_get (subtitleTracks this) (track block) = Some trk ->
  (if Track._compressed trk then inflateSync (payload block) else Ok (payload block))
    = Ok bytes ->
  Track.type trk ∈ SSA_TYPES ->
  length fields = 8 ->
  Forall (fun f => freeOf "," f = true) fields ->
  arr2text bytes = join "," (fields ++ [text]) ->
  exists subtitle : gmap string jsval,
    handleBlockGroup chunk scale clusterTimecode this
    = (Ok tt, set_emitted (emitted this ++ [(subtitle, track block)]) this) /\
    subtitle !! "text" = Some (JStr text) /\
    (forall (i : nat) (key : string),
        (if String.eqb (Track.type trk) "ssa" then 2 else 1) <= i < 8 ->
        SSA_KEYS !! i = Some key ->
        subtitle !! key = JStr <$> fields !! i).
Proof.
  intros Htracks Hblock Hduration Htrk Hpayload Hfamily Hlength Hfree Hline.
  exists (subtitleObject trk block bytes blockDuration scale clusterTimecode).
  split; [by eapply handleBlockGroup_emits|].
  assert (Hsplit : split "," (arr2text bytes) = fields ++ split "," text)
    by (rewrite Hline; by apply split_join_fields).
  split.
  - rewrite subtitleObject_ssa_text by exact Hfamily. rewrite Hsplit.
    rewrite drop_app_length' by (symmetry; exact Hlength). by rewrite join_split.
  - intros i key Hi Hkey.
    rewrite (subtitleObject_ssa_key _ _ _ _ _ _ i key Hfamily Hi Hkey), Hsplit.
    rewrite lookup_app_l by lia.
    destruct (fields !! i) as [f|] eqn:Hf; [reflexivity|].
    apply lookup_ge_None in Hf. lia.
Qed.

(** X18: a line of the scriptable-subtitle family with fewer than nine
    fields yields an event whose [text] is empty; the keys past its last
    field are [undefined]. *)
Theorem handleBlockGroup_ssa_short_line (this : Metadata) (chunk block : EbmlTag)
    (trk : Track.t) (settled : list Track.t) (blockDuration scale clusterTimecode : jsval)
    (bytes : list byte) :
  tracks this = Some (Ok settled) ->
  getChild (Some chunk) (EbmlTagId "Block") = Ok (Some block) ->
  getData (Some chunk) (EbmlTagId "BlockDuration") = Ok blockDuration ->
  Map_get (subtitleTracks this) (track block) = Some trk ->
  (if Track._compressed trk then inflateSync (payload block) else Ok (payload block))
    = Ok bytes ->
  Track.type trk ∈ SSA_TYPES ->
  length (split "," (arr2text bytes)) <= 8 ->
  exists subtitle : gmap string jsval,
    handleBlockGroup chunk scale clusterTimecode this
    = (Ok tt, set_emitted (emitted this ++ [(subtitle, track block)]) this) /\
    subtitle !! "text" = Some (JStr "") /\
    (forall (i : nat) (key : string),
        (if String.eqb (Track.type trk) "ssa" then 2 else 1) <= i < 8 ->
        length (split "," (arr2text bytes)) <= i ->
        SSA_KEYS !! i = Some key ->
        subtitle !! key = Some JUndefined).
Proof.
  intros Htracks Hblock Hduration Htrk Hpayload Hfamily Hshort.
  exists (subtitleObject trk block bytes blockDuration scale clusterTimecode).
  split; [by eapply handleBlockGroup_emits|]. split.
  - rewrite subtitleObject_ssa_text by exact Hfamily.
    by rewrite drop_ge by exact Hshort.
  - intros i key Hi Hbeyond Hkey.
    rewrite (subtitleObject_ssa_key _ _ _ _ _ _ i key Hfamily Hi Hkey).
    by rewrite (proj2 (lookup_ge_None _ _) Hbeyond).
Qed.
End Events.

Section Attachments.
Context {H : Host}.

Lemma attachment_master (chunk : EbmlTag) :
  is_Some (Children chunk) -> attachment chunk = Ok (attachmentOf chunk).
Proof.
  intros Hmaster. unfold attachment, attachmentOf.
  by rewrite !getData_readable by exact Hmaster.
Qed.

Lemma attachment_leaf (chunk : EbmlTag) :
  Children chunk = None -> attachment chunk = Throw TypeError.
Proof. intros Hleaf. unfold attachment, getData, getChild. by rewrite Hleaf. Qed.

Lemma map_r_attachments (children : list EbmlTag) :
  (Forall (fun c => is_Some (Children c)) children ->
   map_r attachment children = Ok (map attachmentOf children)) /\
  (forall c, c ∈ children -> Children c = None ->
             map_r attachment children = Throw TypeError).
Proof.
  induction children as [|c0 children [IHall IHleaf]]; split.
  - reflexivity.
  - intros c Hin. by apply elem_of_nil in Hin.
  - intros [Hc0 Hrest]%Forall_cons. cbn [map_r map].
    by rewrite (attachment_master c0 Hc0), (IHall Hrest).
  - intros c Hin Hleaf. cbn [map_r].
    destruct (Children c0) as [cs|] eqn:Hc0; [|by rewrite (attachment_leaf c0 Hc0)].
    rewrite (attachment_master c0) by (by rewrite Hc0).
    apply elem_of_cons in Hin as [-> | Hin]; [congruence|].
    by rewrite (IHleaf c Hin Hleaf).
Qed.

(** X19: [getAttachments] makes one attachment of every child of the
    Attachments element, in order and whatever the identity of the child,
    a missing field being [undefined]; a child that is not a master element
    makes it raise a [TypeError]. *)
Theorem getAttachments_one_per_child (this s1 : Metadata) (attachments : EbmlTag)
    (children : list EbmlTag) :
  readSeekHeadTag "Attachments" this = (Ok (FTag attachments), s1) ->
  Children attachments = Some children ->
  (Forall (fun c => is_Some (Children c)) children ->
   getAttachments this = (Ok (map attachmentOf children), s1)) /\
  (forall c, c ∈ children -> Children c = None ->
             getAttachments this = (Throw TypeError, s1)).
Proof.
  intros Hfetch Hchildren. unfold getAttachments, bind, lift.
  rewrite Hfetch, Hchildren. destruct (map_r_attachments children) as [Hall Hleaf].
  split.
  - intros Hmasters. by rewrite (Hall Hmasters).
  - intros c Hin Hc. by rewrite (Hleaf c Hin Hc).
Qed.

(** X20: a Chapters element that has children, none of which is an
    edition, makes [getChapters] raise a [TypeError]. *)
Theorem getChapters_without_edition (this s1 : Metadata) (chaptersTag c : EbmlTag)
    (cs : list EbmlTag) :
  readSeekHeadTag "Chapters" this = (Ok (FTag chaptersTag), s1) ->
  truthy (timecodeScale this) = true ->
  Children chaptersTag = Some (c :: cs) ->
  Forall (fun child => id_is (EbmlTagId "EditionEntry") child = false) (c :: cs) ->
  getChapters this = (Throw TypeError, s1).
Proof.
  intros Hfetch Hscale Hchildren Hnone.
  pose proof (preserves_readSeekHeadTag "Chapters" this) as Hcore.
  rewrite Hfetch in Hcore. cbn [snd] in Hcore.
  apply core_fields in Hcore as (_ & _ & _ & _ & _ & _ & Hsame & _).
  unfold getChapters. unfold bind at 1. rewrite Hfetch.
  unfold bind at 1. rewrite chapterTimecodeScale_known by (by rewrite Hsame).
  rewrite Hchildren. unfold bind, lift, visibleAtoms.
  assert (Hfilter : List.filter (id_is (EbmlTagId "EditionEntry")) (c :: cs) = []).
  { clear Hchildren. induction Hnone as [|child rest Hchild _ IH]; [reflexivity|].
    cbn [List.filter]. rewrite Hchild. exact IH. }
  rewrite Hfilter. reflexivity.
Qed.
End Attachments.

Lemma handleBlockGroup_event_keys_example :
  exists subtitle : gmap string jsval,
    emitted (snd (@handleBlockGroup quietHost (blockGroup 3 50 40 "Hello, world") (JNum 1)
                    (JNum 1000) (sessionWith (textTrack 3 "utf8"))))
    = [(subtitle, JNum 3)] /\
    dom subtitle = {[ "text"; "time"; "duration" ]} /\
    subtitle !! "text" = Some (JStr "Hello, world").
Proof.
  destruct (@handleBlockGroup_event_keys quietHost (sessionWith (textTrack 3 "utf8"))
              (blockGroup 3 50 40 "Hello, world") (blockTag 3 50 "Hello, world")
              (textTrack 3 "utf8") [textTrack 3 "utf8"] (JNum 40) (JNum 1) (JNum 1000)
              (String.list_byte_of_string "Hello, world")
              eq_refl eq_refl eq_refl eq_refl eq_refl)
    as (subtitle & Hrun & Hkeys & Htext).
  exists subtitle. split; [rewrite Hrun; reflexivity|]. split.
  - rewrite Hkeys. cbn. set_solver.
  - apply Htext. unfold SSA_TYPES. cbn.
    intros [Hssa | [Hass | Hnil%elem_of_nil]%elem_of_cons]%elem_of_cons;
      [discriminate Hssa | discriminate Hass | exact Hnil].
Defined.

Lemma handleBlockGroup_ssa_round_trip_example :
  exists subtitle : gmap string jsval,
    emitted (snd (@handleBlockGroup quietHost (blockGroup 3 50 40 dialogue) (JNum 1)
                    (JNum 1000) (sessionWith (textTrack 3 "ass"))))
    = [(subtitle, JNum 3)] /\
    subtitle !! "text" = Some (JStr "Hello, world") /\
    subtitle !! "style" = Some (JStr "Default").
Proof.
  destruct (@handleBlockGroup_ssa_round_trip quietHost (sessionWith (textTrack 3 "ass"))
              (blockGroup 3 50 40 dialogue) (blockTag 3 50 dialogue)
              (textTrack 3 "ass") [textTrack 3 "ass"] (JNum 40) (JNum 1) (JNum 1000)
              (String.list_byte_of_string dialogue)
              ["0"; "1"; "Default"; ""; "0"; "0"; "0"; ""] "Hello, world"
              eq_refl eq_refl eq_refl eq_refl eq_refl)
    as (subtitle & Hrun & Htext & Hfields).
  - right. left.
  - reflexivity.
  - repeat (constructor; [reflexivity|]). constructor.
  - reflexivity.
  - exists subtitle. split; [rewrite Hrun; reflexivity|]. split; [exact Htext|].
    apply (Hfields 2 "style"); [cbn; lia | reflexivity].
Defined.

Lemma handleBlockGroup_ssa_short_line_example :
  exists subtitle : gmap string jsval,
    emitted (snd (@handleBlockGroup quietHost (blockGroup 3 50 40 "0,1,Default") (JNum 1)
                    (JNum 1000) (sessionWith (textTrack 3 "ass"))))
    = [(subtitle, JNum 3)] /\
    subtitle !! "text" = Some (JStr "") /\
    subtitle !! "effect" = Some JUndefined.
Proof.
  destruct (@handleBlockGroup_ssa_short_line quietHost (sessionWith (textTrack 3 "ass"))
              (blockGroup 3 50 40 "0,1,Default") (blockTag 3 50 "0,1,Default")
              (textTrack 3 "ass") [textTrack 3 "ass"] (JNum 40) (JNum 1) (JNum 1000)
              (String.list_byte_of_string "0,1,Default")
              eq_refl eq_refl eq_refl eq_refl eq_refl)
    as (subtitle & Hrun & Htext & Hfields).
  - right. left.
  - cbn. lia.
  - exists subtitle. split; [rewrite Hrun; reflexivity|]. split; [exact Htext|].
    apply (Hfields 7 "effect"); [cbn; lia | cbn; lia | reflexivity].
Defined.

Lemma getAttachments_one_per_child_example :
  fst (@getAttachments attachmentHost attachmentSession)
  = Ok [ {| Attachment.filename := JStr "a.ttf"; Attachment.mimetype := JStr "font/ttf";
            Attachment.data_ := JBytes [x01] |};
         {| Attachment.filename := JUndefined; Attachment.mimetype := JUndefined;
            Attachment.data_ := JUndefined |} ].
Proof.
  assert (Hfetch : @readSeekHeadTag attachmentHost "Attachments" attachmentSession
                   = (Ok (FTag (set_absoluteStart (JNum 100) attachmentsElement)),
                      snd (@readSeekHeadTag attachmentHost "Attachments" attachmentSession)))
    by (vm_compute; reflexivity).
  destruct (@getAttachments_one_per_child attachmentHost attachmentSession _ _ _
              Hfetch eq_refl) as [Hall _].
  rewrite Hall; [reflexivity|].
  repeat (constructor; [by eexists|]). constructor.
Defined.

Lemma getChapters_without_edition_example :
  fst (@getChapters editionlessHost chapterSession) = Throw TypeError.
Proof.
  assert (Hfetch : @readSeekHeadTag editionlessHost "Chapters" chapterSession
                   = (Ok (FTag (set_absoluteStart (JNum 100)
                                  (master 0x1043A770 [master 0xEC []]))),
                      snd (@readSeekHeadTag editionlessHost "Chapters" chapterSession)))
    by (vm_compute; reflexivity).
  rewrite (@getChapters_without_edition editionlessHost chapterSession _ _ (master 0xEC []) []
             Hfetch eq_refl eq_refl); [reflexivity|].
  constructor; [reflexivity|constructor].
Defined.

(** ** The streaming loop *)

Section Streaming.
Context {H : Host}.

Lemma tagMap_session_stable (tag : EbmlTag) (st : Frame * Metadata) :
  stable (snd (tagMap tag st)) = stable (snd st).
Proof.
  destruct st as [fr this]. unfold tagMap.
  destruct (id_is (EbmlTagId "BlockGroup") tag).
  - cbn [snd].
    pose proof (preserves_handleBlockGroup tag (f_timecodeScale fr)
                  (f_currentClusterTimecode fr) this) as Hkept.
    apply (f_equal stable) in Hkept. exact Hkept.
  - destruct (id_is (EbmlTagId "Timecode") tag); [reflexivity|].
    destruct (id_is (EbmlTagId "TimecodeScale") tag); reflexivity.
Qed.

Lemma dispatch_session_stable (tags : list EbmlTag) (st : Frame * Metadata) :
  stable (snd (fold_left (fun st tag => tagMap tag st) tags st)) = stable (snd st).
Proof.
  revert st. induction tags as [|tag tags IH]; intros st; [reflexivity|].
  cbn [fold_left]. rewrite IH. apply tagMap_session_stable.
Qed.

Lemma decodeAndDispatch_session_stable (bytes : list byte) (st : Frame * Metadata) :
  stable (snd (snd (decodeAndDispatch bytes st))) = stable (snd st).
Proof.
  destruct st as [fr this]. unfold decodeAndDispatch.
  destruct (parseTags (f_decoder fr) bytes) as [[tags err] decoder']. cbn [snd].
  rewrite dispatch_session_stable. reflexivity.
Qed.

Lemma scan_session_stable (chunk : list byte) (positions : list nat) (st : Frame * Metadata) :
  stable (snd (snd (scan chunk positions st))) = stable (snd st).
Proof.
  revert st. induction positions as [|i rest IH]; intros st; [reflexivity|].
  rewrite scan_cons.
  destruct (isClusterMarker chunk i && firstTagIsValid chunk i); [|apply IH].
  pose proof (decodeAndDispatch_session_stable (drop i chunk)
                (set_f_stable true (fst st), snd st)) as Hdecode.
  destruct (decodeAndDispatch (drop i chunk) (set_f_stable true (fst st), snd st))
    as [[[]|e] st']; cbn [snd] in *.
  - rewrite IH. exact Hdecode.
  - exact Hdecode.
Qed.

Lemma parseChunk_session_stable (chunk : list byte) (st : Frame * Metadata) :
  stable (snd (snd (parseChunk chunk st))) = stable (snd st).
Proof.
  unfold parseChunk. destruct (negb (f_stable (fst st)));
    [apply scan_session_stable | apply decodeAndDispatch_session_stable].
Qed.

Lemma parseStream_loop_session_stable (consumer : list byte -> Metadata -> Metadata)
    (chunks : list (list byte)) (st : Frame * Metadata) :
  (forall c m, stable (consumer c m) = stable m) ->
  stable (snd (snd (parseStream_loop consumer chunks st))) = stable (snd st).
Proof.
  intros Hconsumer. revert st.
  induction chunks as [|chunk rest IH]; intros st; [reflexivity|].
  cbn [parseStream_loop].
  pose proof (parseChunk_session_stable chunk st) as Hchunk.
  destruct (parseChunk chunk st) as [[[]|e] [fr this]]; cbn [snd] in *; [|exact Hchunk].
  destruct (destroyed (consumer chunk this)); cbn [snd].
  - by rewrite Hconsumer.
  - specialize (IH (fr, consumer chunk this)).
    destruct (parseStream_loop consumer rest (fr, consumer chunk this))
      as [[yielded outcome] st'']. cbn [snd] in *. by rewrite IH, Hconsumer.
Qed.

(** X21: the flag [stable] of the session is only an input of
    [parseStream]: whatever it was, it is [false] after a call of
    [parseStream], and after [parseFile], which sets it first; a later
    call starts by looking for a cluster. *)
Theorem parseStream_consumes_stable (consumer : list byte -> Metadata -> Metadata)
    (chunks : list (list byte)) (this : Metadata) :
  (forall c m, stable (consumer c m) = stable m) ->
  stable (snd (snd (parseStream consumer chunks this))) = false /\
  stable (snd (parseFile this)) = false.
Proof.
  intros Hconsumer. split.
  - unfold parseStream. by rewrite parseStream_loop_session_stable.
  - unfold parseFile, getFileStream, parseStream.
    pose proof (parseStream_loop_session_stable (fun _ m => m)
                  (stream_chunks (openStream (implementsSlice (set_stable true this))
                                             JUndefined))
                  (parseStream_enter
                     (set_opened (opened (set_stable true this) ++ [JUndefined])
                                 (set_stable true this)))
                  (fun _ _ => eq_refl)) as Hloop.
    destruct (parseStream_loop _ _ _) as [[yielded outcome] [fr this']].
    exact Hloop.
Qed.

Lemma parseChunk_stable (chunk : list byte) (st : Frame * Metadata) :
  f_stable (fst st) = true ->
  parseChunk chunk st = decodeAndDispatch chunk st /\
  f_stable (fst (snd (parseChunk chunk st))) = true.
Proof.
  intros Hstable. unfold parseChunk. rewrite Hstable. cbn [negb]. split; [reflexivity|].
  destruct (decodeAndDispatch chunk st) as [outcome st'] eqn:Hdecode.
  apply decodeAndDispatch_stable in Hdecode. cbn [snd]. congruence.
Qed.

Lemma parseStream_loop_stays_stable (consumer : list byte -> Metadata -> Metadata)
    (chunks : list (list byte)) (st : Frame * Metadata) :
  f_stable (fst st) = true ->
  f_stable (fst (snd (parseStream_loop consumer chunks st))) = true.
Proof.
  revert st. induction chunks as [|chunk rest IH]; intros st Hstable; [exact Hstable|].
  cbn [parseStream_loop].
  destruct (parseChunk_stable chunk st Hstable) as [_ Hchunk].
  destruct (parseChunk chunk st) as [[[]|e] [fr this]]; cbn [fst snd] in *; [|exact Hchunk].
  destruct (destroyed (consumer chunk this)); cbn [fst snd]; [exact Hchunk|].
  specialize (IH (fr, consumer chunk this) Hchunk).
  destruct (parseStream_loop consumer rest (fr, consumer chunk this))
    as [[yielded outcome] st'']. exact IH.
Qed.

(** X22: once stable, the loop never scans again: a chunk is handed to the
    decoder whole, and the frame is still stable after it and after any
    run of chunks. *)
Theorem parseStream_stays_stable (consumer : list byte -> Metadata -> Metadata)
    (chunks : list (list byte)) (fr : Frame) (this : Metadata) :
  f_stable fr = true ->
  f_stable (fst (snd (parseStream_loop consumer chunks (fr, this)))) = true /\
  (forall chunk, parseChunk chunk (fr, this) = decodeAndDispatch chunk (fr, this) /\
                 f_stable (fst (snd (parseChunk chunk (fr, this)))) = true).
Proof.
  intros Hstable. split; [by apply parseStream_loop_stays_stable|].
  intros chunk. by apply parseChunk_stable.
Qed.

Lemma seq_from (i n : nat) : i < n -> seq 0 n = seq 0 i ++ i :: seq (S i) (n - S i).
Proof.
  intros Hi. replace n with (i + S (n - S i)) at 1 by lia. by rewrite seq_app.
Qed.

Lemma seq_split3 (i j n : nat) :
  i < j -> j < n ->
  seq 0 n = seq 0 i ++ i :: seq (S i) (j - S i) ++ j :: seq (S j) (n - S j).
Proof.
  intros Hij Hjn. rewrite (seq_from i n) by lia. do 2 f_equal.
  replace (n - S i) with ((j - S i) + S (n - S j)) by lia.
  rewrite seq_app. replace (S i + (j - S i)) with j by lia. reflexivity.
Qed.

(** X23: the scan does not stop at the first trusted marker.  In a chunk
    with trusted markers at [i] and at [j], the decoder is given the bytes
    from [i] on and then the bytes from [j] on: the bytes after [j] are
    decoded twice. *)
Theorem parseChunk_decodes_at_each_marker (chunk : list byte) (fr : Frame)
    (this : Metadata) (i j : nat) :
  f_stable fr = false ->
  i < j -> j + 12 < length chunk ->
  trustedAt chunk i -> trustedAt chunk j ->
  (forall k, k + 12 < length chunk -> trustedAt chunk k -> k = i \/ k = j) ->
  parseChunk chunk (fr, this)
  = match decodeAndDispatch (drop i chunk) (set_f_stable true fr, this) with
    | (Ok _, st') =>
        match decodeAndDispatch (drop j chunk) (set_f_stable true (fst st'), snd st') with
        | (Ok _, st'') => (Ok tt, st'')
        | (Throw e, st'') => (Throw e, st'')
        end
    | (Throw e, st') => (Throw e, st')
    end.
Proof.
  intros Hunstable Hij Hj Hi' Hj' Honly.
  unfold parseChunk. cbn [fst]. rewrite Hunstable. cbn [negb].
  rewrite (seq_split3 i j (length chunk - 12)) by lia.
  assert (Hother : forall (from len : nat) (k : nat),
             k ∈ seq from len -> from + len <= length chunk - 12 ->
             k <> i -> k <> j -> ~ trustedAt chunk k).
  { intros from len k Hk Hrange Hki Hkj Htrusted.
    apply list_elem_of_In, in_seq in Hk.
    destruct (Honly k) as [-> | ->]; [lia|exact Htrusted|done|done]. }
  rewrite scan_first_trusted; [|intros k Hk|exact Hi'].
  2:{ pose proof Hk as Hk'. apply list_elem_of_In, in_seq in Hk'.
      apply (Hother 0 i k Hk); lia. }
  cbn [fst snd].
  destruct (decodeAndDispatch (drop i chunk) (set_f_stable true fr, this))
    as [[[]|e] st']; [|reflexivity].
  rewrite scan_first_trusted; [|intros k Hk|exact Hj'].
  2:{ pose proof Hk as Hk'. apply list_elem_of_In, in_seq in Hk'.
      apply (Hother (S i) (j - S i) k Hk); lia. }
  destruct (decodeAndDispatch (drop j chunk) (set_f_stable true (fst st'), snd st'))
    as [[[]|e] st'']; [|reflexivity].
  apply scan_untrusted. intros k Hk.
  pose proof Hk as Hk'. apply list_elem_of_In, in_seq in Hk'.
  apply (Hother (S j) (length chunk - 12 - S j) k Hk); lia.
Qed.
End Streaming.

Lemma parseStream_stays_stable_example :
  f_stable (fst (snd (@parseStream quietHost (fun _ this => this)
                        [markerInPayload; clusterAt4] (set_stable true (fresh true)))))
  = true.
Proof.
  by destruct (@parseStream_stays_stable quietHost (fun _ this => this)
                 [markerInPayload; clusterAt4]
                 (fst (@parseStream_enter quietHost (set_stable true (fresh true))))
                 (snd (@parseStream_enter quietHost (set_stable true (fresh true))))
                 eq_refl) as [Hloop _].
Defined.

Lemma parseStream_consumes_stable_example :
  stable (snd (snd (@parseStream quietHost (fun _ this => this) [clusterAt2]
                      (set_stable true (fresh true)))))
  = false /\
  stable (snd (@parseFile quietHost (fresh true))) = false.
Proof.
  destruct (@parseStream_consumes_stable quietHost (fun _ this => this) [clusterAt2]
              (set_stable true (fresh true)) (fun _ _ => eq_refl)) as [Hstream _].
  destruct (@parseStream_consumes_stable quietHost (fun _ this => this) []
              (fresh true) (fun _ _ => eq_refl)) as [_ Hfile].
  split; [exact Hstream | exact Hfile].
Defined.

Lemma parseChunk_decodes_at_each_marker_example :
  emitted (snd (snd (@parseChunk clusterHost twoClusters
                       (@Build_Frame clusterHost false tt (JNum 1) JNull,
                        sessionWith (textTrack 3 "utf8")))))
  = [(eventFor "utf8" "Hello", JNum 3); (eventFor "utf8" "Hello", JNum 3)].
Proof.
  rewrite (@parseChunk_decodes_at_each_marker clusterHost twoClusters
             (@Build_Frame clusterHost false tt (JNum 1) JNull)
             (sessionWith (textTrack 3 "utf8")) 0 8 eq_refl).
  - reflexivity.
  - lia.
  - cbn. lia.
  - apply (@trusted_true clusterHost). reflexivity.
  - apply (@trusted_true clusterHost). reflexivity.
  - intros k Hk Htrusted. apply (@trusted_true clusterHost) in Htrusted. cbn in Hk.
    do 17 (destruct k as [|k];
           [first [by left | by right | discriminate Htrusted]|]).
    lia.
Defined.

(** ** Silent runs and the settled duration *)

Section Silent.
Context {H : Host}.

(** X24: the length that the scan reads off the byte [b] after a marker,
    [8 - floor(log2(b))], is the length of an EBML variable-length integer:
    between 1 and 8, one more than the number of leading zero bits of [b];
    the byte 0 alone gives none. *)
Theorem sizeLength_is_vint_length (b : byte) :
  (sizeLength b = None <-> b = x00) /\
  (forall len : nat,
      sizeLength b = Some len ->
      1 <= len <= 8 /\
      (2 ^ N.of_nat (8 - len) <= Byte.to_N b < 2 ^ N.of_nat (9 - len))%N).
Proof.
  split; [|apply sizeLength_vint].
  unfold sizeLength. split.
  - destruct (Byte.to_N b =? 0)%N eqn:Hzero; [|discriminate]. intros _.
    apply N.eqb_eq in Hzero. pose proof (Byte.of_to_N b) as Hb.
    rewrite Hzero in Hb. by injection Hb.
  - intros ->. reflexivity.
Qed.

Lemma handleBlockGroup_trackless (chunk : EbmlTag) (scale clusterTimecode : jsval)
    (this : Metadata) :
  trackless this -> snd (handleBlockGroup chunk scale clusterTimecode this) = this.
Proof.
  intros Htrackless. unfold handleBlockGroup, bind, get_this, await, lift.
  destruct (tracks this) as [[settled|e]|] eqn:Htracks; try reflexivity.
  - destruct Htrackless as [Hempty | [e' He]]; [|congruence].
    destruct (getChild (Some chunk) (EbmlTagId "Block")) as [[block|]|e]; try reflexivity.
    unfold Map_has. rewrite Hempty. reflexivity.
  - destruct Htrackless as [Hempty | [e' He]]; [|congruence].
    cbn [ret].
    destruct (getChild (Some chunk) (EbmlTagId "Block")) as [[block|]|e]; try reflexivity.
    unfold Map_has. rewrite Hempty. reflexivity.
Qed.

Lemma tagMap_trackless (tag : EbmlTag) (st : Frame * Metadata) :
  trackless (snd st) ->
  trackless (snd (tagMap tag st)) /\ emitted (snd (tagMap tag st)) = emitted (snd st).
Proof.
  destruct st as [fr this]. cbn [snd]. intros Htrackless. unfold tagMap.
  destruct (id_is (EbmlTagId "BlockGroup") tag).
  - cbn [snd]. by rewrite handleBlockGroup_trackless.
  - destruct (id_is (EbmlTagId "Timecode") tag); [by split|].
    destruct (id_is (EbmlTagId "TimecodeScale") tag); by split.
Qed.

Lemma dispatch_trackless (tags : list EbmlTag) (st : Frame * Metadata) :
  trackless (snd st) ->
  trackless (snd (fold_left (fun st tag => tagMap tag st) tags st)) /\
  emitted (snd (fold_left (fun st tag => tagMap tag st) tags st)) = emitted (snd st).
Proof.
  revert st. induction tags as [|tag tags IH]; intros st Hst; [by split|].
  cbn [fold_left]. destruct (tagMap_trackless tag st Hst) as [Hnext Hsame].
  destruct (IH (tagMap tag st) Hnext) as [Hend Hemitted]. split; [exact Hend|congruence].
Qed.

Lemma decodeAndDispatch_trackless (bytes : list byte) (st : Frame * Metadata) :
  trackless (snd st) ->
  trackless (snd (snd (decodeAndDispatch bytes st))) /\
  emitted (snd (snd (decodeAndDispatch bytes st))) = emitted (snd st).
Proof.
  destruct st as [fr this]. unfold decodeAndDispatch.
  destruct (parseTags (f_decoder fr) bytes) as [[tags err] decoder']. cbn [snd].
  intros Hst. by apply (dispatch_trackless tags (_, this)).
Qed.

Lemma scan_trackless (chunk : list byte) (positions : list nat) (st : Frame * Metadata) :
  trackless (snd st) ->
  trackless (snd (snd (scan chunk positions st))) /\
  emitted (snd (snd (scan chunk positions st))) = emitted (snd st).
Proof.
  revert st. induction positions as [|i rest IH]; intros st Hst; [by split|].
  rewrite scan_cons.
  destruct (isClusterMarker chunk i && firstTagIsValid chunk i); [|by apply IH].
  destruct (decodeAndDispatch_trackless (drop i chunk) (set_f_stable true (fst st), snd st) Hst)
    as [Hnext Hsame].
  destruct (decodeAndDispatch (drop i chunk) (set_f_stable true (fst st), snd st))
    as [[[]|e] st']; cbn [snd] in *.
  - destruct (IH st' Hnext) as [Hend Hemitted]. split; [exact Hend|congruence].
  - by split.
Qed.

Lemma parseChunk_trackless (chunk : list byte) (st : Frame * Metadata) :
  trackless (snd st) ->
  trackless (snd (snd (parseChunk chunk st))) /\
  emitted (snd (snd (parseChunk chunk st))) = emitted (snd st).
Proof.
  unfold parseChunk. destruct (negb (f_stable (fst st)));
    [apply scan_trackless | apply decodeAndDispatch_trackless].
Qed.

Lemma parseStream_loop_trackless (consumer : list byte -> Metadata -> Metadata)
    (chunks : list (list byte)) (st : Frame * Metadata) :
  (forall c m, subtitleTracks (consumer c m) = subtitleTracks m /\
               tracks (consumer c m) = tracks m /\ emitted (consumer c m) = emitted m) ->
  trackless (snd st) ->
  emitted (snd (snd (parseStream_loop consumer chunks st))) = emitted (snd st).
Proof.
  intros Hconsumer. revert st.
  induction chunks as [|chunk rest IH]; intros st Hst; [reflexivity|].
  cbn [parseStream_loop].
  destruct (parseChunk_trackless chunk st Hst) as [Hnext Hsame].
  destruct (parseChunk chunk st) as [[[]|e] [fr this]]; cbn [snd] in *; [|exact Hsame].
  destruct (Hconsumer chunk this) as (Hregistry & Htracks & Hemitted).
  destruct (destroyed (consumer chunk this)); cbn [snd]; [congruence|].
  assert (Hkept : trackless (consumer chunk this)).
  { unfold trackless in *. rewrite Hregistry, Htracks. exact Hnext. }
  specialize (IH (fr, consumer chunk this) Hkept).
  destruct (parseStream_loop consumer rest (fr, consumer chunk this))
    as [[yielded outcome] st'']. cbn [snd] in *. congruence.
Qed.

(** X25: no block is turned into an event while the registry of subtitle
    tracks is empty or the promise [tracks] is rejected: a whole run of
    [parseStream] leaves the list of emitted events as it was. *)
Theorem parseStream_silent_without_tracks (consumer : list byte -> Metadata -> Metadata)
    (chunks : list (list byte)) (this : Metadata) :
  subtitleTracks this = [] \/ (exists e, tracks this = Some (Throw e)) ->
  (forall c m, subtitleTracks (consumer c m) = subtitleTracks m /\
               tracks (consumer c m) = tracks m /\ emitted (consumer c m) = emitted m) ->
  emitted (snd (snd (parseStream consumer chunks this))) = emitted this.
Proof.
  intros Htrackless Hconsumer. unfold parseStream.
  by rewrite (parseStream_loop_trackless consumer chunks (parseStream_enter this) Hconsumer).
Qed.

(** X26: for a file whose only index lists Info, construction settles
    [seekHead] to that index and [duration] to the data of the first
    Duration child of the Info element met from the top of the file, as it
    is stored, and to [undefined] when Info has no such child. *)
Theorem construct_settles_duration (fuel : nat) (slice : bool) (seg : option EbmlTag)
    (head position info : EbmlTag) (children infoChildren : list EbmlTag)
    (index : gmap string (option EbmlTag)) :
  readUntilTag (openStream slice JUndefined) (EbmlTagId "Segment") false = Ok seg ->
  readUntilTag (openStream slice JUndefined) (EbmlTagId "SeekHead") true = Ok (Some head) ->
  Children head = Some children ->
  transformHead children ∅ = Ok index ->
  index !! "SeekHead" = None ->
  index !! "Info" = Some (Some position) ->
  readUntilTag (openStream slice JUndefined) (EbmlTagId "Info") true = Ok (Some info) ->
  Children info = Some infoChildren ->
  seekHead (construct (S fuel) slice) = Some (Ok (Some index)) /\
  duration (construct (S fuel) slice)
  = Some (Ok (from_option data JUndefined
                          (List.find (id_is (EbmlTagId "Duration")) infoChildren))).
Proof.
  intros Hsegment Hhead Hchildren Hindex Hsingle Hlisted Hinfo HinfoChildren.
  unfold construct, settle.
  rewrite (getSegment_first (fresh slice) seg eq_refl Hsegment).
  set (s1 := set_segment (Ok seg) _).
  assert (Hs1 : implementsSlice s1 = slice /\ destroyed s1 = false /\ seekHead s1 = None /\
                segment s1 = Some (Ok seg) /\ duration s1 = None /\ tagCache s1 = ∅).
  { subst s1. destruct seg; repeat split; reflexivity. }
  destruct Hs1 as (Hslice & Halive & Hunset & Hseg & Hduration & Hcache).
  rewrite (getSeekHead_first _ s1 seg Hunset Hseg), Hslice.
  rewrite (readSeekHead_single fuel _ _ (set_opened (opened s1 ++ [JUndefined]) s1)
             head children index Halive Hhead Hchildren Hindex (or_introl Hsingle)).
  set (s2 := set_seekHead (Ok (Some index)) _).
  assert (Hfetch : readSeekHeadTag "Info" s2
                   = (Ok (FTag (located s2 position info)),
                      set_tagCache (<[ "info" := located s2 position info ]> (tagCache s2))
                        (set_opened (opened s2 ++ [JUndefined]) s2))).
  { rewrite (readSeekHeadTag_present s2 "Info" index position eq_refl); [| |exact Hlisted].
    - replace (implementsSlice s2) with slice by (subst s2; by rewrite <- Hslice).
      by rewrite Hinfo.
    - subst s2. cbn [tagCache set_seekHead set_opened]. rewrite Hcache. apply lookup_empty. }
  assert (Hget : getDuration s2
                 = (Ok (from_option data JUndefined
                                    (List.find (id_is (EbmlTagId "Duration")) infoChildren)),
                    snd (readSeekHeadTag "Info" s2))).
  { unfold getDuration, bind at 1, get_this at 1.
    replace (duration s2) with (@None (result jsval)) by (subst s2; by rewrite <- Hduration).
    unfold bind at 1. rewrite Hfetch. cbn [snd].
    change (Children (located s2 position info)) with (Children info).
    rewrite HinfoChildren. destruct infoChildren as [|c cs]; [reflexivity|].
    unfold bind, lift, ret, getChild.
    change (Children (located s2 position info)) with (Children info).
    rewrite HinfoChildren. destruct (List.find _ (c :: cs)); reflexivity. }
  rewrite Hget.
  set (s3 := set_duration _ (snd (readSeekHeadTag "Info" s2))).
  destruct (getTracks s3) as [r4 s4] eqn:H4.
  pose proof (preserves_getTracks s3) as P4. rewrite H4 in P4.
  apply core_fields in P4 as (_ & Head4 & _ & Duration4 & _).
  cbn [snd] in *. cbn [seekHead duration set_tracks]. rewrite Head4, Duration4.
  subst s3. cbn [seekHead duration set_duration]. rewrite Hfetch. cbn [snd].
  split; reflexivity.
Qed.
End Silent.

Lemma sizeLength_is_vint_length_example :
  sizeLength x81 = Some 1 /\ sizeLength x00 = None /\ sizeLength x01 = Some 8.
Proof.
  destruct (sizeLength_is_vint_length x00) as [Hzero _].
  split; [reflexivity|]. split; [by apply Hzero | reflexivity].
Defined.

Lemma parseStream_silent_without_tracks_example :
  emitted (snd (snd (@parseStream clusterHost (fun _ this => this) [clusterAt2; clusterAt4]
                       (set_stable true (fresh true)))))
  = [].
Proof.
  apply (@parseStream_silent_without_tracks clusterHost (fun _ this => this)
           [clusterAt2; clusterAt4] (set_stable true (fresh true))).
  - by left.
  - by intros c m.
Defined.

Lemma construct_settles_duration_example :
  duration (@construct infoHost 1 true) = Some (Ok (JNum 90000)).
Proof.
  assert (Hindex : @transformHead infoHost [seekEntry 0x1549A966 60] ∅
                   = Ok (<[ "Info" := Some (leaf 0x53AC (JNum 60)) ]> ∅))
    by (vm_compute; reflexivity).
  destruct (@construct_settles_duration infoHost 0 true None
              (master 0x114D9B74 [seekEntry 0x1549A966 60]) (leaf 0x53AC (JNum 60))
              infoElement [seekEntry 0x1549A966 60]
              [leaf 0x2AD7B1 (JNum 1000000); leaf 0x4489 (JNum 90000)]
              (<[ "Info" := Some (leaf 0x53AC (JNum 60)) ]> ∅)
              eq_refl eq_refl eq_refl Hindex eq_refl eq_refl eq_refl eq_refl)
    as [_ Hduration].
  rewrite Hduration. reflexivity.
Defined.

(** ** The scale of the chapter times *)

Section Scale.
Context {H : Host}.

(** X27: when the scale of the session is falsy, [getChapters] opens the
    file from the top once more, takes the data of the first TimecodeScale
    element over 1000000 as the scale of the chapter times, and leaves the
    scale of the session as it was. *)
Theorem getChapters_scale_fallback (this s1 : Metadata) (chaptersTag c : EbmlTag)
    (cs atoms : list EbmlTag) (total : jsval) (found : option EbmlTag) :
  readSeekHeadTag "Chapters" this = (Ok (FTag chaptersTag), s1) ->
  truthy (timecodeScale this) = false ->
  readUntilTag (openStream (implementsSlice this) JUndefined)
               (EbmlTagId "TimecodeScale") true = Ok found ->
  Children chaptersTag = Some (c :: cs) ->
  visibleAtoms (c :: cs) = Ok atoms ->
  durationIs this total ->
  Forall atomReadable atoms ->
  exists chapters : list Chapter.t,
    getChapters this = (Ok chapters, set_opened (opened s1 ++ [JUndefined]) s1) /\
    map Chapter.start chapters
    = map (fun atom =>
             scaled (dataOf atom "ChapterTimeStart")
                    (js_div (from_option data JUndefined found) (JNum 1000000)))
          atoms /\
    timecodeScale (set_opened (opened s1 ++ [JUndefined]) s1) = timecodeScale this.
Proof.
  intros Hfetch Hscale Hread Hchildren Hatoms Htotal Hreadable.
  pose proof (preserves_readSeekHeadTag "Chapters" this) as Hcore.
  rewrite Hfetch in Hcore. cbn [snd] in Hcore.
  apply core_fields in Hcore as (_ & _ & _ & Hduration & _ & Hslice & Hsame & _).
  set (scale := js_div (from_option data JUndefined found) (JNum 1000000)).
  exists (chapterEntries scale total atoms).
  split; [|split; [apply chapterEntries_start | exact Hsame]].
  unfold getChapters. unfold bind at 1. rewrite Hfetch.
  unfold bind at 1, chapterTimecodeScale, bind at 1, get_this at 1.
  rewrite Hsame, Hscale. unfold bind at 1, getFileStream at 1.
  unfold bind at 1, lift at 1. rewrite Hslice, Hread. cbn [ret].
  rewrite Hchildren. unfold bind at 1, lift at 1. rewrite Hatoms.
  replace (js_div match found with
                  | Some t => data t
                  | None => JUndefined
                  end (JNum 1000000)) with scale by (by destruct found).
  apply chapters_of_entries; [|exact Hreadable].
  unfold durationIs in *. cbn [duration set_opened]. by rewrite Hduration.
Qed.
End Scale.

Lemma getChapters_scale_fallback_example :
  fst (@getChapters rescaledHost unscaledSession) = Ok [entry 5 30] /\
  opened (snd (@getChapters rescaledHost unscaledSession)) = [JUndefined; JUndefined].
Proof.
  assert (Hfetch : @readSeekHeadTag rescaledHost "Chapters" unscaledSession
                   = (Ok (FTag (set_absoluteStart (JNum 100) (chaptersWith [10000000%float]))),
                      snd (@readSeekHeadTag rescaledHost "Chapters" unscaledSession)))
    by (vm_compute; reflexivity).
  destruct (@getChapters_scale_fallback rescaledHost unscaledSession _ _
              (master 0x45B9 (map chapterAtom [10000000%float])) []
              (map chapterAtom [10000000%float]) (JNum 30)
              (Some (leaf 0x2AD7B1 (JNum 2000000)))
              Hfetch eq_refl eq_refl eq_refl eq_refl (or_introl eq_refl))
    as (chapters & Hrun & _).
  - constructor; [|constructor]. split; [by eexists|].
    intros disp Hdisp. cbv in Hdisp. discriminate Hdisp.
  - rewrite Hrun. split; [|vm_compute; reflexivity].
    assert (Hcomputed : fst (@getChapters rescaledHost unscaledSession) = Ok [entry 5 30])
      by (vm_compute; reflexivity).
    rewrite Hrun in Hcomputed. exact Hcomputed.
Defined.
